(** * The browser client of the vehicle-complaint system

    A shallow embedding of [frontend/js/api.js] (the HTTP wrapper
    [apiRequest], its callers and the streaming reader [sendChatMessage]) and
    of the page script, the application logic that follows the setup notes
    in [COMMANDS_ONLY.md] ([handleComplaintSubmit], [displayComplaintResult],
    [getConfidenceColor], [renderMarkdown], [closeChat], [searchVehicle],
    [displaySearchResults], [showLoading], and the functions of the chat:
    [startChat], [displayChatInterface], [loadChatMessages],
    [displayMessages], [appendMessage], [sendMessage], [handleKeyPress],
    [scrollToSection]), followed by the properties of these functions.
    [setupEventListeners], which registers the handlers, is not modelled.

    The first half of the file holds the definitions: the JavaScript data the
    script manipulates, the built-ins it calls, the effects it performs, and
    then the functions of the two scripts, one definition per function and
    under the same name.  The second half holds the lemmas.

    What the model takes for granted:
    - a thrown value is an Error object, of which the script reads [message]:
      this is so for what the built-ins and the script throw, and is assumed
      of the function a caller hands to [sendChatMessage];
    - a value of the server is a value of JSON: it holds no function, so that
      an object with a member of its own named [toString] cannot be converted
      to a string or to a Number;
    - a response stream delivers finitely many chunks before it ends or fails;
    - one action of the user runs at a time, from its event to its last
      [await];
    - a request body is kept as the value given to [JSON.stringify];
    - an element of the page is looked up by its id and may be missing, in
      which case reading or writing a property of it throws a TypeError;
    - the elements the chat creates are the messages under [chatMessages],
      which the state of the chat lists in the order of the document;
    - where the script calls an [async] function without awaiting it, the
      state described is the one reached when that call has settled too. *)

From Stdlib Require Import List NArith ZArith String Ascii Bool Lia.
From Stdlib Require Import Floats.
Import ListNotations.

Set Implicit Arguments.
Set Warnings "-register-all".

(* ================================================================== *)
(** * JavaScript data *)
(* ================================================================== *)

(** ** Strings

    A JavaScript string is a sequence of UTF-16 code units.  Literals of the
    script are all ASCII and are written [js "..."]. *)

Definition code_unit := N.
Definition jsstring := list code_unit.

Local Open Scope N_scope.

Definition js (s : string) : jsstring :=
  map N_of_ascii (list_ascii_of_string s).
Arguments js s%_string.

(** [jsq] is [js] for literals that contain double quotes, which are written
    as backquotes in this file. *)
Definition jsq (s : string) : jsstring :=
  map (fun u => if N.eqb u 96 then 34 else u) (js s).
Arguments jsq s%_string.

Fixpoint jsstring_eqb (s t : jsstring) : bool :=
  match s, t with
  | [], [] => true
  | a :: s', b :: t' => N.eqb a b && jsstring_eqb s' t'
  | _, _ => false
  end.

(** LineTerminator: LF, CR, LS, PS. *)
Definition is_line_terminator (u : code_unit) : bool :=
  N.eqb u 10 || N.eqb u 13 || N.eqb u 8232 || N.eqb u 8233.

(** WhiteSpace and LineTerminator, the characters [trim] and [parseInt]
    strip. *)
Definition is_white_space (u : code_unit) : bool :=
  N.eqb u 9 || N.eqb u 11 || N.eqb u 12 || N.eqb u 32 || N.eqb u 160
  || N.eqb u 5760 || (N.leb 8192 u && N.leb u 8202)
  || N.eqb u 8239 || N.eqb u 8287 || N.eqb u 12288 || N.eqb u 65279
  || is_line_terminator u.

Fixpoint trim_start (s : jsstring) : jsstring :=
  match s with
  | u :: s' => if is_white_space u then trim_start s' else s
  | [] => []
  end.

(** [String.prototype.trim]. *)
Definition trim (s : jsstring) : jsstring :=
  rev (trim_start (rev (trim_start s))).

Local Close Scope N_scope.

(** ** Numbers

    A Number is an IEEE 754 binary64 value; [spec_float] is the Standard
    Library's specification of them, and comparisons are those of IEEE. *)

Definition number := spec_float.
Definition prec : Z := 53.
Definition emax : Z := 1024.

Definition NaN : number := S754_nan.

(** The Number nearest to an integer (round to nearest, ties to even). *)
Definition number_of_Z (z : Z) : number := binary_normalize prec emax z 0 false.

(** [a >= b] and [a < b] on Numbers: false as soon as one side is NaN. *)
Definition number_ge (a b : number) : bool := SFleb b a.
Definition number_lt (a b : number) : bool := SFltb a b.

(** ToBoolean on a Number: zero and NaN are falsy. *)
Definition number_truthy (n : number) : bool :=
  match n with
  | S754_zero _ | S754_nan => false
  | _ => true
  end.

(** ** Values

    The values the script handles: what [JSON.parse] produces, together with
    [undefined].  An object is the list of its own properties in insertion
    order, each name occurring once. *)

Inductive value : Type :=
| VUndefined
| VNull
| VBool (b : bool)
| VNum (n : number)
| VStr (s : jsstring)
| VArr (items : list value)
| VObj (props : list (jsstring * value)).

(** ToBoolean. *)
Definition truthy (v : value) : bool :=
  match v with
  | VUndefined | VNull => false
  | VBool b => b
  | VNum n => number_truthy n
  | VStr s => match s with [] => false | _ => true end
  | VArr _ | VObj _ => true
  end.

(** [a || b] on values. *)
Definition js_or (a b : value) : value := if truthy a then a else b.

Fixpoint own_property (p : jsstring) (props : list (jsstring * value)) : value :=
  match props with
  | [] => VUndefined
  | (k, v) :: rest => if jsstring_eqb k p then v else own_property p rest
  end.

(** ** Errors

    Every value thrown in the modelled code is an Error object (the built-ins
    throw TypeError, SyntaxError, URIError or DOMException objects, and the
    script throws [new Error(...)]); what the script reads of it is its
    [message]. *)

Record js_error : Type := mkError {
  error_name : string;
  error_message : jsstring
}.

Inductive completion (A : Type) : Type :=
| Normal (a : A)
| Throw (e : js_error).
Arguments Normal {A} a.
Arguments Throw {A} e.

(** The next step of an evaluation, taken when the step before it did not
    throw. *)
Definition and_then {A B : Type} (c : completion A) (k : A -> completion B)
  : completion B :=
  match c with
  | Normal a => k a
  | Throw e => Throw e
  end.

(** ** What is left to the JavaScript engine

    The texts of the engine's own error messages and the decimal notation of
    Numbers differ between engines or are long to state; the script's
    behaviour is established for every choice of them. *)

Class Runtime : Type := {
  (** Number::toString, as used by template literals and [new Error]. *)
  Number_toString : number -> jsstring;
  (** ToNumber on a string (StringToNumber). *)
  String_toNumber : jsstring -> number;
  (** [Number.prototype.toFixed]. *)
  Number_toFixed : number -> N -> jsstring;
  (** [new Date(v).toLocaleString()]. *)
  Date_toLocaleString : value -> jsstring;
  (** The message of the TypeError thrown when property [p] of [undefined]
      or [null] is read. *)
  TypeError_property : jsstring -> jsstring;
  (** The message of the TypeError thrown when a value that is not a
      function is called. *)
  TypeError_not_a_function : jsstring;
  (** The message of the TypeError thrown when an object cannot be converted
      to a primitive value. *)
  TypeError_primitive : jsstring;
  (** The message of the URIError of [encodeURIComponent]. *)
  URIError_message : jsstring
}.

Section Conversions.
Context {rt : Runtime}.

Definition join_with (sep : jsstring) (parts : list jsstring) : jsstring :=
  match parts with
  | [] => []
  | p :: rest => p ++ flat_map (fun q => sep ++ q) rest
  end.

(** The object has a property of its own with the given name. *)
Definition has_own (p : jsstring) (props : list (jsstring * value)) : bool :=
  existsb (fun kv => jsstring_eqb (fst kv) p) props.

(** ToString on the values above, as a template literal, [new Error] and
    the setters of an element apply it.  An array converts through
    [Array.prototype.join]: [undefined] and [null] give the empty string,
    every other item is converted in turn.  An object converts through the
    [toString] it inherits and gives [[object Object]], unless it has a
    member of its own by that name: that member is a value of JSON and not
    a function, the inherited [valueOf] gives the object back, and the
    conversion throws a TypeError. *)
Fixpoint ToString (v : value) : completion jsstring :=
  match v with
  | VUndefined => Normal (js "undefined")
  | VNull => Normal (js "null")
  | VBool true => Normal (js "true")
  | VBool false => Normal (js "false")
  | VNum n => Normal (Number_toString n)
  | VStr s => Normal s
  | VArr items =>
      and_then
        ((fix each (items : list value) : completion (list jsstring) :=
            match items with
            | [] => Normal []
            | x :: rest =>
                and_then
                  (match x with
                   | VUndefined | VNull => Normal []
                   | _ => ToString x
                   end)
                  (fun part =>
                     and_then (each rest) (fun parts => Normal (part :: parts)))
            end) items)
        (fun parts => Normal (join_with (js ",") parts))
  | VObj props =>
      if has_own (js "toString") props
      then Throw (mkError "TypeError" TypeError_primitive)
      else Normal (js "[object Object]")
  end.

(** ToPrimitive, as [new Date] applies it: an array or an object becomes
    its string, whatever the preferred type, since the inherited [valueOf]
    gives no primitive value. *)
Definition ToPrimitive (v : value) : completion value :=
  match v with
  | VArr _ | VObj _ => and_then (ToString v) (fun s => Normal (VStr s))
  | _ => Normal v
  end.

(** ToNumber, as [>=] and [*] apply it.  Arrays and objects convert
    through their string. *)
Definition ToNumber (v : value) : completion number :=
  match v with
  | VUndefined => Normal NaN
  | VNull => Normal (S754_zero false)
  | VBool b => Normal (if b then number_of_Z 1 else S754_zero false)
  | VNum n => Normal n
  | VStr s => Normal (String_toNumber s)
  | VArr _ | VObj _ => and_then (ToString v) (fun s => Normal (String_toNumber s))
  end.

(** [v.p] for a property name [p] that no built-in prototype defines
    ([message], [id], [data], [complaint], ...): an own property of an
    object, [undefined] on any other value, and a TypeError on [undefined]
    and [null]. *)
Definition get (v : value) (p : jsstring) : completion value :=
  match v with
  | VUndefined | VNull => Throw (mkError "TypeError" (TypeError_property p))
  | VObj props => Normal (own_property p props)
  | _ => Normal VUndefined
  end.

(** [new Error(message)]: the message is converted to a string, unless it
    is [undefined]. *)
Definition new_Error (message : value) : completion js_error :=
  match message with
  | VUndefined => Normal (mkError "Error" [])
  | _ => and_then (ToString message) (fun text => Normal (mkError "Error" text))
  end.

End Conversions.

(* ================================================================== *)
(** * Built-ins the script calls *)
(* ================================================================== *)

(** ** [TextDecoder]

    [new TextDecoder()] is a UTF-8 decoder.  Called with [{ stream: true }]
    it keeps the bytes of an unfinished character for the next call and never
    flushes.  [dstate] is the decoder between two calls. *)

Module TextDecoder.
Local Open Scope N_scope.

Record dstate : Type := mkDecoder {
  code_point : N;
  bytes_seen : N;
  bytes_needed : N;
  lower_boundary : N;
  upper_boundary : N;
  BOM_seen : bool
}.

Definition fresh : dstate := mkDecoder 0 0 0 128 191 false.

Definition between (lo b hi : N) : bool := N.leb lo b && N.leb b hi.

(** A byte read while no character is pending; the result is the new
    decoder and the code points it emits (U+FFFD for an invalid byte). *)
Definition lead_byte (bom : bool) (b : N) : dstate * list N :=
  if N.leb b 127 then (mkDecoder 0 0 0 128 191 bom, [b])
  else if between 194 b 223 then
    (mkDecoder (N.land b 31) 0 1 128 191 bom, [])
  else if between 224 b 239 then
    (mkDecoder (N.land b 15) 0 2
       (if N.eqb b 224 then 160 else 128)
       (if N.eqb b 237 then 159 else 191) bom, [])
  else if between 240 b 244 then
    (mkDecoder (N.land b 7) 0 3
       (if N.eqb b 240 then 144 else 128)
       (if N.eqb b 244 then 143 else 191) bom, [])
  else (mkDecoder 0 0 0 128 191 bom, [65533]).

(** One step of the UTF-8 decoder.  A byte outside the expected range ends
    the pending character with U+FFFD and is then read again as a first
    byte. *)
Definition step (d : dstate) (b : N) : dstate * list N :=
  if N.eqb (bytes_needed d) 0 then lead_byte (BOM_seen d) b
  else if negb (between (lower_boundary d) b (upper_boundary d)) then
    let (d', out) := lead_byte (BOM_seen d) b in (d', 65533 :: out)
  else
    let cp := N.lor (N.shiftl (code_point d) 6) (N.land b 63) in
    let seen := bytes_seen d + 1 in
    if N.eqb seen (bytes_needed d)
    then (mkDecoder 0 0 0 128 191 (BOM_seen d), [cp])
    else (mkDecoder cp seen (bytes_needed d) 128 191 (BOM_seen d), []).

(** A code point as UTF-16 code units. *)
Definition utf16 (cp : N) : jsstring :=
  if N.ltb cp 65536 then [cp]
  else [55296 + N.shiftr (cp - 65536) 10; 56320 + N.land (cp - 65536) 1023].

(** The code points leave the decoder as UTF-16; a byte order mark that is
    the very first code point of the stream is dropped. *)
Fixpoint serialize (bom : bool) (cps : list N) : bool * jsstring :=
  match cps with
  | [] => (bom, [])
  | cp :: rest =>
      let (bom', out) := serialize true rest in
      (bom', if negb bom && N.eqb cp 65279 then out else utf16 cp ++ out)
  end.

Definition emit (d : dstate) (cps : list N) : dstate * jsstring :=
  let (bom, out) := serialize (BOM_seen d) cps in
  (mkDecoder (code_point d) (bytes_seen d) (bytes_needed d)
     (lower_boundary d) (upper_boundary d) bom, out).

(** [decoder.decode(value, { stream: true })]. *)
Fixpoint decode (d : dstate) (bytes : list Byte.byte) : dstate * jsstring :=
  match bytes with
  | [] => (d, [])
  | b :: rest =>
      let (d1, cps) := step d (Byte.to_N b) in
      let (d2, out) := emit d1 cps in
      let (d3, out') := decode d2 rest in
      (d3, out ++ out')
  end.

End TextDecoder.

(** ** Regular expressions and [String.prototype.replace]

    The fragment of ECMAScript regular expressions the script uses: literal
    characters, [.], the quantifiers [*], [+], [*?] and [+?] on a single
    character, capture groups, and the assertions [^] and [$], under the
    flags [g] and [m].  Matching is the backtracking search of the language
    definition, written with a continuation for the rest of the pattern. *)

Module RegExp.

Inductive atom : Type :=
| Char (c : code_unit)       (* a literal character *)
| Dot.                        (* [.]: anything but a line terminator *)

Inductive term : Type :=
| One (a : atom)
| Star (a : atom) (greedy : bool)
| Plus (a : atom) (greedy : bool)
| Group (index : nat) (body : list term)
| Bol                         (* [^] *)
| Eol.                        (* [$] *)

Record regexp : Type := mkRegExp {
  source : list term;
  global : bool;
  multiline : bool
}.

(** The literal characters of [s], one after the other. *)
Definition chars (s : jsstring) : list term := map (fun c => One (Char c)) s.

(** A position of the matcher: the text before it (nearest character
    first), the text after it, and the captures made so far. *)
Record position : Type := mkPosition {
  before : jsstring;
  after : jsstring;
  captures : list (nat * jsstring)
}.

Definition continuation := position -> option position.

Definition atom_matches (a : atom) (c : code_unit) : bool :=
  match a with
  | Char c' => N.eqb c' c
  | Dot => negb (is_line_terminator c)
  end.

(** [a*?]: the rest of the pattern is tried first, one more character
    only when it fails. *)
Fixpoint lazy_star (a : atom) (k : continuation)
    (caps : list (nat * jsstring)) (left right : jsstring) : option position :=
  match k (mkPosition left right caps) with
  | Some r => Some r
  | None =>
      match right with
      | c :: right' =>
          if atom_matches a c then lazy_star a k caps (c :: left) right'
          else None
      | [] => None
      end
  end.

(** [a*]: as many characters as possible, giving them back one at a time
    while the rest of the pattern fails. *)
Fixpoint greedy_star (a : atom) (k : continuation)
    (caps : list (nat * jsstring)) (left right : jsstring) : option position :=
  match right with
  | c :: right' =>
      if atom_matches a c then
        match greedy_star a k caps (c :: left) right' with
        | Some r => Some r
        | None => k (mkPosition left right caps)
        end
      else k (mkPosition left right caps)
  | [] => k (mkPosition left right caps)
  end.

Definition star (a : atom) (greedy : bool) (k : continuation) : continuation :=
  fun p =>
    (if greedy then greedy_star else lazy_star) a k
      (captures p) (before p) (after p).

Definition one (a : atom) (k : continuation) : continuation :=
  fun p =>
    match after p with
    | c :: right' =>
        if atom_matches a c
        then k (mkPosition (c :: before p) right' (captures p))
        else None
    | [] => None
    end.

(** The text read between position [p] and the later position [q]. *)
Definition text_between (p q : position) : jsstring :=
  rev (firstn (List.length (before q) - List.length (before p)) (before q)).

Definition at_line_start (m : bool) (p : position) : bool :=
  match before p with
  | [] => true
  | c :: _ => m && is_line_terminator c
  end.

Definition at_line_end (m : bool) (p : position) : bool :=
  match after p with
  | [] => true
  | c :: _ => m && is_line_terminator c
  end.

Fixpoint match_term (m : bool) (t : term) (k : continuation) {struct t}
  : continuation :=
  match t with
  | One a => one a k
  | Star a greedy => star a greedy k
  | Plus a greedy => one a (star a greedy k)
  | Group i body =>
      fun p =>
        (fix sequence (ts : list term) (k' : continuation) : continuation :=
           match ts with
           | [] => k'
           | t' :: ts' => match_term m t' (sequence ts' k')
           end)
          body
          (fun q => k (mkPosition (before q) (after q)
                         ((i, text_between p q) :: captures q)))
          p
  | Bol => fun p => if at_line_start m p then k p else None
  | Eol => fun p => if at_line_end m p then k p else None
  end.

Fixpoint match_terms (m : bool) (ts : list term) (k : continuation)
  : continuation :=
  match ts with
  | [] => k
  | t :: ts' => match_term m t (match_terms m ts' k)
  end.

(** An attempt to match the whole pattern at one position. *)
Definition match_at (r : regexp) (left right : jsstring) : option position :=
  match_terms (multiline r) (source r) Some (mkPosition left right []).

Fixpoint capture (i : nat) (caps : list (nat * jsstring)) : option jsstring :=
  match caps with
  | [] => None
  | (j, s) :: rest => if Nat.eqb i j then Some s else capture i rest
  end.

(** The number of capture groups of a pattern. *)
Fixpoint groups_of (t : term) : nat :=
  match t with
  | Group _ body =>
      S ((fix total (ts : list term) : nat :=
            match ts with
            | [] => 0
            | t' :: ts' => groups_of t' + total ts'
            end) body)
  | _ => 0
  end.

Definition group_count (ts : list term) : nat :=
  fold_right (fun t n => groups_of t + n) 0 ts.

Local Open Scope N_scope.

(** The replacement text: [$$] is a dollar, [$&] the matched text, [$1] to
    [$9] a capture of the pattern (empty when the group took no part in the
    match); any other [$] stands for itself. *)
Fixpoint substitution (groups : nat) (matched : jsstring)
    (caps : list (nat * jsstring)) (template : jsstring) : jsstring :=
  match template with
  | 36 :: rest =>
      match rest with
      | 36 :: rest' => 36 :: substitution groups matched caps rest'
      | 38 :: rest' => matched ++ substitution groups matched caps rest'
      | d :: rest' =>
          let n := N.to_nat (d - 48) in
          if (49 <=? d) && (d <=? 57) && Nat.leb n groups then
            match capture n caps with Some s => s | None => [] end
              ++ substitution groups matched caps rest'
          else 36 :: substitution groups matched caps rest
      | [] => [36]
      end
  | c :: rest => c :: substitution groups matched caps rest
  | [] => []
  end.

Local Close Scope N_scope.

(** [String.prototype.replace] with a pattern and a replacement string.
    [skip] counts the characters of the last match that are still to be
    passed over; [found] tells whether a match was already replaced, which
    ends the search when the pattern is not global.  After an empty match
    the search resumes one character further. *)
Fixpoint replace_from (r : regexp) (template : jsstring) (found : bool)
    (skip : nat) (left right : jsstring) {struct right} : jsstring :=
  match skip, right with
  | S n, c :: right' => replace_from r template found n (c :: left) right'
  | S _, [] => []
  | O, _ =>
      match
        (if found && negb (global r) then None else match_at r left right)
      with
      | Some q =>
          let matched := text_between (mkPosition left right []) q in
          substitution (group_count (source r)) matched (captures q) template
          ++ match right with
             | c :: right' =>
                 match matched with
                 | [] => c :: replace_from r template true 0 (c :: left) right'
                 | _ :: rest =>
                     replace_from r template true (List.length rest) (c :: left) right'
                 end
             | [] => []
             end
      | None =>
          match right with
          | c :: right' => c :: replace_from r template found 0 (c :: left) right'
          | [] => []
          end
      end
  end.

Definition replace (r : regexp) (template : jsstring) (s : jsstring) : jsstring :=
  replace_from r template false 0 [] s.

End RegExp.

(** ** [parseInt]

    [parseInt(s)] without a radix: leading white space is skipped, then come
    an optional sign, an optional [0x] that selects radix 16, and the longest
    run of digits; no digit at all gives NaN.  The result is the Number
    nearest to the integer read. *)

Section ParseInt.
Local Open Scope N_scope.

Definition digit_value (u : code_unit) : option N :=
  if (48 <=? u) && (u <=? 57) then Some (u - 48)
  else if (97 <=? u) && (u <=? 122) then Some (u - 87)
  else if (65 <=? u) && (u <=? 90) then Some (u - 55)
  else None.

(** The digits of the given radix at the start of [s], as numbers. *)
Fixpoint leading_digits (radix : N) (s : jsstring) : list N :=
  match s with
  | u :: s' =>
      match digit_value u with
      | Some d => if d <? radix then d :: leading_digits radix s' else []
      | None => []
      end
  | [] => []
  end.

Definition digits_value (radix : N) (ds : list N) : N :=
  fold_left (fun acc d => acc * radix + d) ds 0.

Definition parseInt (s : jsstring) : number :=
  let s1 := trim_start s in
  let '(negative, s2) :=
    match s1 with
    | 45 :: r => (true, r)
    | 43 :: r => (false, r)
    | _ => (false, s1)
    end in
  let '(radix, s3) :=
    match s2 with
    | 48 :: 120 :: r => (16, r)
    | 48 :: 88 :: r => (16, r)
    | _ => (10, s2)
    end in
  match leading_digits radix s3 with
  | [] => NaN
  | ds =>
      let n := Z.of_N (digits_value radix ds) in
      binary_normalize prec emax (if negative then Z.opp n else n) 0 negative
  end.

End ParseInt.

(** ** [encodeURIComponent]

    Every code unit outside the unreserved set is replaced by the escaped
    bytes of the UTF-8 encoding of its code point; a surrogate without its
    partner makes the function throw a URIError, which is [None] here. *)

Section EncodeURIComponent.
Local Open Scope N_scope.

Definition unreserved (u : code_unit) : bool :=
  ((65 <=? u) && (u <=? 90)) || ((97 <=? u) && (u <=? 122))
  || ((48 <=? u) && (u <=? 57))
  || existsb (N.eqb u) (js "-_.!~*'()").

Definition hex_digit (n : N) : code_unit :=
  if n <? 10 then 48 + n else 55 + n.

Definition escape (octet : N) : jsstring :=
  [37; hex_digit (N.shiftr octet 4); hex_digit (N.land octet 15)].

(** The UTF-8 encoding of a code point. *)
Definition utf8 (cp : N) : list N :=
  if cp <? 128 then [cp]
  else if cp <? 2048 then
    [192 + N.shiftr cp 6; 128 + N.land cp 63]
  else if cp <? 65536 then
    [224 + N.shiftr cp 12; 128 + N.land (N.shiftr cp 6) 63; 128 + N.land cp 63]
  else
    [240 + N.shiftr cp 18; 128 + N.land (N.shiftr cp 12) 63;
     128 + N.land (N.shiftr cp 6) 63; 128 + N.land cp 63].

Fixpoint encodeURIComponent (s : jsstring) : option jsstring :=
  match s with
  | [] => Some []
  | u :: rest =>
      if unreserved u then option_map (cons u) (encodeURIComponent rest)
      else if (56320 <=? u) && (u <=? 57343) then None
      else if (55296 <=? u) && (u <=? 56319) then
        match rest with
        | v :: rest' =>
            if (56320 <=? v) && (v <=? 57343) then
              option_map
                (app (flat_map escape
                        (utf8 ((u - 55296) * 1024 + (v - 56320) + 65536))))
                (encodeURIComponent rest')
            else None
        | [] => None
        end
      else option_map (app (flat_map escape (utf8 u))) (encodeURIComponent rest)
  end.

End EncodeURIComponent.

(* ================================================================== *)
(** * Effects *)
(* ================================================================== *)

(** ** The network

    [fetch] is given a URL and the properties [method], [headers] and [body]
    of its second argument.  A body is always the result of
    [JSON.stringify]; the model keeps the value that was serialized. *)

Record request : Type := mkRequest {
  method : option jsstring;
  headers : list (jsstring * jsstring);
  body : option value
}.

(** The body of a response read as a stream: the chunks it delivers, and
    then either the end of the stream or the error it fails with. *)
Record byte_stream : Type := mkStream {
  chunks : list (list Byte.byte);
  failure : option js_error
}.

(** A response: its status, what [response.json()] settles to, and
    [response.body] ([None] is [null]). *)
Record response : Type := mkResponse {
  status : Z;
  json : completion value;
  stream : option byte_stream
}.

(** [response.ok]. *)
Definition ok (r : response) : bool :=
  (200 <=? status r)%Z && (status r <=? 299)%Z.

(** ** The page

    An element of the page with the properties the script reads and writes:
    [value] and [checked] of a form control, [style.display], and the last
    value assigned to [textContent] or [innerHTML]. *)

Inductive content : Type :=
| TextContent (v : value)
| InnerHTML (v : value).

Record element : Type := mkElement {
  input_value : jsstring;
  checked : bool;
  display : jsstring;
  inner : content
}.

(** ** What a run leaves behind *)

Inductive deferred : Type :=
| ScrollResultIntoView.         (* the function given to [setTimeout] *)

Inductive event : Type :=
| Fetch (url : jsstring) (init : request)
| ReaderRead                           (* [reader.read()] *)
| OnChunk (chunk : jsstring)           (* a call of the [onChunk] argument *)
| ConsoleError (label : jsstring) (e : js_error)
| Alert (message : jsstring)
| Confirm (message : jsstring)
| PreventDefault
| SetTimeout (task : deferred) (delay : N).

(** The state of a run: the three globals of the page script, the page, the
    log of what was done so far (oldest first), and the surroundings: how
    the server answers the n-th [fetch] and how the user answers the n-th
    [confirm]. *)
Record world : Type := mkWorld {
  currentComplaint : value;
  currentChatSession : value;
  currentCar : value;
  document : string -> option element;
  log : list event;
  network : nat -> completion response;
  fetched : nat;
  user : nat -> bool;
  asked : nat
}.

Definition set_currentComplaint (v : value) (w : world) : world :=
  mkWorld v (currentChatSession w) (currentCar w) (document w) (log w)
    (network w) (fetched w) (user w) (asked w).

Definition set_currentChatSession (v : value) (w : world) : world :=
  mkWorld (currentComplaint w) v (currentCar w) (document w) (log w)
    (network w) (fetched w) (user w) (asked w).

Definition set_currentCar (v : value) (w : world) : world :=
  mkWorld (currentComplaint w) (currentChatSession w) v (document w) (log w)
    (network w) (fetched w) (user w) (asked w).

Definition set_document (d : string -> option element) (w : world) : world :=
  mkWorld (currentComplaint w) (currentChatSession w) (currentCar w) d (log w)
    (network w) (fetched w) (user w) (asked w).

Definition add_event (e : event) (w : world) : world :=
  mkWorld (currentComplaint w) (currentChatSession w) (currentCar w)
    (document w) (log w ++ [e]) (network w) (fetched w) (user w) (asked w).

Definition count_fetch (w : world) : world :=
  mkWorld (currentComplaint w) (currentChatSession w) (currentCar w)
    (document w) (log w) (network w) (S (fetched w)) (user w) (asked w).

Definition count_confirm (w : world) : world :=
  mkWorld (currentComplaint w) (currentChatSession w) (currentCar w)
    (document w) (log w) (network w) (fetched w) (user w) (S (asked w)).

(** ** Computations

    A function of the script is a computation that transforms the world and
    either returns or throws; what it did before throwing stays done.  An
    [async] function is the same thing: the script awaits every promise as
    soon as it gets it, so that a rejection is an exception at the [await]. *)

Definition M (A : Type) : Type := world -> completion A * world.

Definition ret {A} (a : A) : M A := fun w => (Normal a, w).

Definition bind {A B} (c : M A) (k : A -> M B) : M B :=
  fun w =>
    match c w with
    | (Normal a, w') => k a w'
    | (Throw e, w') => (Throw e, w')
    end.

Definition throw {A} (e : js_error) : M A := fun w => (Throw e, w).

(** [try { body } catch (error) { handler }]. *)
Definition try_catch {A} (body : M A) (handler : js_error -> M A) : M A :=
  fun w =>
    match body w with
    | (Normal a, w') => (Normal a, w')
    | (Throw e, w') => handler e w'
    end.

Definition lift {A} (c : completion A) : M A := fun w => (c, w).

(** Reading and writing a global of the script. *)
Definition read {A} (global : world -> A) : M A := fun w => (Normal (global w), w).
Definition write (change : world -> world) : M unit := fun w => (Normal tt, change w).

Definition emit (e : event) : M unit := write (add_event e).

Declare Scope js_scope.
Delimit Scope js_scope with js.
Notation "x <- c ;; k" := (bind c (fun x => k))
  (at level 61, c at next level, right associativity) : js_scope.
Notation "c ;; k" := (bind c (fun _ => k))
  (at level 61, right associativity) : js_scope.
Local Open Scope js_scope.

Section Effects.
Context {rt : Runtime}.

(** [await fetch(url, init)]. *)
Definition fetch (url : jsstring) (init : request) : M response :=
  fun w => (network w (fetched w), count_fetch (add_event (Fetch url init) w)).

(** [console.error(label, error)]. *)
Definition console_error (label : jsstring) (e : js_error) : M unit :=
  emit (ConsoleError label e).

(** [alert(message)]. *)
Definition alert (message : jsstring) : M unit := emit (Alert message).

(** [confirm(message)]. *)
Definition confirm (message : jsstring) : M bool :=
  fun w => (Normal (user w (asked w)), count_confirm (add_event (Confirm message) w)).

(** [document.getElementById(id)]: the element, or [None] for [null]. *)
Definition getElementById (id : string) : M (option element) :=
  fun w => (Normal (document w id), w).

(** Reading property [p] of what [getElementById] returned. *)
Definition property {A} (p : string) (read : element -> A)
    (el : option element) : M A :=
  match el with
  | Some e => ret (read e)
  | None => throw (mkError "TypeError" (TypeError_property (js p)))
  end.

(** The page after a change of the element with the given id. *)
Definition update_element (id : string) (change : element -> element)
    (doc : string -> option element) : string -> option element :=
  fun id' => if String.eqb id' id then option_map change (doc id') else doc id'.

(** Writing property [p] of the element with the given id, which
    [getElementById] had returned or not. *)
Definition assign (p : string) (id : string) (el : option element)
    (change : element -> element) : M unit :=
  match el with
  | Some _ => fun w => (Normal tt, set_document (update_element id change (document w)) w)
  | None => throw (mkError "TypeError" (TypeError_property (js p)))
  end.

Definition with_display (d : jsstring) (e : element) : element :=
  mkElement (input_value e) (checked e) d (inner e).

Definition with_inner (c : content) (e : element) : element :=
  mkElement (input_value e) (checked e) (display e) c.

Definition content_value (c : content) : value :=
  match c with
  | TextContent v | InnerHTML v => v
  end.

(** Writing [textContent] or [innerHTML] with a value that need not be a
    string: the element converts what it is given to a string, so that the
    assignment throws where the conversion does.  The page keeps the value
    as it was given. *)
Definition assign_content (p : string) (id : string) (el : option element)
    (c : content) : M unit :=
  match el with
  | Some _ =>
      _ <- lift (ToString (content_value c)) ;;
      assign p id el (with_inner c)
  | None => throw (mkError "TypeError" (TypeError_property (js p)))
  end.

End Effects.

(* ================================================================== *)
(** * [api.js] *)
(* ================================================================== *)

(** The result of a request: [{ success: true, data }] or
    [{ success: false, error }]. *)
Inductive result : Type :=
| Success (data : value)
| Failure (error : jsstring).

Definition success (r : result) : bool :=
  match r with Success _ => true | Failure _ => false end.

(** The second argument of [apiRequest], each property present or not. *)
Record options : Type := mkOptions {
  options_method : option jsstring;
  options_headers : option (list (jsstring * jsstring));
  options_body : option value
}.

(** [{ ...a, ...b }] on objects whose properties are strings: a property of
    [b] replaces the property of the same name or is added at the end. *)
Fixpoint put (k v : jsstring) (o : list (jsstring * jsstring))
  : list (jsstring * jsstring) :=
  match o with
  | [] => [(k, v)]
  | (k', v') :: rest =>
      if jsstring_eqb k' k then (k', v) :: rest else (k', v') :: put k v rest
  end.

Definition spread (a b : list (jsstring * jsstring)) : list (jsstring * jsstring) :=
  fold_left (fun o kv => put (fst kv) (snd kv) o) b a.

Section Api.
Context {rt : Runtime}.

Definition API_BASE_URL : jsstring := js "/api/v1".

(** The entries of [API_ENDPOINTS] that the functions below use.  A
    template literal converts what it interpolates with ToString, and
    throws where that conversion does. *)
Definition complaints_quickSubmit : jsstring :=
  API_BASE_URL ++ js "/complaints/quick-submit/".
Definition complaints_statistics : jsstring :=
  API_BASE_URL ++ js "/complaints/statistics/".
Definition cars_byPlate : jsstring :=
  API_BASE_URL ++ js "/cars/by_license_plate/".
Definition cars_history (id : value) : completion jsstring :=
  and_then (ToString id) (fun id =>
  Normal (API_BASE_URL ++ js "/cars/" ++ id ++ js "/complaint_history/")).
Definition chat_createSession : jsstring :=
  API_BASE_URL ++ js "/chat/sessions/".
Definition chat_sessionDetail (id : value) : completion jsstring :=
  and_then (ToString id) (fun id =>
  Normal (API_BASE_URL ++ js "/chat/sessions/" ++ id ++ js "/")).
Definition chat_sendMessage (id : value) : completion jsstring :=
  and_then (ToString id) (fun id =>
  Normal (API_BASE_URL ++ js "/chat/sessions/" ++ id ++ js "/send_message/")).
Definition chat_closeSession (id : value) : completion jsstring :=
  and_then (ToString id) (fun id =>
  Normal (API_BASE_URL ++ js "/chat/sessions/" ++ id ++ js "/close/")).

Definition content_type_json : list (jsstring * jsstring) :=
  [(js "Content-Type", js "application/json")].

(** [finalOptions]: the options of the caller over the default ones, and
    the headers of the caller over the default header. *)
Definition finalOptions (o : options) : request :=
  mkRequest (options_method o)
    (spread content_type_json
       (match options_headers o with Some h => h | None => [] end))
    (options_body o).

(** [apiRequest(url, options = {})]. *)
Definition apiRequest (url : jsstring) (opts : option options) : M result :=
  let o := match opts with Some o => o | None => mkOptions None None None end in
  try_catch
    (response <- fetch url (finalOptions o) ;;
     data <- lift (json response) ;;
     (if negb (ok response) then
        message <- lift (get data (js "message")) ;;
        error <- lift (new_Error (js_or message (VStr (js "API request failed")))) ;;
        throw error
      else ret tt) ;;
     ret (Success data))
    (fun error =>
       console_error (js "API Error:") error ;;
       ret (Failure (error_message error))).

Definition POST (payload : option value) : option options :=
  Some (mkOptions (Some (js "POST")) None payload).

(** [submitComplaint(formData)]. *)
Definition submitComplaint (formData : value) : M result :=
  apiRequest complaints_quickSubmit (POST (Some formData)).

(** [getComplaintStatistics()]. *)
Definition getComplaintStatistics : M result :=
  apiRequest complaints_statistics None.

(** [searchCarByPlate(licensePlate)]. *)
Definition searchCarByPlate (licensePlate : jsstring) : M result :=
  match encodeURIComponent licensePlate with
  | Some plate => apiRequest (cars_byPlate ++ js "?plate=" ++ plate) None
  | None => throw (mkError "URIError" URIError_message)
  end.

(** [getCarComplaintHistory(carId)]. *)
Definition getCarComplaintHistory (carId : value) : M result :=
  url <- lift (cars_history carId) ;;
  apiRequest url None.

(** [createChatSession(complaintId)]. *)
Definition createChatSession (complaintId : value) : M result :=
  apiRequest chat_createSession
    (POST (Some (VObj [(js "complaint_id", complaintId)]))).

(** The loop of [sendChatMessage]: [pending] and [failure] are what the
    reader has still to deliver, [decoder] the state of the TextDecoder and
    [fullResponse] the text so far.  The loop ends with the stream. *)
Fixpoint read_chunks (onChunk : option (jsstring -> M unit))
    (pending : list (list Byte.byte)) (failure : option js_error)
    (decoder : TextDecoder.dstate) (fullResponse : jsstring) : M jsstring :=
  match pending with
  | [] =>
      emit ReaderRead ;;
      match failure with
      | None => ret fullResponse                        (* done: break *)
      | Some e => throw e
      end
  | value :: rest =>
      emit ReaderRead ;;
      let (decoder', chunk) := TextDecoder.decode decoder value in
      let fullResponse' := fullResponse ++ chunk in
      match onChunk with
      | Some f => emit (OnChunk chunk) ;; f chunk
      | None => ret tt
      end ;;
      read_chunks onChunk rest failure decoder' fullResponse'
  end.

(** [sendChatMessage(sessionId, message, onChunk)]; [onChunk] is [None] when
    the caller passes no function.  The address is built before the [try]. *)
Definition sendChatMessage (sessionId : value) (message : value)
    (onChunk : option (jsstring -> M unit)) : M result :=
  url <- lift (chat_sendMessage sessionId) ;;
  try_catch
    (response <- fetch url
        (mkRequest (Some (js "POST")) content_type_json
           (Some (VObj [(js "message", message)]))) ;;
     (if negb (ok response)
      then error <- lift (new_Error (VStr (js "API request failed"))) ;;
           throw error
      else ret tt) ;;
     reader <- match stream response with
               | Some s => ret s
               | None =>
                   throw (mkError "TypeError" (TypeError_property (js "getReader")))
               end ;;
     fullResponse <- read_chunks onChunk (chunks reader) (failure reader)
                       TextDecoder.fresh [] ;;
     ret (Success
            (VObj [(js "ai_response", VObj [(js "message", VStr fullResponse)])])))
    (fun error =>
       console_error (js "API Error:") error ;;
       ret (Failure (error_message error))).

(** [getChatSession(sessionId)]. *)
Definition getChatSession (sessionId : value) : M result :=
  url <- lift (chat_sessionDetail sessionId) ;;
  apiRequest url None.

(** [closeChatSession(sessionId)]. *)
Definition closeChatSession (sessionId : value) : M result :=
  url <- lift (chat_closeSession sessionId) ;;
  apiRequest url (POST None).

End Api.

(* ================================================================== *)
(** * The page script *)
(* ================================================================== *)

(** ** [renderMarkdown] *)

Module Markdown.
Import RegExp.

(** [/\*\*(.*?)\*\*/g] *)
Definition bold : regexp :=
  mkRegExp (chars (js "**") ++ [Group 1 [Star Dot false]] ++ chars (js "**"))
    true false.

(** [/^### (.+)$/gm] *)
Definition header : regexp :=
  mkRegExp ([Bol] ++ chars (js "### ") ++ [Group 1 [Plus Dot true]; Eol])
    true true.

(** [/^- (.+)$/gm] *)
Definition list_item : regexp :=
  mkRegExp ([Bol] ++ chars (js "- ") ++ [Group 1 [Plus Dot true]; Eol])
    true true.

(** [/\n/g] *)
Definition newline : regexp := mkRegExp [One (Char 10%N)] true false.

End Markdown.

Definition renderMarkdown (text : jsstring) : jsstring :=
  RegExp.replace Markdown.newline (js "<br>")
    (RegExp.replace Markdown.list_item (js "<li>$1</li>")
       (RegExp.replace Markdown.header (js "<h3>$1</h3>")
          (RegExp.replace Markdown.bold (js "<strong>$1</strong>") text))).

(** ** The literals [0.8] and [0.6]: the Numbers nearest to them. *)

Set Warnings "-inexact-float".
Definition lit_0_8 : number := Eval vm_compute in Prim2SF 0.8%float.
Definition lit_0_6 : number := Eval vm_compute in Prim2SF 0.6%float.
Definition lit_100 : number := Eval vm_compute in Prim2SF 100%float.
Set Warnings "inexact-float".

Section Page.
Context {rt : Runtime}.

(** [showLoading(show)]. *)
Definition showLoading (show : bool) : M unit :=
  spinner <- getElementById "loadingSpinner" ;;
  assign "style" "loadingSpinner" spinner
    (with_display (if show then js "flex" else js "none")).

(** [getConfidenceColor(confidence)]; each comparison converts its
    argument to a Number. *)
Definition getConfidenceColor (confidence : value) : completion jsstring :=
  and_then (ToNumber confidence) (fun c =>
  if number_ge c lit_0_8 then Normal (js "#10b981")
  else
    and_then (ToNumber confidence) (fun c =>
    if number_ge c lit_0_6 then Normal (js "#f59e0b")
    else Normal (js "#ef4444"))).

(** [a.p || b.q] and the like: the properties are read only as far as the
    result needs them. *)
Definition get_or (v : value) (p : jsstring) (otherwise : M value) : M value :=
  a <- lift (get v p) ;;
  if truthy a then ret a else otherwise.

(** [displayComplaintResult(data)]. *)
Definition displayComplaintResult (data : value) : M unit :=
  complaint <- lift (get data (js "complaint")) ;;
  _ <- lift (get data (js "car")) ;;
  _ <- lift (get data (js "customer")) ;;
  el <- getElementById "complaintId" ;;
  id <- lift (get complaint (js "id")) ;;
  assign_content "textContent" "complaintId" el (TextContent id) ;;
  el <- getElementById "predictedCategory" ;;
  category <- get_or complaint (js "category_display")
                (lift (get complaint (js "predicted_category"))) ;;
  assign_content "textContent" "predictedCategory" el (TextContent category) ;;
  el <- getElementById "confidence" ;;
  confidence <- lift (get complaint (js "prediction_confidence")) ;;
  color <- lift (getConfidenceColor confidence) ;;
  confidence' <- lift (get complaint (js "prediction_confidence")) ;;
  percent <- lift (ToNumber confidence') ;;
  assign "innerHTML" "confidence" el
    (with_inner (InnerHTML (VStr
       (jsq "<span style=`color: " ++ color ++ jsq "`>
            " ++ Number_toFixed (SFmul prec emax percent lit_100) 1
          ++ js "%
        </span>")))) ;;
  analysisEl <- getElementById "analysisContent" ;;
  match analysisEl with
  | Some _ =>
      analysis <- get_or complaint (js "analysis")
                    (ret (VStr (js "No analysis available."))) ;;
      assign_content "innerHTML" "analysisContent" analysisEl (InnerHTML analysis) ;;
      container <- getElementById "analysisSection" ;;
      match container with
      | Some _ =>
          assign "style" "analysisSection" container (with_display (js "block"))
      | None => ret tt
      end
  | None => ret tt
  end ;;
  el <- getElementById "resultCard" ;;
  assign "style" "resultCard" el (with_display (js "block")).

(** The value of the form control with the given id. *)
Definition value_of (id : string) : M jsstring :=
  el <- getElementById id ;;
  property "value" input_value el.

Definition checked_of (id : string) : M bool :=
  el <- getElementById id ;;
  property "checked" checked el.

(** The object literal of [handleComplaintSubmit].  [JSON.stringify] leaves
    out a property whose value is [undefined]. *)
Definition formData : M value :=
  customer_name <- value_of "customerName" ;;
  customer_email <- value_of "customerEmail" ;;
  customer_phone <- value_of "customerPhone" ;;
  license_plate <- value_of "licensePlate" ;;
  car_make <- value_of "carMake" ;;
  car_model <- value_of "carModel" ;;
  carYear <- value_of "carYear" ;;
  carMileage <- value_of "carMileage" ;;
  complaint_text <- value_of "complaintText" ;;
  crash <- checked_of "crash" ;;
  fire <- checked_of "fire" ;;
  ret (VObj
    [ (js "customer_name", VStr customer_name);
      (js "customer_email", VStr customer_email);
      (js "customer_phone", VStr customer_phone);
      (js "license_plate", VStr license_plate);
      (js "car_make", VStr car_make);
      (js "car_model", VStr car_model);
      (js "car_year", js_or (VNum (parseInt carYear)) VUndefined);
      (js "car_mileage", js_or (VNum (parseInt carMileage)) (VNum (S754_zero false)));
      (js "complaint_text", VStr complaint_text);
      (js "crash", VBool crash);
      (js "fire", VBool fire) ]).

(** [handleComplaintSubmit(e)]. *)
Definition handleComplaintSubmit : M unit :=
  emit PreventDefault ;;
  formData <- formData ;;
  customer_email <- lift (get formData (js "customer_email")) ;;
  customer_phone <- lift (get formData (js "customer_phone")) ;;
  if negb (truthy customer_email) && negb (truthy customer_phone) then
    alert (js "Please provide at least an email or phone number.")
  else
    showLoading true ;;
    result <- submitComplaint formData ;;
    showLoading false ;;
    match result with
    | Success data =>
        data' <- lift (get data (js "data")) ;;
        complaint <- lift (get data' (js "complaint")) ;;
        write (set_currentComplaint complaint) ;;
        data' <- lift (get data (js "data")) ;;
        car <- lift (get data' (js "car")) ;;
        write (set_currentCar car) ;;
        data' <- lift (get data (js "data")) ;;
        displayComplaintResult data' ;;
        emit (SetTimeout ScrollResultIntoView 300)
    | Failure error =>
        alert (js "Error submitting complaint: " ++ error)
    end.

(** [closeChat()]. *)
Definition closeChat : M unit :=
  session <- read currentChatSession ;;
  if negb (truthy session) then ret tt
  else
    confirmed <- confirm (js "Are you sure you want to close this chat session?") ;;
    if negb confirmed then ret tt
    else
      showLoading true ;;
      session <- read currentChatSession ;;
      id <- lift (get session (js "id")) ;;
      _ <- closeChatSession id ;;
      showLoading false ;;
      chat <- getElementById "chat" ;;
      assign "style" "chat" chat (with_display (js "none")) ;;
      write (set_currentChatSession VNull) ;;
      alert (js "Chat session closed successfully").

(** [complaints.length]: the length of an array or a string, the property
    of that name of an object. *)
Definition get_length (v : value) : completion value :=
  match v with
  | VArr items => Normal (VNum (number_of_Z (Z.of_nat (List.length items))))
  | VStr s => Normal (VNum (number_of_Z (Z.of_nat (List.length s))))
  | _ => get v (js "length")
  end.

(** [v === 0]. *)
Definition is_zero (v : value) : bool :=
  match v with
  | VNum n => SFeqb n (S754_zero false)
  | _ => false
  end.

(** The text one complaint adds to [html] in [displaySearchResults]; the
    template literal converts each value before it reads the next. *)
Definition complaint_card (complaint : value) : M jsstring :=
  category <- get_or complaint (js "category_display")
                (lift (get complaint (js "predicted_category"))) ;;
  category <- lift (ToString category) ;;
  created_at <- lift (get complaint (js "created_at")) ;;
  created_at <- lift (ToPrimitive created_at) ;;
  crash <- lift (get complaint (js "crash")) ;;
  fire <- lift (get complaint (js "fire")) ;;
  text <- get_or complaint (js "complaint_text") (ret (VStr (js "N/A"))) ;;
  text <- lift (ToString text) ;;
  ret (jsq "
        <div class=`complaint-card`>
            <div class=`complaint-header`>
                <div>
                    <h4>" ++ category ++ js "</h4>
                    <small>" ++ Date_toLocaleString created_at ++ js "</small>
                </div>
                <div>
                    " ++ (if truthy crash then js "CRASH" else []) ++ js "
                    " ++ (if truthy fire then js "FIRE" else []) ++ jsq "
                </div>
            </div>
            <div class=`complaint-body`>
                <p>" ++ text ++ js "</p>
            </div>
        </div>").

(** [complaints.forEach(complaint => { html += ... })]. *)
Fixpoint forEach_card (complaints : list value) (html : jsstring) : M jsstring :=
  match complaints with
  | [] => ret html
  | complaint :: rest =>
      card <- complaint_card complaint ;;
      forEach_card rest (html ++ card)
  end.

(** [displaySearchResults(data)]. *)
Definition displaySearchResults (data : value) : M unit :=
  car <- lift (get data (js "car")) ;;
  complaints <- lift (get data (js "complaints")) ;;
  resultsDiv <- getElementById "searchResults" ;;
  n <- lift (get_length complaints) ;;
  if is_zero n then
    assign "innerHTML" "searchResults" resultsDiv
      (with_inner (InnerHTML (VStr
         (jsq "<div class=`search-card`><p>No complaints found for this vehicle.</p></div>"))))
  else
    display_name <- lift (get car (js "display_name")) ;;
    display_name <- lift (ToString display_name) ;;
    license_plate <- lift (get car (js "license_plate")) ;;
    license_plate <- lift (ToString license_plate) ;;
    customer <- lift (get car (js "customer")) ;;
    name <- lift (get customer (js "name")) ;;
    name <- lift (ToString name) ;;
    n <- lift (get_length complaints) ;;
    n <- lift (ToString n) ;;
    let html :=
      jsq "<div class=`search-card`>
        <h3>Vehicle: " ++ display_name ++ js "</h3>
        <p><strong>License Plate:</strong> " ++ license_plate ++ js "</p>
        <p><strong>Customer:</strong> " ++ name ++ js "</p>
        <p><strong>Total Complaints:</strong> " ++ n ++ js "</p>
    </div>" in
    html <- match complaints with
            | VArr items => forEach_card items html
            | _ => throw (mkError "TypeError" TypeError_not_a_function)
            end ;;
    assign "innerHTML" "searchResults" resultsDiv (with_inner (InnerHTML (VStr html))).

(** [searchVehicle()]. *)
Definition searchVehicle : M unit :=
  licensePlate <- value_of "searchPlate" ;;
  let licensePlate := trim licensePlate in
  if negb (truthy (VStr licensePlate)) then
    alert (js "Please enter a license plate number")
  else
    showLoading true ;;
    result <- searchCarByPlate licensePlate ;;
    showLoading false ;;
    match result with
    | Success car =>
        id <- lift (get car (js "id")) ;;
        historyResult <- getCarComplaintHistory id ;;
        match historyResult with
        | Success data => displaySearchResults data
        | Failure _ => ret tt
        end
    | Failure _ =>
        el <- getElementById "searchResults" ;;
        assign "innerHTML" "searchResults" el
          (with_inner (InnerHTML (VStr
             (jsq "<div class=`search-card`><p>No vehicle found with this license plate.</p></div>"))))
    end.

End Page.

(* ================================================================== *)
(** * The chat of the page script *)
(* ================================================================== *)

(** ** The messages on the page

    The chat functions create elements and hang them under the element
    [chatMessages].  A message is the [div] that [appendMessage] builds:
    its class, the text of its role line, and what was assigned to its text
    [div], as text or as HTML. *)

Record message_element : Type := mkMessage {
  className : jsstring;
  roleSpan : jsstring;
  textDiv : content
}.

(** The state of the chat functions: the world; the children of
    [chatMessages] in the order of the document, each with the number of
    its element; the number of message elements created so far, which is
    the number of the next one; the children [chatMessages] had when its
    [scrollTop] was last set to its [scrollHeight]; the section that was
    last scrolled into view; and the variable [fullResponse] of the running
    [sendMessage], which its callback updates. *)
Record chat : Type := mkChat {
  base : world;
  messages : list (nat * message_element);
  created : nat;
  scrolled : list (nat * message_element);
  in_view : option string;
  fullResponse : jsstring
}.

Definition set_base (w : world) (s : chat) : chat :=
  mkChat w (messages s) (created s) (scrolled s) (in_view s) (fullResponse s).

Definition set_messages (ms : list (nat * message_element)) (s : chat) : chat :=
  mkChat (base s) ms (created s) (scrolled s) (in_view s) (fullResponse s).

Definition count_created (s : chat) : chat :=
  mkChat (base s) (messages s) (S (created s)) (scrolled s) (in_view s)
    (fullResponse s).

Definition set_scrolled (ms : list (nat * message_element)) (s : chat) : chat :=
  mkChat (base s) (messages s) (created s) ms (in_view s) (fullResponse s).

Definition set_in_view (id : option string) (s : chat) : chat :=
  mkChat (base s) (messages s) (created s) (scrolled s) id (fullResponse s).

Definition set_fullResponse (text : jsstring) (s : chat) : chat :=
  mkChat (base s) (messages s) (created s) (scrolled s) (in_view s) text.

(** ** Computations on the chat

    The same computations as before, on the larger state. *)

Definition V (A : Type) : Type := chat -> completion A * chat.

Definition V_ret {A} (a : A) : V A := fun s => (Normal a, s).

Definition V_bind {A B} (c : V A) (k : A -> V B) : V B :=
  fun s =>
    match c s with
    | (Normal a, s') => k a s'
    | (Throw e, s') => (Throw e, s')
    end.

Definition V_throw {A} (e : js_error) : V A := fun s => (Throw e, s).

Definition V_try_catch {A} (body : V A) (handler : js_error -> V A) : V A :=
  fun s =>
    match body s with
    | (Normal a, s') => (Normal a, s')
    | (Throw e, s') => handler e s'
    end.

Definition V_lift {A} (c : completion A) : V A := fun s => (c, s).

(** A computation on the world, run on the world of the chat. *)
Definition on_world {A} (c : M A) : V A :=
  fun s => (fst (c (base s)), set_base (snd (c (base s))) s).

Definition V_read {A} (field : chat -> A) : V A := fun s => (Normal (field s), s).
Definition V_write (change : chat -> chat) : V unit := fun s => (Normal tt, change s).

(** A call of an [async] function whose promise is not awaited.  The
    caller goes on as soon as the function has reached its first [await],
    and nobody hears of a rejection.  The state described is the one
    reached when the call has settled too; what the caller does in the
    meantime is independent of it (see [startChat] and [handleKeyPress]). *)
Definition detached {A} (c : V A) : V unit :=
  fun s => (Normal tt, snd (c s)).

Declare Scope chat_scope.
Delimit Scope chat_scope with chat.
Notation "x <- c ;; k" := (V_bind c (fun x => k))
  (at level 61, c at next level, right associativity) : chat_scope.
Notation "c ;; k" := (V_bind c (fun _ => k))
  (at level 61, right associativity) : chat_scope.

(** [v === s] for a string literal [s]. *)
Definition is_string (v : value) (s : jsstring) : bool :=
  match v with
  | VStr t => jsstring_eqb t s
  | _ => false
  end.

Definition with_value (v : jsstring) (e : element) : element :=
  mkElement v (checked e) (display e) (inner e).

(** [element.remove()] on the element with the given id. *)
Definition remove (id : string) : M unit :=
  write (fun w =>
           set_document
             (fun id' => if String.eqb id' id then None else document w id') w).

Section Chat.
Context {rt : Runtime}.
Local Open Scope chat_scope.

(** [scrollToSection(sectionId)]. *)
Definition scrollToSection (sectionId : string) : V unit :=
  section <- on_world (getElementById sectionId) ;;
  match section with
  | Some _ => V_write (set_in_view (Some sectionId))
  | None => V_ret tt
  end.

(** [chatMessages.innerHTML = '']: the element loses its children. *)
Definition clear (chatMessages : option element) : V unit :=
  on_world (assign "innerHTML" "chatMessages" chatMessages
              (with_inner (InnerHTML (VStr [])))) ;;
  V_write (set_messages []).

(** [chatMessages.scrollTop = chatMessages.scrollHeight]. *)
Definition scroll_to_bottom (chatMessages : option element) : V unit :=
  match chatMessages with
  | Some _ => V_write (fun s => set_scrolled (messages s) s)
  | None => V_throw (mkError "TypeError" (TypeError_property (js "scrollHeight")))
  end.

(** [displayChatInterface()]. *)
Definition displayChatInterface : V unit :=
  on_world
    (chatSection <- getElementById "chat" ;;
     assign "style" "chat" chatSection (with_display (js "block")) ;;
     car <- read currentCar ;;
     display_name <- lift (get car (js "display_name")) ;;
     display_name <- lift (ToString display_name) ;;
     car <- read currentCar ;;
     license_plate <- lift (get car (js "license_plate")) ;;
     license_plate <- lift (ToString license_plate) ;;
     let carInfo := display_name ++ js " (" ++ license_plate ++ js ")" in
     el <- getElementById "chatCarInfo" ;;
     assign "textContent" "chatCarInfo" el (with_inner (TextContent (VStr carInfo))) ;;
     el <- getElementById "chatComplaintCategory" ;;
     complaint <- read currentComplaint ;;
     category <- get_or complaint (js "category_display")
                   (complaint <- read currentComplaint ;;
                    lift (get complaint (js "predicted_category"))) ;;
     assign_content "textContent" "chatComplaintCategory" el
       (TextContent category))%js ;;
  chatMessages <- on_world (getElementById "chatMessages") ;;
  clear chatMessages.

(** [renderMarkdown(text)] on a value: [text.replace] is there on a string
    only. *)
Definition renderMarkdown_of (text : value) : completion jsstring :=
  match text with
  | VStr s => Normal (renderMarkdown s)
  | VUndefined | VNull =>
      Throw (mkError "TypeError" (TypeError_property (js "replace")))
  | _ => Throw (mkError "TypeError" TypeError_not_a_function)
  end.

(** [document.createElement('div')] for a message: the number of the new
    element. *)
Definition createElement : V nat :=
  fun s => (Normal (created s), count_created s).

(** [appendMessage(role, text)]; the result is the number of the element
    it returns. *)
Definition appendMessage (role text : value) : V nat :=
  chatMessages <- on_world (getElementById "chatMessages") ;;
  messageDiv <- createElement ;;
  role' <- V_lift (ToString role) ;;
  let className := js "message " ++ role' in
  let roleSpan := if is_string role (js "user") then js "You" else js "AI Mechanic" in
  textDiv <- (if is_string role (js "assistant") then
                html <- V_lift (renderMarkdown_of text) ;;
                V_ret (InnerHTML (VStr html))
              else
                _ <- V_lift (ToString text) ;;
                V_ret (TextContent text)) ;;
  match chatMessages with
  | Some _ =>
      V_write (fun s =>
                 set_messages
                   (messages s ++ [(messageDiv, mkMessage className roleSpan textDiv)])
                   s)
  | None => V_throw (mkError "TypeError" (TypeError_property (js "appendChild")))
  end ;;
  scroll_to_bottom chatMessages ;;
  V_ret messageDiv.

(** [messages.forEach(message => { appendMessage(...) })]. *)
Fixpoint forEach_message (items : list value) : V unit :=
  match items with
  | [] => V_ret tt
  | message :: rest =>
      role <- V_lift (get message (js "role")) ;;
      text <- V_lift (get message (js "message")) ;;
      appendMessage role text ;;
      forEach_message rest
  end.

(** [displayMessages(messages)]. *)
Definition displayMessages (messages : value) : V unit :=
  chatMessages <- on_world (getElementById "chatMessages") ;;
  clear chatMessages ;;
  match messages with
  | VArr items => forEach_message items
  | VUndefined | VNull =>
      V_throw (mkError "TypeError" (TypeError_property (js "forEach")))
  | _ => V_throw (mkError "TypeError" TypeError_not_a_function)
  end ;;
  scroll_to_bottom chatMessages.

(** [loadChatMessages()]. *)
Definition loadChatMessages : V unit :=
  session <- on_world (read currentChatSession) ;;
  if negb (truthy session) then V_ret tt
  else
    session <- on_world (read currentChatSession) ;;
    id <- V_lift (get session (js "id")) ;;
    result <- on_world (getChatSession id) ;;
    match result with
    | Success data =>
        messages <- V_lift (get data (js "messages")) ;;
        displayMessages messages
    | Failure _ => V_ret tt
    end.

(** [startChat()].  The call of [loadChatMessages] is not awaited: its
    request is sent at once, and the rest of it runs when the answer is
    there, after [scrollToSection]; the two work on different parts of the
    state. *)
Definition startChat : V unit :=
  complaint <- on_world (read currentComplaint) ;;
  if negb (truthy complaint) then on_world (alert (js "No complaint selected"))
  else
    on_world (showLoading true) ;;
    complaint <- on_world (read currentComplaint) ;;
    id <- V_lift (get complaint (js "id")) ;;
    result <- on_world (createChatSession id) ;;
    on_world (showLoading false) ;;
    match result with
    | Success data =>
        on_world (write (set_currentChatSession data)) ;;
        displayChatInterface ;;
        detached loadChatMessages ;;
        scrollToSection "chat"
    | Failure error =>
        on_world (alert (js "Error starting chat: " ++ error))
    end.

(** The loop of [sendChatMessage] again, for a caller whose callback works
    on the chat. *)
Fixpoint read_chunks_V (onChunk : option (jsstring -> V unit))
    (pending : list (list Byte.byte)) (failure : option js_error)
    (decoder : TextDecoder.dstate) (fullResponse : jsstring) : V jsstring :=
  match pending with
  | [] =>
      on_world (emit ReaderRead) ;;
      match failure with
      | None => V_ret fullResponse
      | Some e => V_throw e
      end
  | value :: rest =>
      on_world (emit ReaderRead) ;;
      let (decoder', chunk) := TextDecoder.decode decoder value in
      let fullResponse' := fullResponse ++ chunk in
      match onChunk with
      | Some f => on_world (emit (OnChunk chunk)) ;; f chunk
      | None => V_ret tt
      end ;;
      read_chunks_V onChunk rest failure decoder' fullResponse'
  end.

(** [sendChatMessage(sessionId, message, onChunk)] again, likewise; the
    two agree on a callback that works on the world only. *)
Definition sendChatMessage_V (sessionId : value) (message : value)
    (onChunk : option (jsstring -> V unit)) : V result :=
  url <- V_lift (chat_sendMessage sessionId) ;;
  V_try_catch
    (response <- on_world
        (fetch url
           (mkRequest (Some (js "POST")) content_type_json
              (Some (VObj [(js "message", message)])))) ;;
     (if negb (ok response)
      then error <- V_lift (new_Error (VStr (js "API request failed"))) ;;
           V_throw error
      else V_ret tt) ;;
     reader <- match stream response with
               | Some s => V_ret s
               | None =>
                   V_throw (mkError "TypeError" (TypeError_property (js "getReader")))
               end ;;
     fullResponse <- read_chunks_V onChunk (chunks reader) (failure reader)
                       TextDecoder.fresh [] ;;
     V_ret (Success
              (VObj [(js "ai_response", VObj [(js "message", VStr fullResponse)])])))
    (fun error =>
       on_world (console_error (js "API Error:") error) ;;
       V_ret (Failure (error_message error))).

(** [aiContentDiv.innerHTML = html], where [aiContentDiv] is the text
    [div] of the message with the given number; an element that is no
    longer on the page changes nothing there. *)
Definition with_innerHTML (messageDiv : nat) (html : jsstring)
    (ms : list (nat * message_element)) : list (nat * message_element) :=
  map (fun m =>
         if Nat.eqb (fst m) messageDiv
         then (fst m, mkMessage (className (snd m)) (roleSpan (snd m))
                        (InnerHTML (VStr html)))
         else m)
    ms.

Definition set_innerHTML (messageDiv : nat) (html : jsstring) : V unit :=
  V_write (fun s => set_messages (with_innerHTML messageDiv html (messages s)) s).

(** [aiMessageDiv.remove()]. *)
Definition without (messageDiv : nat) (ms : list (nat * message_element))
  : list (nat * message_element) :=
  filter (fun m => negb (Nat.eqb (fst m) messageDiv)) ms.

Definition remove_message (messageDiv : nat) : V unit :=
  V_write (fun s => set_messages (without messageDiv (messages s)) s).

(** The callback [sendMessage] gives to [sendChatMessage]; [aiMessageDiv]
    is the message whose text [div] it fills. *)
Definition streaming_callback (aiMessageDiv : nat) (chunk : jsstring) : V unit :=
  V_write (fun s => set_fullResponse (fullResponse s ++ chunk) s) ;;
  fullResponse <- V_read fullResponse ;;
  set_innerHTML aiMessageDiv (renderMarkdown fullResponse) ;;
  chatMessages <- on_world (getElementById "chatMessages") ;;
  scroll_to_bottom chatMessages.

(** [sendMessage()]. *)
Definition sendMessage : V unit :=
  messageInput <- on_world (getElementById "messageInput") ;;
  text <- on_world (property "value" input_value messageInput) ;;
  let message := trim text in
  if negb (truthy (VStr message)) then V_ret tt
  else
    session <- on_world (read currentChatSession) ;;
    if negb (truthy session) then on_world (alert (js "No active chat session"))
    else
      on_world (assign "value" "messageInput" messageInput (with_value [])) ;;
      appendMessage (VStr (js "user")) (VStr message) ;;
      aiMessageDiv <- appendMessage (VStr (js "assistant")) (VStr []) ;;
      V_write (set_fullResponse []) ;;
      session <- on_world (read currentChatSession) ;;
      id <- V_lift (get session (js "id")) ;;
      result <- sendChatMessage_V id (VStr message)
                  (Some (streaming_callback aiMessageDiv)) ;;
      indicator <- on_world (getElementById "typingIndicator") ;;
      match indicator with
      | Some _ => on_world (remove "typingIndicator")
      | None => V_ret tt
      end ;;
      if negb (success result) then
        remove_message aiMessageDiv ;;
        appendMessage (VStr (js "system"))
          (VStr (js "Error: Could not get response from AI mechanic.")) ;;
        V_ret tt
      else V_ret tt.

(** [handleKeyPress(event)], given [event.key]; the call of [sendMessage]
    is not awaited. *)
Definition handleKeyPress (key : value) : V unit :=
  if is_string key (js "Enter") then detached sendMessage else V_ret tt.

End Chat.


(* ================================================================== *)
(** * An engine, a page and servers for the examples *)
(* ================================================================== *)

Module Demo.

Fixpoint decimal_digits (fuel : nat) (n : N) (acc : jsstring) : jsstring :=
  match fuel with
  | O => acc
  | S fuel' =>
      let acc' := (48 + N.modulo n 10)%N :: acc in
      if N.ltb n 10 then acc' else decimal_digits fuel' (N.div n 10) acc'
  end.

(** The integer a Number stands for, when it is one. *)
Definition integral (n : number) : option Z :=
  match n with
  | S754_zero _ => Some 0%Z
  | S754_finite s m e =>
      let z := if s then Zneg m else Zpos m in
      if (0 <=? e)%Z then Some (z * 2 ^ e)%Z
      else if (Z.modulo z (2 ^ (- e)) =? 0)%Z then Some (z / 2 ^ (- e))%Z
      else None
  | _ => None
  end.

Definition integer_text (n : number) : jsstring :=
  match integral n with
  | Some z => (if (z <? 0)%Z then js "-" else []) ++ decimal_digits 400 (Z.abs_N z) []
  | None => js "NaN"
  end.

(** The engine of the examples.  Its error messages name the property that
    could not be read.  It writes integers in decimal notation; what the
    examples never convert (other Numbers, strings read as Numbers, dates)
    gets a fixed result. *)
Definition engine : Runtime := {|
  Number_toString := integer_text;
  String_toNumber := fun _ => NaN;
  Number_toFixed := fun n _ => integer_text n ++ js ".0";
  Date_toLocaleString := fun _ => js "Invalid Date";
  TypeError_property := fun p => js "Cannot read properties of null (reading '" ++ p ++ js "')";
  TypeError_not_a_function := js "complaints.forEach is not a function";
  TypeError_primitive := js "Cannot convert object to primitive value";
  URIError_message := js "URI malformed"
|}.

(** ** A page *)

Definition control (text : jsstring) (checked : bool) : element :=
  mkElement text checked [] (TextContent (VStr [])).

Definition block : element := control [] false.

Fixpoint page (els : list (string * element)) (id : string) : option element :=
  match els with
  | [] => None
  | (id', e) :: rest => if String.eqb id id' then Some e else page rest id
  end.

(** The page of the application: the complaint form with the given
    contents, the result card, the chat panel, the search box with the
    given contents, and the loading spinner. *)
Definition index_html (email phone year mileage plate : jsstring)
  : string -> option element :=
  page
    [ ("customerName", control (js "Ada") false);
      ("customerEmail", control email false);
      ("customerPhone", control phone false);
      ("licensePlate", control (js "ABC 123") false);
      ("carMake", control (js "Fiat") false);
      ("carModel", control (js "Panda") false);
      ("carYear", control year false);
      ("carMileage", control mileage false);
      ("complaintText", control (js "The brakes squeal.") false);
      ("crash", control (js "on") false);
      ("fire", control (js "on") true);
      ("complaintId", block); ("predictedCategory", block);
      ("confidence", block); ("analysisContent", block);
      ("analysisSection", block); ("resultCard", block);
      ("chat", mkElement [] false (js "block") (TextContent (VStr [])));
      ("searchPlate", control plate false);
      ("searchResults", block);
      ("loadingSpinner", mkElement [] false (js "none") (TextContent (VStr []))) ]%string.

(** ** Servers *)

Definition bytes (s : string) : list Byte.byte := list_byte_of_string s.

Definition json_response (status : Z) (data : value) : completion response :=
  Normal (mkResponse status (Normal data) (Some (mkStream [] None))).

Definition offline : completion response :=
  Throw (mkError "TypeError" (js "Failed to fetch")).

(** A server that answers the first request with [first] and every later
    one with [then_]. *)
Definition server (first then_ : completion response) (n : nat)
  : completion response :=
  match n with O => first | S _ => then_ end.

Definition session_7 : value :=
  VObj [(js "id", VNum (number_of_Z 7)); (js "messages", VArr [])].

(** A session whose id is an object with a member named [toString]. *)
Definition session_odd : value :=
  VObj [(js "id", VObj [(js "toString", VNum (number_of_Z 1))])].

(** The start of a run: no complaint and no car selected. *)
Definition start (doc : string -> option element) (session : value)
    (net : nat -> completion response) (answer : bool) : world :=
  mkWorld VNull session VNull doc [] net 0 (fun _ => answer) 0.

(** The page with an empty form and an empty search box. *)
Definition blank : string -> option element := index_html [] [] [] [] [].

(** A status 400 with the given body. *)
Definition bad_request (data : value) : response :=
  mkResponse 400 (Normal data) (Some (mkStream [] None)).

(** A streamed answer, in the given chunks. *)
Definition streamed (parts : list (list Byte.byte)) (failure : option js_error)
  : response :=
  mkResponse 200 (Throw (mkError "SyntaxError" (js "Unexpected token")))
    (Some (mkStream parts failure)).



(** The bytes of [caf\u00e9!], the two bytes of the accented letter in
    different chunks. *)
Definition cafe : list (list Byte.byte) :=
  [ bytes "caf" ++ [Byte.xc3]; [Byte.xa9] ++ bytes "!" ].

Definition connection_lost : js_error := mkError "TypeError" (js "network error").

Set Warnings "-inexact-float".
Definition lit_0_7 : number := Eval vm_compute in Prim2SF 0.7%float.
Set Warnings "inexact-float".

Definition car_3 : value :=
  VObj [(js "id", VNum (number_of_Z 3)); (js "display_name", VStr (js "Fiat Panda"))].

End Demo.

(** ** A page with the chat, and what the examples of the chat start from *)

Module ChatDemo.
Import Demo.

(** The page of the application with the chat panel hidden and the given
    text in the input of the chat. *)
Definition chat_html (input : jsstring) : string -> option element :=
  fun id =>
    match
      page
        [ ("chat", mkElement [] false (js "none") (TextContent (VStr [])));
          ("chatCarInfo", block); ("chatComplaintCategory", block);
          ("chatMessages", block); ("messageInput", control input false) ]%string id
    with
    | Some e => Some e
    | None => blank id
    end.

(** A page that has the result card and no place for the analysis. *)
Definition card_only : string -> option element :=
  page [ ("complaintId", block); ("predictedCategory", block);
         ("confidence", block); ("resultCard", block) ]%string.

Definition complaint_12 : value :=
  VObj [ (js "id", VNum (number_of_Z 12));
         (js "predicted_category", VStr (js "Brakes")) ].

Definition panda : value :=
  VObj [ (js "display_name", VStr (js "Fiat Panda"));
         (js "license_plate", VStr (js "ABC 123")) ].

(** The answer to a submission. *)
Definition accepted : value :=
  VObj [(js "data", VObj [(js "complaint", complaint_12); (js "car", panda)])].

(** A chat without messages on the page. *)
Definition chatting (doc : string -> option element) (complaint session car : value)
    (net : nat -> completion response) : chat :=
  mkChat (mkWorld complaint session car doc [] net 0 (fun _ => true) 0)
    [] 0 [] None [].

(** Two messages of a stored session. *)
Definition history : list value :=
  [ VObj [(js "role", VStr (js "user")); (js "message", VStr (js "It squeals."))];
    VObj [(js "role", VStr (js "assistant")); (js "message", VStr (js "**Pads**"))] ].

End ChatDemo.

(* ================================================================== *)
(** * Vocabulary of the statements *)
(* ================================================================== *)

(** What [throw new Error(...)] throws: the new error, or the error of
    its construction. *)
Definition thrown (c : completion js_error) : js_error :=
  match c with
  | Normal e | Throw e => e
  end.

(** The error with which a request settles, if any: the one [fetch] or
    [response.json()] rejects with, or the one [apiRequest] throws itself on
    a status outside 200-299. *)
Definition rejection {rt : Runtime} (o : completion response) : option js_error :=
  match o with
  | Throw e => Some e
  | Normal r =>
      match json r with
      | Throw e => Some e
      | Normal data =>
          if ok r then None
          else match get data (js "message") with
               | Throw e => Some e
               | Normal message =>
                   Some (thrown (new_Error (js_or message (VStr (js "API request failed")))))
               end
      end
  end.

(** The result [apiRequest] makes of it. *)
Definition settled {rt : Runtime} (o : completion response) : result :=
  match rejection o, o with
  | Some e, _ => Failure (error_message e)
  | None, Normal r =>
      match json r with Normal data => Success data | Throw e => Failure (error_message e) end
  | None, Throw e => Failure (error_message e)
  end.

(** The world after [apiRequest(url, ...)] with request [init]. *)
Definition requested {rt : Runtime} (url : jsstring) (init : request) (w : world) : world :=
  let w' := count_fetch (add_event (Fetch url init) w) in
  match rejection (network w (fetched w)) with
  | Some e => add_event (ConsoleError (js "API Error:") e) w'
  | None => w'
  end.

(** The value of a header in a list of headers. *)
Fixpoint header (name : jsstring) (hs : list (jsstring * jsstring)) : option jsstring :=
  match hs with
  | [] => None
  | (k, v) :: rest => if jsstring_eqb k name then Some v else header name rest
  end.

(** The request [apiRequest] makes when it is given a URL only. *)
Definition plain_request : request := mkRequest None content_type_json None.

(** A request that [apiRequest] turns into a failure: [fetch] rejects,
    the body is not JSON, or the status is outside 200-299. *)
Definition fails (o : completion response) : bool :=
  match o with
  | Throw _ => true
  | Normal r =>
      match json r with
      | Throw _ => true
      | Normal _ => negb (ok r)
      end
  end.

(** The request [sendChatMessage] makes for a message. *)
Definition message_request (message : value) : request :=
  mkRequest (Some (js "POST")) content_type_json
    (Some (VObj [(js "message", message)])).

(** The payload [sendChatMessage] wraps the text of the answer in. *)
Definition ai_response (text : jsstring) : value :=
  VObj [(js "ai_response", VObj [(js "message", VStr text)])].

Definition options_or_default (opts : option options) : options :=
  match opts with Some o => o | None => mkOptions None None None end.

(** The texts of the chunks of a stream, each decoded where the previous
    one left the decoder. *)
Fixpoint decoded (d : TextDecoder.dstate) (chunks : list (list Byte.byte))
  : list jsstring :=
  match chunks with
  | [] => []
  | value :: rest =>
      let (d', chunk) := TextDecoder.decode d value in
      chunk :: decoded d' rest
  end.


(** The callback, if there is one, returns normally whatever it is given. *)
Definition returns_normally (onChunk : option (jsstring -> M unit)) : Prop :=
  forall f, onChunk = Some f ->
  forall chunk w, exists w', f chunk w = (Normal tt, w').

(** The callback, if there is one, does none of the operations that the log
    records: no request, no read of the stream, no dialog, no output on the
    console. *)
Definition logs_nothing (onChunk : option (jsstring -> M unit)) : Prop :=
  forall f, onChunk = Some f ->
  forall chunk w, log (snd (f chunk w)) = log w.

(** What the reader logs for a stream that delivers the given texts and
    then ends. *)
Definition reads (with_callback : bool) (texts : list jsstring) : list event :=
  flat_map (fun chunk =>
              ReaderRead :: if with_callback then [OnChunk chunk] else []) texts
  ++ [ReaderRead].

Definition provided {A} (o : option A) : bool :=
  match o with Some _ => true | None => false end.

(** The value can be converted to a string, and with that to a Number. *)
Definition converts {rt : Runtime} (v : value) : bool :=
  match ToString v with
  | Normal _ => true
  | Throw _ => false
  end.

(** The complaint can be shown on the result card: its id, its category,
    its confidence and its analysis can be converted to text. *)
Definition displayable {rt : Runtime} (cprops : list (jsstring * value)) : bool :=
  converts (own_property (js "id") cprops)
  && converts (js_or (own_property (js "category_display") cprops)
                 (own_property (js "predicted_category") cprops))
  && converts (own_property (js "prediction_confidence") cprops)
  && converts (js_or (own_property (js "analysis") cprops)
                 (VStr (js "No analysis available."))).

(** The three tiers of [getConfidenceColor]. *)
Definition green : jsstring := js "#10b981".
Definition amber : jsstring := js "#f59e0b".
Definition red : jsstring := js "#ef4444".

Set Warnings "-inexact-float".
Definition lit_0_85 : number := Eval vm_compute in Prim2SF 0.85%float.
Definition lit_0_65 : number := Eval vm_compute in Prim2SF 0.65%float.
Definition lit_0_4 : number := Eval vm_compute in Prim2SF 0.4%float.
Set Warnings "inexact-float".

(** The page has the elements with the given ids. *)
Definition has_elements (ids : list string) (w : world) : Prop :=
  Forall (fun id => document w id <> None) ids.

(** The [value] of a form control of the page. *)
Definition control_value (w : world) (id : string) : option jsstring :=
  option_map input_value (document w id).

(** The [style.display] of an element of the page. *)
Definition display_of (w : world) (id : string) : option jsstring :=
  option_map display (document w id).

Definition form_controls : list string :=
  [ "customerName"; "customerEmail"; "customerPhone"; "licensePlate";
    "carMake"; "carModel"; "carYear"; "carMileage"; "complaintText";
    "crash"; "fire" ]%string.

(** The object [handleComplaintSubmit] makes of the contents of the form. *)
Definition form_object (name email phone plate make model year mileage text : jsstring)
    (crash fire : bool) : value :=
  VObj
    [ (js "customer_name", VStr name);
      (js "customer_email", VStr email);
      (js "customer_phone", VStr phone);
      (js "license_plate", VStr plate);
      (js "car_make", VStr make);
      (js "car_model", VStr model);
      (js "car_year", js_or (VNum (parseInt year)) VUndefined);
      (js "car_mileage", js_or (VNum (parseInt mileage)) (VNum (S754_zero false)));
      (js "complaint_text", VStr text);
      (js "crash", VBool crash);
      (js "fire", VBool fire) ].

(** The request [submitComplaint] makes. *)
Definition submit_request (formData : value) : request :=
  mkRequest (Some (js "POST")) content_type_json (Some formData).

(** The alerts of a log. *)
Fixpoint alerts (l : list event) : list jsstring :=
  match l with
  | [] => []
  | Alert message :: rest => message :: alerts rest
  | _ :: rest => alerts rest
  end.

(** The requests of a log. *)
Fixpoint requests (l : list event) : list (jsstring * request) :=
  match l with
  | [] => []
  | Fetch url init :: rest => (url, init) :: requests rest
  | _ :: rest => requests rest
  end.

(** A computation that makes no request, whether it returns or throws. *)
Definition no_request {A} (c : M A) : Prop :=
  forall w, requests (log (snd (c w))) = requests (log w)
            /\ fetched (snd (c w)) = fetched w.

(** A computation that only reads: it leaves the world as it found it,
    whether it returns or throws. *)
Definition reads_only {A} (c : M A) : Prop := forall w, snd (c w) = w.

(** A computation that has changed nothing when it throws, and has done
    nothing but assign a text to the [innerHTML] of the element with the
    given id when it returns. *)
Definition renders_at_once (id : string) {A} (c : M A) : Prop :=
  forall w,
    match c w with
    | (Throw _, w') => w' = w
    | (Normal _, w') =>
        exists html,
          w' = set_document
                 (update_element id (with_inner (InnerHTML (VStr html))) (document w)) w
    end.

(** A computation that leaves the element with the given id as it was. *)
Definition keeps_element (id : string) {A} (c : M A) : Prop :=
  forall w, document (snd (c w)) id = document w id.

(** The errors written to the console in a log. *)
Fixpoint console_errors (l : list event) : list js_error :=
  match l with
  | [] => []
  | ConsoleError _ e :: rest => e :: console_errors rest
  | _ :: rest => console_errors rest
  end.

(** The characters that stand for themselves in a component of a URL, and
    the percent sign that starts an escape. *)
Definition url_safe (u : code_unit) : bool := unreserved u || N.eqb u 37.

(** A code unit has 16 bits. *)
Definition is_code_unit (u : code_unit) : Prop := (u < 65536)%N.

(** The [innerHTML] or [textContent] of an element of the page. *)
Definition inner_of (w : world) (id : string) : option content :=
  option_map inner (document w id).

(** The card [displaySearchResults] shows for a car without complaints. *)
Definition no_complaints_card : content :=
  InnerHTML (VStr
    (jsq "<div class=`search-card`><p>No complaints found for this vehicle.</p></div>")).

(** A text of one line without asterisks: no rule of [renderMarkdown] but
    the two for the start of a line can apply to it. *)
Definition plain_text (s : jsstring) : bool :=
  forallb (fun c => negb (N.eqb c 42) && negb (is_line_terminator c)) s.

(** A text without a line terminator. *)
Definition single_line (s : jsstring) : bool :=
  forallb (fun c => negb (is_line_terminator c)) s.

(** The text starts with the character of a heading or of a list item. *)
Definition starts_a_rule (s : jsstring) : bool :=
  match s with
  | c :: _ => N.eqb c 35 || N.eqb c 45
  | [] => false
  end.

(** The shape of the two patterns that rewrite a line: [/^prefix(.+)$/gm]. *)
Definition line_rule (prefix : jsstring) : RegExp.regexp :=
  RegExp.mkRegExp
    ([RegExp.Bol] ++ RegExp.chars prefix
       ++ [RegExp.Group 1 [RegExp.Plus RegExp.Dot true]; RegExp.Eol])
    true true.

(** ** The matcher, run on two texts *)

(** The atom [a] takes the next character of the text. *)
Definition taken (a : RegExp.atom) (p : RegExp.position) : option RegExp.position :=
  match RegExp.after p with
  | c :: right' =>
      if RegExp.atom_matches a c
      then Some (RegExp.mkPosition (c :: RegExp.before p) right' (RegExp.captures p))
      else None
  | [] => None
  end.

(** Two outcomes agree: both fail, or both succeed with related results. *)
Definition both {A : Type} (R : A -> A -> Prop) (x y : option A) : Prop :=
  match x, y with
  | Some a, Some b => R a b
  | None, None => True
  | _, _ => False
  end.

Definition respects (R : RegExp.position -> RegExp.position -> Prop)
    (k k' : RegExp.continuation) : Prop :=
  forall p p', R p p' -> both R (k p) (k' p').

(** The position [q] with the text read since [p] as capture [i]. *)
Definition captured (i : nat) (p q : RegExp.position) : RegExp.position :=
  RegExp.mkPosition (RegExp.before q) (RegExp.after q)
    ((i, RegExp.text_between p q) :: RegExp.captures q).

(** What a term of a pattern needs of a relation between positions to keep
    two runs of the matcher related. *)
Fixpoint term_respects (m : bool)
    (R : RegExp.position -> RegExp.position -> Prop) (t : RegExp.term) : Prop :=
  match t with
  | RegExp.One a | RegExp.Star a _ | RegExp.Plus a _ =>
      forall p p', R p p' -> both R (taken a p) (taken a p')
  | RegExp.Group i body =>
      (fix all (ts : list RegExp.term) : Prop :=
         match ts with
         | [] => True
         | t' :: ts' => term_respects m R t' /\ all ts'
         end) body
      /\ forall p p' q q', R p p' -> R q q' -> R (captured i p q) (captured i p' q')
  | RegExp.Bol =>
      forall p p', R p p' -> RegExp.at_line_start m p = RegExp.at_line_start m p'
  | RegExp.Eol =>
      forall p p', R p p' -> RegExp.at_line_end m p = RegExp.at_line_end m p'
  end.

(** The second run has [tail] after the text of the first, which started
    with [left] before it and [right] after it. *)
Definition extended (left right tail : jsstring) (p p' : RegExp.position) : Prop :=
  p' = RegExp.mkPosition (RegExp.before p) (RegExp.after p ++ tail) (RegExp.captures p)
  /\ exists x, RegExp.before p = rev x ++ left /\ right = x ++ RegExp.after p.

(** The two runs started with [left] and with [left'] before the text. *)
Definition rebased (left left' : jsstring) (p p' : RegExp.position) : Prop :=
  exists x,
    RegExp.before p = x ++ left /\ RegExp.before p' = x ++ left'
    /\ RegExp.after p = RegExp.after p' /\ RegExp.captures p = RegExp.captures p'.

(** The two texts look the same to [^]. *)
Definition start_like (m : bool) (left left' : jsstring) : Prop :=
  RegExp.at_line_start m (RegExp.mkPosition left [] [])
  = RegExp.at_line_start m (RegExp.mkPosition left' [] []).

(** The markup [replace] puts for one character of the text with the
    pattern [/\n/g]. *)
Definition line_break (template : jsstring) (c : code_unit) : jsstring :=
  if N.eqb c 10 then RegExp.substitution 0 [c] [] template else [c].

(** ** The chat *)

(** The category of a complaint as the page shows it:
    [category_display || predicted_category]. *)
Definition category_of (complaint : value) : value :=
  match complaint with
  | VObj props =>
      js_or (own_property (js "category_display") props)
        (own_property (js "predicted_category") props)
  | _ => VUndefined
  end.

(** The request [createChatSession] makes for a complaint. *)
Definition session_request (complaintId : value) : request :=
  mkRequest (Some (js "POST")) content_type_json
    (Some (VObj [(js "complaint_id", complaintId)])).

(** The numbers of the message elements on the page are below the number
    of the next element to be created: a new element is none of them. *)
Definition numbered (s : chat) : Prop :=
  Forall (fun m => fst m < created s) (messages s).

(** The view is scrolled to the end of the messages. *)
Definition at_bottom (s : chat) : Prop := scrolled s = messages s.

(** A stream that [sendChatMessage] turns into a failure: [fetch] rejects,
    the status is outside 200-299, there is no body to read, or a read of
    the stream rejects. *)
Definition stream_fails (o : completion response) : bool :=
  match o with
  | Throw _ => true
  | Normal r =>
      negb (ok r)
      || match stream r with
         | Some s => provided (failure s)
         | None => true
         end
  end.

(** The message [sendMessage] shows for what the user typed. *)
Definition user_message (text : jsstring) : message_element :=
  mkMessage (js "message user") (js "You") (TextContent (VStr text)).

(** The message [sendMessage] shows for the answer. *)
Definition assistant_message (html : jsstring) : message_element :=
  mkMessage (js "message assistant") (js "AI Mechanic") (InnerHTML (VStr html)).

(** The message [sendMessage] shows when the answer did not come. *)
Definition error_message_shown : message_element :=
  mkMessage (js "message system") (js "AI Mechanic")
    (TextContent (VStr (js "Error: Could not get response from AI mechanic."))).

(** The message [appendMessage] shows for a role and a text, when it shows
    one: the role has to convert to a string; the text of the assistant has
    to be a string, and any other text has to convert to one. *)
Definition shown {rt : Runtime} (role text : value) : option message_element :=
  match ToString role with
  | Throw _ => None
  | Normal role' =>
      if is_string role (js "assistant") then
        match text with
        | VStr t => Some (assistant_message (renderMarkdown t))
        | _ => None
        end
      else
        match ToString text with
        | Throw _ => None
        | Normal _ =>
            Some (mkMessage (js "message " ++ role')
                    (if is_string role (js "user") then js "You" else js "AI Mechanic")
                    (TextContent text))
        end
  end.

(** The message shown for a message of a stored session, an object with a
    [role] and a [message]. *)
Definition message_shown {rt : Runtime} (message : value) : option message_element :=
  match message with
  | VObj props => shown (own_property (js "role") props) (own_property (js "message") props)
  | _ => None
  end.

(** The chat after a message was added to the page and scrolled to. *)
Definition appended (m : message_element) (s : chat) : chat :=
  mkChat (base s) (messages s ++ [(created s, m)]) (S (created s))
    (messages s ++ [(created s, m)]) (in_view s) (fullResponse s).

(** The world [w'] has the globals, the dialogs and the page of [w], but
    for the content of the element with the given id. *)
Definition same_page_but (id : string) (w w' : world) : Prop :=
  currentComplaint w' = currentComplaint w /\
  currentChatSession w' = currentChatSession w /\
  currentCar w' = currentCar w /\
  alerts (log w') = alerts (log w) /\
  (forall id', id' <> id -> document w' id' = document w id') /\
  (document w' id = None <-> document w id = None).

(** A computation on the chat that neither reads nor writes which section
    is in view. *)
Definition ignores_view {A} (c : V A) : Prop :=
  forall v s, c (set_in_view v s) = (fst (c s), set_in_view v (snd (c s))).

(** A computation on the chat that changes nothing but the messages: in
    the world, the content of [chatMessages] at most. *)
Definition only_messages {A} (c : V A) : Prop :=
  forall s,
    same_page_but "chatMessages" (base s) (base (snd (c s))) /\
    in_view (snd (c s)) = in_view s.

(** A callback on the world, as a callback on the chat. *)
Definition lifted (onChunk : option (jsstring -> M unit)) : option (jsstring -> V unit) :=
  option_map (fun f chunk => on_world (f chunk)) onChunk.

(** The chat when [sendMessage] is about to make its request: the input
    is empty, and the message of the user and an empty message of the
    assistant are on the page. *)
Definition sending (text : jsstring) (s : chat) : chat :=
  set_fullResponse []
    (appended (assistant_message (renderMarkdown []))
       (appended (user_message text)
          (set_base
             (set_document
                (update_element "messageInput" (with_value []) (document (base s)))
                (base s)) s))).

(** What stays as it is while an answer streams into the message with the
    given number: the page, the globals, the dialogs and the requests of
    the world, and every other message. *)
Definition during_stream (aiMessageDiv : nat) (s s' : chat) : Prop :=
  document (base s') = document (base s) /\
  currentChatSession (base s') = currentChatSession (base s) /\
  alerts (log (base s')) = alerts (log (base s)) /\
  requests (log (base s')) = requests (log (base s)) /\
  fetched (base s') = fetched (base s) /\
  created s' = created s /\
  in_view s' = in_view s /\
  without aiMessageDiv (messages s') = without aiMessageDiv (messages s).

(* ================================================================== *)
(** * Properties *)
(* ================================================================== *)

Arguments js : simpl never.
Arguments jsq : simpl never.
Arguments apiRequest : simpl never.
Arguments requested : simpl never.
Unset Implicit Arguments.

Section Properties.
Context {rt : Runtime}.

(** ** Computations *)

Lemma bind_Normal {A B} (c : M A) (k : A -> M B) w a w' :
  c w = (Normal a, w') -> bind c k w = k a w'.
Proof. intros H. unfold bind. now rewrite H. Qed.

(** ** [apiRequest] in closed form *)

Lemma apiRequest_eq url opts w :
  apiRequest url opts w =
    (Normal (settled (network w (fetched w))),
     requested url (finalOptions (options_or_default opts)) w).
Proof.
  unfold apiRequest, requested, settled, rejection, try_catch, bind, fetch, lift,
    console_error, emit, write, throw, ret, options_or_default.
  destruct (network w (fetched w)) as [r | e]; [ | reflexivity ].
  destruct (json r) as [data | e]; [ | reflexivity ].
  destruct (ok r); cbn; [ reflexivity | ].
  destruct (get data (js "message")) as [ message | e ]; [ | reflexivity ].
  unfold thrown. now destruct (new_Error _).
Qed.

Lemma document_requested url init w :
  document (requested url init w) = document w.
Proof. unfold requested. now destruct (rejection _). Qed.

(** The callers of [apiRequest] that build their address from an id, once
    the address is built. *)
Lemma getCarComplaintHistory_eq carId url w :
  cars_history carId = Normal url ->
  getCarComplaintHistory carId w =
    (Normal (settled (network w (fetched w))), requested url plain_request w).
Proof.
  intros H. unfold getCarComplaintHistory, bind, lift. rewrite H.
  apply apiRequest_eq.
Qed.

Lemma getChatSession_eq sessionId url w :
  chat_sessionDetail sessionId = Normal url ->
  getChatSession sessionId w =
    (Normal (settled (network w (fetched w))), requested url plain_request w).
Proof.
  intros H. unfold getChatSession, bind, lift. rewrite H.
  apply apiRequest_eq.
Qed.

Lemma closeChatSession_eq sessionId url w :
  chat_closeSession sessionId = Normal url ->
  closeChatSession sessionId w =
    (Normal (settled (network w (fetched w))),
     requested url (mkRequest (Some (js "POST")) content_type_json None) w).
Proof.
  intros H. unfold closeChatSession, bind, lift. rewrite H.
  apply apiRequest_eq.
Qed.

(** An id that cannot be converted: the caller throws before its request. *)
Lemma closeChatSession_throws sessionId e w :
  chat_closeSession sessionId = Throw e ->
  closeChatSession sessionId w = (Throw e, w).
Proof. intros H. unfold closeChatSession, bind, lift. now rewrite H. Qed.

Lemma alerts_app l l' : alerts (l ++ l') = alerts l ++ alerts l'.
Proof.
  induction l as [ | e l IH ]; [ reflexivity | ].
  destruct e; cbn; rewrite ?IH; reflexivity.
Qed.

Lemma requests_app l l' : requests (l ++ l') = requests l ++ requests l'.
Proof.
  induction l as [ | e l IH ]; [ reflexivity | ].
  destruct e; cbn; rewrite ?IH; reflexivity.
Qed.

(** C4.  Whatever its arguments and whatever the network does, [apiRequest]
    returns one of the two shapes of [result] and never throws: a rejected
    [fetch] and a rejected [response.json()] give the failure that carries
    the message of the error, a status in 200-299 with a parsed body gives
    the success that carries the body, and any other status gives a
    failure. *)
Theorem apiRequest_never_throws (url : jsstring) (opts : option options) (w : world) :
  (exists r w', apiRequest url opts w = (Normal r, w')) /\
  (forall e, network w (fetched w) = Throw e ->
     fst (apiRequest url opts w) = Normal (Failure (error_message e))) /\
  (forall r e, network w (fetched w) = Normal r -> json r = Throw e ->
     fst (apiRequest url opts w) = Normal (Failure (error_message e))) /\
  (forall r data, network w (fetched w) = Normal r -> json r = Normal data ->
     ok r = true ->
     fst (apiRequest url opts w) = Normal (Success data)) /\
  (forall r data, network w (fetched w) = Normal r -> json r = Normal data ->
     ok r = false ->
     exists error, fst (apiRequest url opts w) = Normal (Failure error)).
Proof.
  rewrite apiRequest_eq. cbn [fst]. unfold settled, rejection.
  repeat split.
  - eauto.
  - intros e ->. reflexivity.
  - intros r e -> ->. reflexivity.
  - intros r data -> -> ->. reflexivity.
  - intros r data -> -> ->.
    destruct (get data (js "message")); eauto.
Qed.

(** C3, as amended.  On a response whose status is outside 200-299 and
    whose parsed body is not [null], the error text of the failure is the
    [message] of the body when that is truthy, converted to a string (a
    non-empty string is itself), and ['API request failed'] when the body
    has no [message] or a falsy one.  A truthy message that cannot be
    converted to a string (an object with a member named [toString]) gives
    the message of the TypeError of the conversion. *)
Theorem apiRequest_error_text (url : jsstring) (opts : option options) (w : world)
    (r : response) (data message : value) :
  network w (fetched w) = Normal r ->
  ok r = false ->
  json r = Normal data ->
  get data (js "message") = Normal message ->
  fst (apiRequest url opts w) =
    Normal (Failure (if truthy message
                     then match ToString message with
                          | Normal text => text
                          | Throw e => error_message e
                          end
                     else js "API request failed"))
  /\ (forall s, message = VStr s -> s <> [] ->
        fst (apiRequest url opts w) = Normal (Failure s))
  /\ (message = VUndefined ->
        fst (apiRequest url opts w) = Normal (Failure (js "API request failed")))
  /\ (forall props, message = VObj props -> has_own (js "toString") props = true ->
        fst (apiRequest url opts w) = Normal (Failure TypeError_primitive)).
Proof.
  intros Hnet Hok Hjson Hget.
  rewrite apiRequest_eq. cbn [fst].
  unfold settled, rejection. rewrite Hnet, Hjson, Hok, Hget.
  unfold js_or, new_Error, thrown, and_then.
  split; [ | split; [ | split ] ].
  - destruct (truthy message) eqn:T; [ | reflexivity ].
    destruct message; try discriminate T;
      try (destruct (ToString _); reflexivity); reflexivity.
  - intros s -> Hs. destruct s; [ contradiction | reflexivity ].
  - intros ->. reflexivity.
  - intros props -> Hown. cbn [truthy ToString]. now rewrite Hown.
Qed.

(** ** The streaming reader *)



(** The loop on a stream that ends: the text is the concatenation of the
    decoded chunks, and each chunk is read, then handed to the callback. *)
Lemma read_chunks_done onChunk chunks :
  returns_normally onChunk ->
  forall d fullResponse w,
  exists w',
    read_chunks onChunk chunks None d fullResponse w =
      (Normal (fullResponse ++ List.concat (decoded d chunks)), w')
    /\ (logs_nothing onChunk ->
        log w' = log w ++ reads (provided onChunk) (decoded d chunks)).
Proof.
  intros Q. induction chunks as [ | value rest IH ]; intros d fullResponse w.
  - cbn. eexists. split; [ now rewrite app_nil_r | reflexivity ].
  - cbn [read_chunks decoded].
    destruct (TextDecoder.decode d value) as [d' chunk].
    unfold bind at 1, emit at 1, write at 1.
    destruct onChunk as [ f | ].
    + destruct (Q f eq_refl chunk (add_event (OnChunk chunk) (add_event ReaderRead w)))
        as (w1 & Hf).
      unfold bind at 1. unfold bind at 1, emit at 1, write at 1. rewrite Hf.
      destruct (IH d' (fullResponse ++ chunk) w1) as (w' & Hrun & Hlog).
      rewrite Hrun. eexists. split.
      * cbn [List.concat]. now rewrite app_assoc.
      * intros K. rewrite (Hlog K).
        specialize (K f eq_refl chunk (add_event (OnChunk chunk) (add_event ReaderRead w))).
        rewrite Hf in K. cbn [snd] in K. rewrite K.
        cbn. unfold reads. cbn. now rewrite <- !app_assoc.
    + unfold bind at 1, ret at 1.
      destruct (IH d' (fullResponse ++ chunk) (add_event ReaderRead w))
        as (w' & Hrun & Hlog).
      rewrite Hrun. eexists. split.
      * cbn [List.concat]. now rewrite app_assoc.
      * intros K. rewrite (Hlog K). cbn. unfold reads. cbn.
        now rewrite <- !app_assoc.
Qed.



(** [sendChatMessage] once the address is built and the response is there
    and successful: the result is what the loop makes of the stream. *)
Lemma sendChatMessage_reads sessionId message onChunk w url r s :
  chat_sendMessage sessionId = Normal url ->
  network w (fetched w) = Normal r ->
  ok r = true ->
  stream r = Some s ->
  sendChatMessage sessionId message onChunk w =
    match
      read_chunks onChunk (chunks s) (failure s) TextDecoder.fresh []
        (count_fetch (add_event (Fetch url (message_request message)) w))
    with
    | (Normal text, w') => (Normal (Success (ai_response text)), w')
    | (Throw e, w') =>
        (Normal (Failure (error_message e)),
         add_event (ConsoleError (js "API Error:") e) w')
    end.
Proof.
  intros Hurl Hnet Hok Hstream.
  unfold sendChatMessage. unfold bind at 1, lift at 1. rewrite Hurl.
  unfold try_catch. fold (message_request message).
  unfold bind at 1, fetch at 1. rewrite Hnet.
  unfold bind at 1. rewrite Hok. cbn [negb]. unfold ret at 1.
  unfold bind at 1. rewrite Hstream. unfold ret at 1.
  unfold bind at 1.
  destruct (read_chunks _ _ _ _ _ _) as [ [ text | e ] w' ]; reflexivity.
Qed.



(** ** Comparison of Numbers *)

Lemma SFcompare_swap (x y : number) :
  SFcompare y x = option_map CompOpp (SFcompare x y).
Proof.
  destruct x as [ [ | ] | [ | ] | | [ | ] mx ex ], y as [ [ | ] | [ | ] | | [ | ] my ey ];
    try reflexivity; cbn;
    rewrite (Z.compare_antisym ex ey);
    destruct (Z.compare ex ey); cbn; try reflexivity;
    rewrite (Pos.compare_cont_antisym mx my Eq); cbn;
    now rewrite ?CompOpp_involutive.
Qed.

Lemma number_lt_not_ge (a b : number) :
  number_lt a b = true -> number_ge a b = false.
Proof.
  unfold number_lt, number_ge, SFltb, SFleb.
  rewrite (SFcompare_swap a b).
  destruct (SFcompare a b) as [ [ | | ] | ]; cbn; congruence.
Qed.

Lemma compare_cont_below (m k k' : positive) :
  (k < k')%positive ->
  Pos.compare_cont Eq m k = Lt -> Pos.compare_cont Eq m k' = Lt.
Proof.
  intros Hk H. exact (Pos.lt_trans m k k' H Hk).
Qed.

Lemma below_0_6_below_0_8 (c : number) :
  number_lt c lit_0_6 = true -> number_lt c lit_0_8 = true.
Proof.
  unfold number_lt, SFltb, lit_0_6, lit_0_8.
  destruct c as [ [ | ] | [ | ] | | [ | ] m e ];
    cbn -[Pos.compare_cont Z.compare]; try congruence.
  destruct (Z.compare e (-53)); try congruence.
  destruct (Pos.compare_cont Eq m 5404319552844595) eqn:H; try congruence.
  intros _.
  now rewrite (compare_cont_below m 5404319552844595 7205759403792794 eq_refl H).
Qed.

(** C7.  [getConfidenceColor] on a Number [c]: green when [c >= 0.8],
    amber when [0.6 <= c < 0.8], red when [c < 0.6]; the two thresholds
    themselves fall in the upper tier, 0.8 in green and 0.6 in amber. *)
Theorem getConfidenceColor_tiers (c : number) :
  (number_ge c lit_0_8 = true -> getConfidenceColor (VNum c) = Normal green) /\
  (number_ge c lit_0_6 = true -> number_lt c lit_0_8 = true ->
     getConfidenceColor (VNum c) = Normal amber) /\
  (number_lt c lit_0_6 = true -> getConfidenceColor (VNum c) = Normal red) /\
  getConfidenceColor (VNum lit_0_8) = Normal green /\
  getConfidenceColor (VNum lit_0_6) = Normal amber /\
  getConfidenceColor (VNum lit_0_85) = Normal green /\
  getConfidenceColor (VNum lit_0_65) = Normal amber /\
  getConfidenceColor (VNum lit_0_4) = Normal red.
Proof.
  unfold getConfidenceColor. cbn [ToNumber and_then].
  repeat split; try reflexivity.
  - intros ->. reflexivity.
  - intros H6 H8. now rewrite (number_lt_not_ge _ _ H8), H6.
  - intros H6.
    rewrite (number_lt_not_ge _ _ (below_0_6_below_0_8 _ H6)).
    now rewrite (number_lt_not_ge _ _ H6).
Qed.

(** ** The page script *)

Lemma has_elements_cons id ids w :
  has_elements (id :: ids) w ->
  (exists e, document w id = Some e) /\ has_elements ids w.
Proof.
  intros H. inversion H as [ | ? ? Hid Hids ]; subst. split; [ | exact Hids ].
  destruct (document w id) as [ e | ]; [ eauto | contradiction ].
Qed.

Lemma get_truthy (v : value) (p : jsstring) :
  truthy v = true -> exists a, get v p = Normal a.
Proof. destruct v; cbn; intros H; try discriminate H; eauto. Qed.

(** Unfolds the primitive computations of a function of the script. *)
Ltac primitives :=
  unfold bind, read, write, confirm, alert, emit, getElementById, property,
    assign, lift, ret.

Lemma showLoading_eq show w spinner :
  document w "loadingSpinner" = Some spinner ->
  showLoading show w =
    (Normal tt,
     set_document
       (update_element "loadingSpinner"
          (with_display (if show then js "flex" else js "none")) (document w)) w).
Proof. intros H. unfold showLoading. primitives. now rewrite H. Qed.

(** C6, as amended.  When a chat session is stored whose id can be put
    into the address of the close request, and the user confirms,
    [closeChat] returns with the stored session reset to [null] and the
    chat panel hidden, whatever the network does with the close request. *)
Theorem closeChat_resets (w : world) (id : value) (url : jsstring) :
  truthy (currentChatSession w) = true ->
  get (currentChatSession w) (js "id") = Normal id ->
  chat_closeSession id = Normal url ->
  user w (asked w) = true ->
  has_elements ["loadingSpinner"; "chat"]%string w ->
  exists w',
    closeChat w = (Normal tt, w') /\
    currentChatSession w' = VNull /\
    display_of w' "chat" = Some (js "none").
Proof.
  intros Hsession Hid Hurl Hconfirm Hpage.
  apply has_elements_cons in Hpage as [ [spinner Hspinner] Hpage ].
  apply has_elements_cons in Hpage as [ [chat Hchat] _ ].
  unfold closeChat.
  unfold bind at 1, read at 1. rewrite Hsession. cbn [negb].
  unfold bind at 1, confirm at 1. rewrite Hconfirm. cbn [negb].
  erewrite (bind_Normal (showLoading true)); cycle 1.
  { apply showLoading_eq with (spinner := spinner). exact Hspinner. }
  unfold bind at 1, read at 1. cbn [currentChatSession set_document count_confirm add_event].
  unfold bind at 1, lift at 1. rewrite Hid.
  rewrite (bind_Normal _ _ _ _ _ (closeChatSession_eq _ _ _ Hurl)).
  erewrite (bind_Normal (showLoading false)); cycle 1.
  { apply showLoading_eq with (spinner := with_display (js "flex") spinner).
    rewrite document_requested. cbn. now rewrite Hspinner. }
  primitives. cbn. rewrite document_requested. cbn. rewrite Hchat. cbn.
  eexists. split; [ reflexivity | ]. split; [ reflexivity | ].
  unfold display_of. cbn. now rewrite Hchat.
Qed.

(** Names the elements that [has_elements] promises. *)
Ltac elements H :=
  repeat (let e := fresh "el" in
          let He := fresh "Hel" in
          apply has_elements_cons in H as [ [e He] H ]);
  clear H.

Ltac lookups :=
  repeat match goal with
         | H : document ?w ?id = Some _ |- context [document ?w ?id] =>
             rewrite H; cbn
         end.

(** The object [handleComplaintSubmit] builds from the form. *)
Lemma formData_eq (w : world) :
  has_elements form_controls w ->
  exists name email phone plate make model year mileage text crash fire,
    control_value w "customerEmail" = Some email /\
    control_value w "customerPhone" = Some phone /\
    control_value w "carYear" = Some year /\
    control_value w "carMileage" = Some mileage /\
    formData w =
      (Normal (form_object name email phone plate make model year mileage text
                 crash fire), w).
Proof.
  intros H. unfold form_controls in H. elements H.
  unfold formData, value_of, checked_of, control_value. primitives. cbn.
  lookups.
  repeat eexists.
Qed.

Lemma form_object_contact name email phone plate make model year mileage text crash fire :
  get (form_object name email phone plate make model year mileage text crash fire)
    (js "customer_email") = Normal (VStr email) /\
  get (form_object name email phone plate make model year mileage text crash fire)
    (js "customer_phone") = Normal (VStr phone).
Proof. split; reflexivity. Qed.

Lemma form_object_numbers name email phone plate make model year mileage text crash fire :
  get (form_object name email phone plate make model year mileage text crash fire)
    (js "car_year") = Normal (js_or (VNum (parseInt year)) VUndefined) /\
  get (form_object name email phone plate make model year mileage text crash fire)
    (js "car_mileage")
    = Normal (js_or (VNum (parseInt mileage)) (VNum (S754_zero false))).
Proof. split; reflexivity. Qed.

(** *** Computations that make no request *)

Lemma no_request_ret {A} (a : A) : no_request (ret a).
Proof. intros w. split; reflexivity. Qed.

Lemma no_request_throw {A} (e : js_error) : no_request (@throw A e).
Proof. intros w. split; reflexivity. Qed.

Lemma no_request_lift {A} (c : completion A) : no_request (lift c).
Proof. intros w. split; reflexivity. Qed.

Lemma no_request_bind {A B} (c : M A) (k : A -> M B) :
  no_request c -> (forall a, no_request (k a)) -> no_request (bind c k).
Proof.
  intros Hc Hk w. unfold bind. specialize (Hc w).
  destruct (c w) as [ [ a | e ] w' ]; cbn in *.
  - destruct (Hk a w') as [ R F ]. destruct Hc as [ R' F' ].
    now rewrite R, F.
  - exact Hc.
Qed.

Lemma no_request_getElementById id : no_request (getElementById id).
Proof. intros w. split; reflexivity. Qed.

Lemma no_request_assign p id el change : no_request (assign p id el change).
Proof. destruct el; intros w; split; reflexivity. Qed.

Lemma no_request_assign_content p id el c : no_request (assign_content p id el c).
Proof.
  destruct el; unfold assign_content; [ | apply no_request_throw ].
  apply no_request_bind; [ apply no_request_lift | intros _; apply no_request_assign ].
Qed.

Lemma no_request_write_complaint v : no_request (write (set_currentComplaint v)).
Proof. intros w. split; reflexivity. Qed.

Lemma no_request_write_car v : no_request (write (set_currentCar v)).
Proof. intros w. split; reflexivity. Qed.

Lemma no_request_alert message : no_request (alert message).
Proof.
  intros w. cbn. rewrite requests_app. cbn. now rewrite app_nil_r.
Qed.

Lemma no_request_setTimeout task delay : no_request (emit (SetTimeout task delay)).
Proof.
  intros w. cbn. rewrite requests_app. cbn. now rewrite app_nil_r.
Qed.

Lemma no_request_if {A} (b : bool) (c c' : M A) :
  no_request c -> no_request c' -> no_request (if b then c else c').
Proof. now destruct b. Qed.

Ltac no_request :=
  repeat first
    [ apply no_request_ret | apply no_request_throw | apply no_request_lift
    | apply no_request_getElementById | apply no_request_assign
    | apply no_request_assign_content
    | apply no_request_write_complaint | apply no_request_write_car
    | apply no_request_alert | apply no_request_setTimeout
    | apply no_request_bind; [ | intros ? ]
    | apply no_request_if
    | match goal with
      | |- no_request (match ?x with _ => _ end) => destruct x
      end ].

Lemma no_request_showLoading show : no_request (showLoading show).
Proof. unfold showLoading. no_request. Qed.

Lemma requests_requested url init w :
  requests (log (requested url init w)) = requests (log w) ++ [(url, init)].
Proof.
  unfold requested. destruct (rejection _); cbn;
    rewrite !requests_app; cbn; now rewrite ?app_nil_r.
Qed.

(** C8.  On a page that has the controls of the complaint form:
    [handleComplaintSubmit] with the email and the phone both empty shows
    the validation message and makes no request; it makes a request only
    when the email or the phone is not empty. *)
Theorem handleComplaintSubmit_requires_contact (w : world) :
  has_elements form_controls w ->
  (control_value w "customerEmail" = Some [] ->
   control_value w "customerPhone" = Some [] ->
   exists w',
     handleComplaintSubmit w = (Normal tt, w') /\
     log w' =
       log w ++ [ PreventDefault;
                  Alert (js "Please provide at least an email or phone number.") ] /\
     fetched w' = fetched w) /\
  (requests (log (snd (handleComplaintSubmit w))) <> requests (log w) ->
   exists email phone,
     control_value w "customerEmail" = Some email /\
     control_value w "customerPhone" = Some phone /\
     (email <> [] \/ phone <> [])).
Proof.
  intros Hpage.
  destruct (formData_eq (add_event PreventDefault w) Hpage)
    as (name & email & phone & plate & make & model & year & mileage & text
        & crash & fire & Hemail & Hphone & _ & _ & Hform).
  change (control_value (add_event PreventDefault w))
    with (control_value w) in Hemail, Hphone.
  destruct (form_object_contact name email phone plate make model year mileage
              text crash fire) as [ Ge Gp ].
  assert (Empty : email = [] -> phone = [] ->
    handleComplaintSubmit w =
      (Normal tt,
       add_event (Alert (js "Please provide at least an email or phone number."))
         (add_event PreventDefault w))).
  { intros -> ->. unfold handleComplaintSubmit.
    unfold bind at 1, emit at 1, write at 1.
    rewrite (bind_Normal _ _ _ _ _ Hform).
    unfold bind at 1, lift at 1. rewrite Ge.
    unfold bind at 1, lift at 1. rewrite Gp. reflexivity. }
  split.
  - intros He Hp. rewrite Hemail in He. rewrite Hphone in Hp.
    injection He as ->. injection Hp as ->.
    rewrite (Empty eq_refl eq_refl). eexists. split; [ reflexivity | ].
    split; [ | reflexivity ]. cbn. now rewrite <- app_assoc.
  - intros Hrequest. exists email, phone. repeat split; try assumption.
    destruct email as [ | c email ]; [ | left; discriminate ].
    destruct phone as [ | c phone ]; [ | right; discriminate ].
    exfalso. apply Hrequest. rewrite (Empty eq_refl eq_refl). cbn.
    rewrite !requests_app. cbn. now rewrite !app_nil_r.
Qed.

(** C9, as amended.  On a page that has the form and the spinner, and with
    an email or a phone so that the form is submitted, the object sent to
    the server has these numeric fields.  [car_year] is the Number
    [parseInt] reads in the year field when that is neither NaN nor zero,
    and is unset otherwise: when the text does not parse and also when it
    parses to zero.  [car_mileage] is the Number read in the mileage field
    when that is neither NaN nor zero, and zero otherwise. *)
Theorem handleComplaintSubmit_numbers (w : world) (year mileage : jsstring) :
  has_elements form_controls w ->
  has_elements ["loadingSpinner"]%string w ->
  control_value w "carYear" = Some year ->
  control_value w "carMileage" = Some mileage ->
  control_value w "customerEmail" <> Some [] \/
  control_value w "customerPhone" <> Some [] ->
  exists formData,
    requests (log (snd (handleComplaintSubmit w))) =
      requests (log w) ++ [(complaints_quickSubmit, submit_request formData)] /\
    get formData (js "car_year") =
      Normal (if number_truthy (parseInt year) then VNum (parseInt year)
              else VUndefined) /\
    get formData (js "car_mileage") =
      Normal (if number_truthy (parseInt mileage) then VNum (parseInt mileage)
              else VNum (S754_zero false)) /\
    (parseInt year = NaN -> get formData (js "car_year") = Normal VUndefined) /\
    (parseInt mileage = NaN ->
       get formData (js "car_mileage") = Normal (VNum (S754_zero false))).
Proof.
  intros Hpage Hspinner Hyear Hmileage Hcontact.
  destruct (formData_eq (add_event PreventDefault w) Hpage)
    as (name & email & phone & plate & make & model & year' & mileage' & text
        & crash & fire & Hemail & Hphone & Hyear' & Hmileage' & Hform).
  change (control_value (add_event PreventDefault w))
    with (control_value w) in Hemail, Hphone, Hyear', Hmileage'.
  rewrite Hyear in Hyear'. injection Hyear' as <-.
  rewrite Hmileage in Hmileage'. injection Hmileage' as <-.
  destruct (form_object_contact name email phone plate make model year mileage
              text crash fire) as [ Ge Gp ].
  elements Hspinner.
  exists (form_object name email phone plate make model year mileage text crash fire).
  split.
  - unfold handleComplaintSubmit.
    unfold bind at 1, emit at 1, write at 1.
    rewrite (bind_Normal _ _ _ _ _ Hform).
    unfold bind at 1, lift at 1. rewrite Ge.
    unfold bind at 1, lift at 1. rewrite Gp.
    assert (T : negb (truthy (VStr email)) && negb (truthy (VStr phone)) = false).
    { rewrite Hemail, Hphone in Hcontact.
      destruct email, phone; cbn; try reflexivity.
      destruct Hcontact as [ C | C ]; now elim C. }
    rewrite T.
    rewrite (bind_Normal _ _ _ _ _
               (showLoading_eq true (add_event PreventDefault w) el Hel)).
    unfold submitComplaint.
    rewrite (bind_Normal _ _ _ _ _ (apiRequest_eq _ _ _)).
    match goal with
    | |- requests (log (snd (?rest ?w'))) = _ =>
        assert (R : no_request rest); [ | destruct (R w') as [ -> _ ] ]
    end.
    { apply no_request_bind; [ apply no_request_showLoading | intros _ ].
      destruct (settled _); [ | apply no_request_alert ].
      no_request. }
    rewrite requests_requested. cbn. rewrite !requests_app. cbn.
    now rewrite !app_nil_r.
  - destruct (form_object_numbers name email phone plate make model year mileage
                text crash fire) as [ -> -> ].
    unfold js_or. cbn [truthy].
    repeat split; try reflexivity; intros N; now rewrite N.
Qed.

Lemma fails_rejection (o : completion response) :
  fails o = true <-> exists e, rejection o = Some e.
Proof.
  unfold fails, rejection. destruct o as [ r | e ]; [ | split; eauto ].
  destruct (json r) as [ data | e ]; [ | split; eauto ].
  destruct (ok r); cbn.
  - split; [ discriminate | intros [ e H ]; discriminate H ].
  - split; [ intros _ | reflexivity ].
    destruct (get data (js "message")); eauto.
Qed.

(** [apiRequest] returns a failure exactly on the requests that [fails]
    describes. *)
Lemma apiRequest_fails url opts w :
  fails (network w (fetched w)) = negb (success (settled (network w (fetched w))))
  /\ fst (apiRequest url opts w) = Normal (settled (network w (fetched w))).
Proof.
  rewrite apiRequest_eq. split; [ | reflexivity ].
  unfold fails, settled, rejection.
  destruct (network w (fetched w)) as [ r | e ]; [ | reflexivity ].
  destruct (json r) as [ data | e ]; [ | reflexivity ].
  destruct (ok r); cbn; [ reflexivity | ].
  destruct (get data (js "message")); reflexivity.
Qed.

(** C10.  [searchVehicle], when the lookup of the plate succeeds and the
    call for the history of the car returns a failure (its address was
    built from the id of the car, and its request fails), returns without
    rendering anything and without telling the user: the results area is
    as it was, no alert is shown, and all that is left is the error in the
    console. *)
Theorem searchVehicle_swallows_history_failure (w : world)
    (text plate url : jsstring) (r : response) (car id : value) :
  has_elements ["searchPlate"; "loadingSpinner"]%string w ->
  control_value w "searchPlate" = Some text ->
  trim text <> [] ->
  encodeURIComponent (trim text) = Some plate ->
  network w (fetched w) = Normal r ->
  ok r = true ->
  json r = Normal car ->
  get car (js "id") = Normal id ->
  cars_history id = Normal url ->
  fails (network w (S (fetched w))) = true ->
  exists w' e,
    searchVehicle w = (Normal tt, w') /\
    document w' "searchResults" = document w "searchResults" /\
    alerts (log w') = alerts (log w) /\
    log w' =
      log w ++ [ Fetch (cars_byPlate ++ js "?plate=" ++ plate) plain_request;
                 Fetch url plain_request;
                 ConsoleError (js "API Error:") e ].
Proof.
  intros Hpage Htext Hplate Hencode Hnet Hok Hjson Hid Hurl Hfails.
  elements Hpage. rename el into box, Hel into Hbox, el0 into spinner, Hel0 into Hspinner.
  unfold control_value in Htext. rewrite Hbox in Htext. injection Htext as Htext.
  apply fails_rejection in Hfails as [ e He ].
  unfold searchVehicle, value_of.
  unfold bind at 1. unfold bind at 1, getElementById at 1. rewrite Hbox.
  unfold property at 1, ret at 1. rewrite Htext.
  assert (T : negb (truthy (VStr (trim text))) = false).
  { destruct (trim text); [ now elim Hplate | reflexivity ]. }
  rewrite T.
  rewrite (bind_Normal _ _ _ _ _ (showLoading_eq true w spinner Hspinner)).
  unfold searchCarByPlate. rewrite Hencode.
  rewrite (bind_Normal _ _ _ _ _ (apiRequest_eq _ _ _)).
  assert (R : rejection (network w (fetched w)) = None).
  { unfold rejection. now rewrite Hnet, Hjson, Hok. }
  assert (S1 : settled (network w (fetched w)) = Success car).
  { unfold settled. rewrite R, Hnet, Hjson. reflexivity. }
  cbn [network fetched set_document]. rewrite S1.
  unfold requested. cbn [network fetched set_document]. rewrite R.
  erewrite (bind_Normal (showLoading false)); cycle 1.
  { apply showLoading_eq with (spinner := with_display (js "flex") spinner).
    cbn. now rewrite Hspinner. }
  unfold bind at 1, lift at 1. rewrite Hid.
  rewrite (bind_Normal _ _ _ _ _ (getCarComplaintHistory_eq _ _ _ Hurl)).
  unfold settled, requested. cbn [network fetched set_document count_fetch add_event].
  rewrite He.
  eexists. exists e. split; [ reflexivity | ].
  cbn. split; [ reflexivity | ]. split.
  - rewrite !alerts_app. cbn. now rewrite !app_nil_r.
  - now rewrite <- !app_assoc.
Qed.

(** ** Further properties of [api.js] *)

Lemma decode_app (d : TextDecoder.dstate) (a b : list Byte.byte) :
  TextDecoder.decode d (a ++ b) =
    let (d1, o1) := TextDecoder.decode d a in
    let (d2, o2) := TextDecoder.decode d1 b in
    (d2, o1 ++ o2).
Proof.
  revert d. induction a as [ | x a IH ]; intros d.
  - cbn. now destruct (TextDecoder.decode d b).
  - cbn [app TextDecoder.decode].
    destruct (TextDecoder.step d (Byte.to_N x)) as [d1 cps].
    destruct (TextDecoder.emit d1 cps) as [d2 out].
    rewrite IH.
    destruct (TextDecoder.decode d2 a) as [d3 out'].
    destruct (TextDecoder.decode d3 b) as [d4 out''].
    now rewrite app_assoc.
Qed.

Lemma decoded_concat (d : TextDecoder.dstate) (parts : list (list Byte.byte)) :
  List.concat (decoded d parts) = snd (TextDecoder.decode d (List.concat parts)).
Proof.
  revert d. induction parts as [ | value rest IH ]; intros d; [ reflexivity | ].
  cbn [decoded List.concat]. rewrite decode_app.
  destruct (TextDecoder.decode d value) as [d1 o1].
  cbn [List.concat]. rewrite IH.
  now destruct (TextDecoder.decode d1 (List.concat rest)).
Qed.

(** X1.  The text [sendChatMessage] returns does not depend on where the
    stream is cut into chunks, even inside a character: it is the decoding
    of all the bytes of the stream taken together.  This is so when the
    address of the request can be built, the response is successful and
    its stream ends, and for a callback that returns normally whenever it
    is called. *)
Theorem sendChatMessage_chunking (sessionId message : value) (url : jsstring)
    (onChunk : option (jsstring -> M unit)) (w : world)
    (r : response) (parts : list (list Byte.byte)) :
  chat_sendMessage sessionId = Normal url ->
  network w (fetched w) = Normal r ->
  ok r = true ->
  stream r = Some (mkStream parts None) ->
  returns_normally onChunk ->
  fst (sendChatMessage sessionId message onChunk w) =
    Normal (Success (ai_response
      (snd (TextDecoder.decode TextDecoder.fresh (List.concat parts))))).
Proof.
  intros Hurl Hnet Hok Hstream Q.
  rewrite (sendChatMessage_reads _ _ _ _ _ _ _ Hurl Hnet Hok Hstream).
  cbn [chunks failure].
  destruct (read_chunks_done onChunk parts Q TextDecoder.fresh []
              (count_fetch (add_event (Fetch url (message_request message)) w)))
    as (w' & Hrun & _).
  rewrite Hrun. cbn. now rewrite decoded_concat.
Qed.

Lemma jsstring_eqb_eq (s t : jsstring) : jsstring_eqb s t = true <-> s = t.
Proof.
  revert t. induction s as [ | a s IH ]; intros [ | b t ]; cbn;
    try (split; [ discriminate | discriminate ]); [ tauto | ].
  rewrite andb_true_iff, N.eqb_eq, IH. split.
  - intros [ -> -> ]. reflexivity.
  - intros E. injection E as -> ->. tauto.
Qed.

Lemma header_put name k v o :
  header name (put k v o) = if jsstring_eqb k name then Some v else header name o.
Proof.
  induction o as [ | [k' v'] o IH ]; cbn; [ reflexivity | ].
  destruct (jsstring_eqb k' k) eqn:E; cbn.
  - apply jsstring_eqb_eq in E as ->. now destruct (jsstring_eqb k name).
  - rewrite IH. destruct (jsstring_eqb k' name) eqn:E'; [ | reflexivity ].
    apply jsstring_eqb_eq in E' as ->.
    destruct (jsstring_eqb k name) eqn:E''; [ | reflexivity ].
    apply jsstring_eqb_eq in E'' as ->.
    assert (T : jsstring_eqb name name = true) by now apply jsstring_eqb_eq.
    congruence.
Qed.

Lemma header_spread name (defaults given : list (jsstring * jsstring)) :
  NoDup (map fst given) ->
  header name (spread defaults given) =
    match header name given with
    | Some v => Some v
    | None => header name defaults
    end.
Proof.
  unfold spread. revert defaults.
  induction given as [ | [k v] given IH ]; intros defaults D; [ reflexivity | ].
  inversion D as [ | ? ? Hk D' ]; subst. cbn [fold_left fst snd header].
  rewrite (IH _ D'), header_put.
  destruct (jsstring_eqb k name) eqn:E; [ | reflexivity ].
  apply jsstring_eqb_eq in E as ->.
  destruct (header name given) eqn:G; [ | reflexivity ].
  exfalso. apply Hk. clear - G.
  induction given as [ | [k' v'] given IH ]; [ discriminate | ].
  cbn in *. destruct (jsstring_eqb k' name) eqn:E.
  - left. now apply jsstring_eqb_eq.
  - right. now apply IH.
Qed.

(** X2.  The headers [apiRequest] sends.  A caller that gives no headers,
    as every caller in [api.js] does, sends the JSON content type and
    nothing else.  A caller that gives headers sends each of them as
    given, also when it is the content type, and the JSON content type when
    it gives none. *)
Theorem finalOptions_headers (o : options) :
  (options_headers o = None -> headers (finalOptions o) = content_type_json) /\
  (forall given name,
     options_headers o = Some given ->
     NoDup (map fst given) ->
     header name (headers (finalOptions o)) =
       match header name given with
       | Some v => Some v
       | None => header name content_type_json
       end).
Proof.
  unfold finalOptions. cbn [headers]. split.
  - intros ->. reflexivity.
  - intros given name -> D. now apply header_spread.
Qed.

(** ** Further properties of the page script *)

(** X3.  [closeChat] does nothing without a stored session, and nothing but
    ask when the user declines: the session stays, the page stays, and no
    request is made. *)
Theorem closeChat_declined (w : world) :
  (truthy (currentChatSession w) = false -> closeChat w = (Normal tt, w)) /\
  (truthy (currentChatSession w) = true -> user w (asked w) = false ->
   closeChat w =
     (Normal tt,
      count_confirm
        (add_event (Confirm (js "Are you sure you want to close this chat session?")) w))).
Proof.
  unfold closeChat. primitives. split.
  - intros ->. reflexivity.
  - intros -> H. cbn. now rewrite H.
Qed.

(** X4.  [searchVehicle] with an empty or blank plate asks for a plate and
    makes no request. *)
Theorem searchVehicle_requires_plate (w : world) (text : jsstring) :
  control_value w "searchPlate" = Some text ->
  trim text = [] ->
  searchVehicle w =
    (Normal tt, add_event (Alert (js "Please enter a license plate number")) w).
Proof.
  unfold control_value. intros H T.
  destruct (document w "searchPlate") as [ box | ] eqn:Hbox; [ | discriminate H ].
  injection H as H.
  unfold searchVehicle, value_of.
  unfold bind at 1. unfold bind at 1, getElementById at 1. rewrite Hbox.
  unfold property, ret. rewrite H, T. reflexivity.
Qed.

(** X5.  [searchVehicle], when the lookup of the plate fails, shows that no
    vehicle was found instead of the error: no alert is shown. *)
Theorem searchVehicle_not_found (w : world) (text plate : jsstring) :
  has_elements ["searchPlate"; "loadingSpinner"; "searchResults"]%string w ->
  control_value w "searchPlate" = Some text ->
  trim text <> [] ->
  encodeURIComponent (trim text) = Some plate ->
  fails (network w (fetched w)) = true ->
  exists w',
    searchVehicle w = (Normal tt, w') /\
    option_map inner (document w' "searchResults") =
      Some (InnerHTML (VStr (jsq
        "<div class=`search-card`><p>No vehicle found with this license plate.</p></div>"))) /\
    alerts (log w') = alerts (log w).
Proof.
  intros Hpage Htext Hplate Hencode Hfails.
  elements Hpage.
  rename el into box, Hel into Hbox, el0 into spinner, Hel0 into Hspinner,
         el1 into results, Hel1 into Hresults.
  unfold control_value in Htext. rewrite Hbox in Htext. injection Htext as Htext.
  apply fails_rejection in Hfails as [ e He ].
  unfold searchVehicle, value_of.
  unfold bind at 1. unfold bind at 1, getElementById at 1. rewrite Hbox.
  unfold property at 1, ret at 1. rewrite Htext.
  assert (T : negb (truthy (VStr (trim text))) = false).
  { destruct (trim text); [ now elim Hplate | reflexivity ]. }
  rewrite T.
  rewrite (bind_Normal _ _ _ _ _ (showLoading_eq true w spinner Hspinner)).
  unfold searchCarByPlate. rewrite Hencode.
  rewrite (bind_Normal _ _ _ _ _ (apiRequest_eq _ _ _)).
  cbn [network fetched set_document].
  unfold settled, requested. cbn [network fetched set_document]. rewrite He.
  erewrite (bind_Normal (showLoading false)); cycle 1.
  { apply showLoading_eq with (spinner := with_display (js "flex") spinner).
    cbn. now rewrite Hspinner. }
  primitives. cbn. rewrite Hresults. cbn.
  eexists. split; [ reflexivity | ]. cbn. rewrite Hresults. cbn.
  split; [ reflexivity | ].
  rewrite !alerts_app. cbn. now rewrite !app_nil_r.
Qed.

(** X6.  [handleComplaintSubmit], when the submission fails, tells the user
    the error text. *)
Theorem handleComplaintSubmit_failure (w : world) :
  has_elements form_controls w ->
  has_elements ["loadingSpinner"]%string w ->
  control_value w "customerEmail" <> Some [] \/
  control_value w "customerPhone" <> Some [] ->
  fails (network w (fetched w)) = true ->
  exists w' error,
    handleComplaintSubmit w = (Normal tt, w') /\
    settled (network w (fetched w)) = Failure error /\
    alerts (log w') = alerts (log w) ++ [js "Error submitting complaint: " ++ error].
Proof.
  intros Hpage Hspinner Hcontact Hfails.
  destruct (formData_eq (add_event PreventDefault w) Hpage)
    as (name & email & phone & plate & make & model & year & mileage & text
        & crash & fire & Hemail & Hphone & _ & _ & Hform).
  change (control_value (add_event PreventDefault w))
    with (control_value w) in Hemail, Hphone.
  destruct (form_object_contact name email phone plate make model year mileage
              text crash fire) as [ Ge Gp ].
  elements Hspinner.
  apply fails_rejection in Hfails as [ e He ].
  unfold handleComplaintSubmit.
  unfold bind at 1, emit at 1, write at 1.
  rewrite (bind_Normal _ _ _ _ _ Hform).
  unfold bind at 1, lift at 1. rewrite Ge.
  unfold bind at 1, lift at 1. rewrite Gp.
  assert (T : negb (truthy (VStr email)) && negb (truthy (VStr phone)) = false).
  { rewrite Hemail, Hphone in Hcontact.
    destruct email, phone; cbn; try reflexivity.
    destruct Hcontact as [ C | C ]; now elim C. }
  rewrite T.
  rewrite (bind_Normal _ _ _ _ _
             (showLoading_eq true (add_event PreventDefault w) el Hel)).
  unfold submitComplaint.
  rewrite (bind_Normal _ _ _ _ _ (apiRequest_eq _ _ _)).
  cbn [network fetched set_document add_event fst].
  unfold settled, requested. cbn [network fetched set_document add_event]. rewrite He.
  erewrite (bind_Normal (showLoading false)); cycle 1.
  { apply showLoading_eq with (spinner := with_display (js "flex") el).
    cbn. now rewrite Hel. }
  unfold alert, emit, write.
  eexists. exists (error_message e). split; [ reflexivity | ].
  split; [ reflexivity | ].
  cbn. rewrite !alerts_app. cbn. now rewrite !app_nil_r.
Qed.

(** ** What the functions leave behind *)

Lemma console_errors_app l l' :
  console_errors (l ++ l') = console_errors l ++ console_errors l'.
Proof.
  induction l as [ | e l IH ]; [ reflexivity | ].
  destruct e; cbn; rewrite ?IH; reflexivity.
Qed.

(** X8.  [apiRequest] makes exactly one request, the one it was asked for,
    whatever the answer: it never tries again.  It shows no dialog and
    leaves the page and the three globals alone; it writes to the console
    exactly when it returns a failure, and what it writes is the error whose
    message the failure carries. *)
Theorem apiRequest_single_request (url : jsstring) (opts : option options) (w : world) :
  exists r w',
    apiRequest url opts w = (Normal r, w') /\
    requests (log w') =
      requests (log w) ++ [(url, finalOptions (options_or_default opts))] /\
    fetched w' = S (fetched w) /\
    alerts (log w') = alerts (log w) /\
    document w' = document w /\
    currentComplaint w' = currentComplaint w /\
    currentChatSession w' = currentChatSession w /\
    currentCar w' = currentCar w /\
    match r with
    | Success _ => console_errors (log w') = console_errors (log w)
    | Failure error =>
        exists e, error = error_message e /\
                  console_errors (log w') = console_errors (log w) ++ [e]
    end.
Proof.
  rewrite apiRequest_eq. eexists. eexists. split; [ reflexivity | ].
  rewrite requests_requested. split; [ reflexivity | ].
  unfold requested, settled.
  destruct (rejection (network w (fetched w))) as [ e | ] eqn:R; cbn.
  - rewrite !alerts_app, !console_errors_app. cbn. rewrite !app_nil_r.
    repeat split. exists e. split; reflexivity.
  - rewrite !alerts_app, !console_errors_app. cbn. rewrite !app_nil_r.
    repeat split.
    unfold rejection in R.
    destruct (network w (fetched w)) as [ r | e ]; [ | discriminate R ].
    destruct (json r) as [ data | e ]; [ | discriminate R ].
    reflexivity.
Qed.

(** X9.  [sendChatMessage] throws in one case only: when the address of
    the request cannot be built from the session id, which happens before
    its [try]; it has then done nothing at all.  Once the address is built
    it never throws, whatever the network, the stream and the callback do
    (a callback that throws being taken to throw an Error object): it
    returns a success that wraps a text as the message of the assistant,
    or a failure; and the last thing it did before returning a failure was
    to write the error to the console. *)
Theorem sendChatMessage_throws_only_before_try (sessionId message : value)
    (onChunk : option (jsstring -> M unit)) (w : world) :
  (forall e, chat_sendMessage sessionId = Throw e ->
     sendChatMessage sessionId message onChunk w = (Throw e, w)) /\
  (forall url, chat_sendMessage sessionId = Normal url ->
     exists r w',
       sendChatMessage sessionId message onChunk w = (Normal r, w') /\
       match r with
       | Success data => exists text, data = ai_response text
       | Failure error =>
           exists e l, error = error_message e /\
                       log w' = l ++ [ConsoleError (js "API Error:") e]
       end).
Proof.
  split.
  - intros e Hurl. unfold sendChatMessage. unfold bind at 1, lift at 1.
    now rewrite Hurl.
  - intros url Hurl. unfold sendChatMessage. unfold bind at 1, lift at 1.
    rewrite Hurl. unfold try_catch.
    match goal with
    | |- context [match ?body w with _ => _ end] =>
        destruct (body w) as [ [ r | e ] w1 ] eqn:Hbody
    end.
    + exists r, w1. split; [ reflexivity | ].
      revert Hbody. unfold bind at 1.
      destruct (fetch _ _ w) as [ [ response | e ] w2 ]; [ | discriminate ].
      unfold bind at 1.
      destruct (_ w2) as [ [ [] | e ] w3 ]; [ | discriminate ].
      unfold bind at 1.
      destruct (_ w3) as [ [ reader | e ] w4 ]; [ | discriminate ].
      unfold bind at 1.
      destruct (read_chunks _ _ _ _ _ w4) as [ [ text | e ] w5 ]; [ | discriminate ].
      unfold ret. intros E. injection E as <- _. exists text. reflexivity.
    + eexists. eexists. split; [ reflexivity | ].
      exists e, (log w1). split; reflexivity.
Qed.

(** *** Computations that only read *)

Lemma reads_only_ret {A} (a : A) : reads_only (ret a).
Proof. intros w. reflexivity. Qed.

Lemma reads_only_throw {A} (e : js_error) : reads_only (@throw A e).
Proof. intros w. reflexivity. Qed.

Lemma reads_only_lift {A} (c : completion A) : reads_only (lift c).
Proof. intros w. reflexivity. Qed.

Lemma reads_only_getElementById id : reads_only (getElementById id).
Proof. intros w. reflexivity. Qed.

Lemma reads_only_bind {A B} (c : M A) (k : A -> M B) :
  reads_only c -> (forall a, reads_only (k a)) -> reads_only (bind c k).
Proof.
  intros Hc Hk w. unfold bind. specialize (Hc w).
  destruct (c w) as [ [ a | e ] w' ]; cbn in Hc; subst w'; [ apply Hk | reflexivity ].
Qed.

Lemma reads_only_if {A} (b : bool) (c c' : M A) :
  reads_only c -> reads_only c' -> reads_only (if b then c else c').
Proof. now destruct b. Qed.

Ltac reads_only :=
  repeat first
    [ apply reads_only_ret | apply reads_only_throw | apply reads_only_lift
    | apply reads_only_getElementById
    | apply reads_only_bind; [ | intros ? ]
    | apply reads_only_if ].

Lemma reads_only_complaint_card complaint : reads_only (complaint_card complaint).
Proof. unfold complaint_card, get_or. reads_only. Qed.

Lemma reads_only_forEach_card complaints :
  forall html, reads_only (forEach_card complaints html).
Proof.
  induction complaints as [ | complaint rest IH ]; intros html; cbn [forEach_card].
  - apply reads_only_ret.
  - apply reads_only_bind; [ apply reads_only_complaint_card | intros card; apply IH ].
Qed.

Lemma renders_assign id el html :
  renders_at_once id
    (assign "innerHTML" id el (with_inner (InnerHTML (VStr html)))).
Proof. destruct el as [ x | ]; intros w; cbn; eauto. Qed.

Lemma renders_bind {A B} id (c : M A) (k : A -> M B) :
  reads_only c -> (forall a, renders_at_once id (k a)) ->
  renders_at_once id (bind c k).
Proof.
  intros Hc Hk w. unfold bind. specialize (Hc w).
  destruct (c w) as [ [ a | e' ] w1 ]; cbn in Hc; subst w1; [ apply Hk | reflexivity ].
Qed.

(** X10.  [displaySearchResults] renders all or nothing.  When it throws
    (the history is not an array, or holds a [null] entry, or the car has
    no customer, ...), it has changed nothing: no card of a partial list is
    shown.  When it returns, all it has done is one assignment to the
    [innerHTML] of the results area. *)
Theorem displaySearchResults_all_or_nothing (data : value) (w : world) :
  match displaySearchResults data w with
  | (Throw _, w') => w' = w
  | (Normal _, w') =>
      exists html,
        w' = set_document
               (update_element "searchResults"
                  (with_inner (InnerHTML (VStr html))) (document w)) w
  end.
Proof.
  revert w. change (renders_at_once "searchResults" (displaySearchResults data)).
  unfold displaySearchResults.
  repeat (apply renders_bind; [ solve [ reads_only ] | intros ? ]).
  destruct (is_zero _); [ apply renders_assign | ].
  repeat (apply renders_bind; [ solve [ reads_only ] | intros ? ]).
  apply renders_bind; [ | intros; apply renders_assign ].
  match goal with
  | |- reads_only (match ?x with _ => _ end) => destruct x
  end; reads_only.
  apply reads_only_forEach_card.
Qed.

(** *** The loading spinner *)

Lemma encodeURIComponent_nonempty (s : jsstring) :
  encodeURIComponent s = None -> s <> [].
Proof. intros H ->. discriminate H. Qed.

(** X11.  A plate that holds half a surrogate pair cannot be encoded:
    [searchVehicle] then throws the URIError of [encodeURIComponent] before
    any request is made, and the loading spinner it has just shown stays
    on. *)
Theorem searchVehicle_malformed_plate (w : world) (text : jsstring) :
  has_elements ["searchPlate"; "loadingSpinner"]%string w ->
  control_value w "searchPlate" = Some text ->
  encodeURIComponent (trim text) = None ->
  exists w',
    searchVehicle w = (Throw (mkError "URIError" URIError_message), w') /\
    display_of w' "loadingSpinner" = Some (js "flex") /\
    log w' = log w /\
    fetched w' = fetched w.
Proof.
  intros Hpage Htext Hencode.
  elements Hpage. rename el into box, Hel into Hbox, el0 into spinner, Hel0 into Hspinner.
  unfold control_value in Htext. rewrite Hbox in Htext. injection Htext as Htext.
  unfold searchVehicle, value_of.
  unfold bind at 1. unfold bind at 1, getElementById at 1. rewrite Hbox.
  unfold property at 1, ret at 1. rewrite Htext.
  assert (T : negb (truthy (VStr (trim text))) = false).
  { pose proof (encodeURIComponent_nonempty _ Hencode) as N.
    destruct (trim text); [ now elim N | reflexivity ]. }
  rewrite T.
  rewrite (bind_Normal _ _ _ _ _ (showLoading_eq true w spinner Hspinner)).
  unfold searchCarByPlate. rewrite Hencode.
  unfold bind, throw. eexists. split; [ reflexivity | ].
  unfold display_of. cbn. rewrite Hspinner. repeat split.
Qed.

Lemma keeps_reads_only {A} id (c : M A) : reads_only c -> keeps_element id c.
Proof. intros H w. now rewrite H. Qed.

Lemma keeps_bind {A B} id (c : M A) (k : A -> M B) :
  keeps_element id c -> (forall a, keeps_element id (k a)) ->
  keeps_element id (bind c k).
Proof.
  intros Hc Hk w. unfold bind. specialize (Hc w).
  destruct (c w) as [ [ a | e ] w' ]; cbn in *; [ | exact Hc ].
  now rewrite Hk.
Qed.

Lemma keeps_assign id p id' el change :
  String.eqb id id' = false -> keeps_element id (assign p id' el change).
Proof.
  intros H. destruct el as [ x | ]; intros w; cbn; [ | reflexivity ].
  unfold update_element. now rewrite H.
Qed.

Lemma keeps_assign_content id p id' el c :
  String.eqb id id' = false -> keeps_element id (assign_content p id' el c).
Proof.
  intros H. destruct el as [ x | ]; unfold assign_content;
    [ | apply keeps_reads_only, reads_only_throw ].
  apply keeps_bind; [ apply keeps_reads_only, reads_only_lift | intros _ ].
  now apply keeps_assign.
Qed.

Lemma keeps_write_complaint id v : keeps_element id (write (set_currentComplaint v)).
Proof. intros w. reflexivity. Qed.

Lemma keeps_write_car id v : keeps_element id (write (set_currentCar v)).
Proof. intros w. reflexivity. Qed.

Lemma keeps_write_session id v : keeps_element id (write (set_currentChatSession v)).
Proof. intros w. reflexivity. Qed.

Lemma keeps_emit id e : keeps_element id (emit e).
Proof. intros w. reflexivity. Qed.

Lemma keeps_apiRequest id url opts : keeps_element id (apiRequest url opts).
Proof. intros w. rewrite apiRequest_eq. cbn. now rewrite document_requested. Qed.

Lemma keeps_if {A} id (b : bool) (c c' : M A) :
  keeps_element id c -> keeps_element id c' -> keeps_element id (if b then c else c').
Proof. now destruct b. Qed.

Ltac keeps :=
  repeat first
    [ apply keeps_reads_only; solve [ reads_only ]
    | apply keeps_assign; reflexivity
    | apply keeps_assign_content; reflexivity
    | apply keeps_write_complaint | apply keeps_write_car
    | apply keeps_write_session | apply keeps_emit | apply keeps_apiRequest
    | apply keeps_bind; [ | intros ? ]
    | apply keeps_if
    | match goal with
      | |- keeps_element _ (match ?x with _ => _ end) => destruct x
      end ].

Lemma keeps_spinner_displayComplaintResult data :
  keeps_element "loadingSpinner" (displayComplaintResult data).
Proof. unfold displayComplaintResult, get_or. keeps. Qed.

Lemma keeps_spinner_displaySearchResults data :
  keeps_element "loadingSpinner" (displaySearchResults data).
Proof.
  unfold displaySearchResults. keeps.
  apply keeps_reads_only, reads_only_forEach_card.
Qed.

Lemma contact_given (w : world) (email phone : jsstring) :
  control_value w "customerEmail" = Some email ->
  control_value w "customerPhone" = Some phone ->
  control_value w "customerEmail" <> Some [] \/
  control_value w "customerPhone" <> Some [] ->
  negb (truthy (VStr email)) && negb (truthy (VStr phone)) = false.
Proof.
  intros -> -> H. destruct email, phone; cbn; try reflexivity.
  destruct H as [ C | C ]; now elim C.
Qed.

(** X12.  Once the request is under way, the loading spinner does not stay
    on: at the end of [handleComplaintSubmit], of [searchVehicle] and of
    [closeChat] it is hidden, whatever the server answers and also when
    showing the answer throws.  For [closeChat] the request is under way
    once its address is built from the id of the session. *)
Theorem spinner_hidden_after_request (w : world) :
  has_elements ["loadingSpinner"]%string w ->
  (has_elements form_controls w ->
   control_value w "customerEmail" <> Some [] \/
   control_value w "customerPhone" <> Some [] ->
   display_of (snd (handleComplaintSubmit w)) "loadingSpinner" = Some (js "none")) /\
  (forall text plate,
     control_value w "searchPlate" = Some text ->
     trim text <> [] ->
     encodeURIComponent (trim text) = Some plate ->
     display_of (snd (searchVehicle w)) "loadingSpinner" = Some (js "none")) /\
  (forall id url,
     truthy (currentChatSession w) = true ->
     get (currentChatSession w) (js "id") = Normal id ->
     chat_closeSession id = Normal url ->
     user w (asked w) = true ->
     display_of (snd (closeChat w)) "loadingSpinner" = Some (js "none")).
Proof.
  intros Hspinner. elements Hspinner. rename el into spinner, Hel into Hspinner.
  assert (Hidden : forall w1,
    document w1 "loadingSpinner" = Some (with_display (js "flex") spinner) ->
    forall rest : M unit,
    keeps_element "loadingSpinner" rest ->
    display_of (snd (bind (showLoading false) (fun _ => rest) w1)) "loadingSpinner"
      = Some (js "none")).
  { intros w1 H1 rest K.
    rewrite (bind_Normal _ _ _ _ _ (showLoading_eq false w1 _ H1)).
    unfold display_of. rewrite K. cbn. now rewrite H1. }
  split; [ | split ].
  - intros Hpage Hcontact.
    destruct (formData_eq (add_event PreventDefault w) Hpage)
      as (name & email & phone & plate & make & model & year & mileage & text
          & crash & fire & Hemail & Hphone & _ & _ & Hform).
    change (control_value (add_event PreventDefault w))
      with (control_value w) in Hemail, Hphone.
    destruct (form_object_contact name email phone plate make model year mileage
                text crash fire) as [ Ge Gp ].
    unfold handleComplaintSubmit.
    unfold bind at 1, emit at 1, write at 1.
    rewrite (bind_Normal _ _ _ _ _ Hform).
    unfold bind at 1, lift at 1. rewrite Ge.
    unfold bind at 1, lift at 1. rewrite Gp.
    rewrite (contact_given w email phone Hemail Hphone Hcontact).
    rewrite (bind_Normal _ _ _ _ _
               (showLoading_eq true (add_event PreventDefault w) spinner Hspinner)).
    unfold submitComplaint.
    rewrite (bind_Normal _ _ _ _ _ (apiRequest_eq _ _ _)).
    apply Hidden.
    + rewrite document_requested. cbn. now rewrite Hspinner.
    + destruct (settled _); [ | apply keeps_emit ].
      repeat (apply keeps_bind; [ | intros ? ]);
        solve [ keeps | apply keeps_spinner_displayComplaintResult ].
  - intros text plate Htext Hplate Hencode.
    unfold control_value in Htext.
    destruct (document w "searchPlate") as [ box | ] eqn:Hbox; [ | discriminate Htext ].
    injection Htext as Htext.
    unfold searchVehicle, value_of.
    unfold bind at 1. unfold bind at 1, getElementById at 1. rewrite Hbox.
    unfold property at 1, ret at 1. rewrite Htext.
    assert (T : negb (truthy (VStr (trim text))) = false).
    { destruct (trim text); [ now elim Hplate | reflexivity ]. }
    rewrite T.
    rewrite (bind_Normal _ _ _ _ _ (showLoading_eq true w spinner Hspinner)).
    unfold searchCarByPlate. rewrite Hencode.
    rewrite (bind_Normal _ _ _ _ _ (apiRequest_eq _ _ _)).
    apply Hidden.
    + rewrite document_requested. cbn. now rewrite Hspinner.
    + destruct (settled _).
      * unfold getCarComplaintHistory.
        apply keeps_bind; [ keeps | intros id ].
        apply keeps_bind; [ keeps | intros historyResult ].
        destruct historyResult; [ apply keeps_spinner_displaySearchResults | keeps ].
      * keeps.
  - intros id url Hsession Hid Hurl Hconfirm.
    unfold closeChat.
    unfold bind at 1, read at 1. rewrite Hsession. cbn [negb].
    unfold bind at 1, confirm at 1. rewrite Hconfirm. cbn [negb].
    erewrite (bind_Normal (showLoading true)); cycle 1.
    { apply showLoading_eq with (spinner := spinner). exact Hspinner. }
    unfold bind at 1, read at 1. cbn [currentChatSession set_document count_confirm add_event].
    unfold bind at 1, lift at 1. rewrite Hid.
    rewrite (bind_Normal _ _ _ _ _ (closeChatSession_eq _ _ _ Hurl)).
    apply Hidden.
    + rewrite document_requested. cbn. now rewrite Hspinner.
    + keeps.
Qed.

(** *** Showing the result of a submission *)

Lemma assign_eq p id e change w :
  assign p id (Some e) change w =
    (Normal tt, set_document (update_element id change (document w)) w).
Proof. reflexivity. Qed.

Lemma update_element_other id change doc id' :
  String.eqb id' id = false -> update_element id change doc id' = doc id'.
Proof. intros H. unfold update_element. now rewrite H. Qed.

Lemma getElementById_eq id w : getElementById id w = (Normal (document w id), w).
Proof. reflexivity. Qed.

Lemma converts_ToString (v : value) :
  converts v = true -> exists text, ToString v = Normal text.
Proof. unfold converts. destruct (ToString v); [ eauto | discriminate ]. Qed.

Lemma converts_ToNumber (v : value) :
  converts v = true -> exists n, ToNumber v = Normal n.
Proof.
  unfold converts. destruct v; cbn [ToNumber]; eauto;
    unfold and_then; destruct (ToString _); try discriminate; eauto.
Qed.

Lemma converts_getConfidenceColor (v : value) :
  converts v = true -> exists color, getConfidenceColor v = Normal color.
Proof.
  intros H. destruct (converts_ToNumber v H) as [ n Hn ].
  unfold getConfidenceColor. rewrite Hn. cbn [and_then].
  destruct (number_ge n lit_0_8); [ eauto | ].
  destruct (number_ge n lit_0_6); eauto.
Qed.

Lemma assign_content_eq p id e c w :
  converts (content_value c) = true ->
  assign_content p id (Some e) c w =
    (Normal tt, set_document (update_element id (with_inner c) (document w)) w).
Proof.
  intros H. apply converts_ToString in H as [ text H ].
  unfold assign_content, bind, lift. now rewrite H.
Qed.

Lemma displayComplaintResult_eq (props cprops : list (jsstring * value)) (w : world) :
  own_property (js "complaint") props = VObj cprops ->
  displayable cprops = true ->
  has_elements ["complaintId"; "predictedCategory"; "confidence"; "resultCard"]%string w ->
  exists w',
    displayComplaintResult (VObj props) w = (Normal tt, w') /\
    display_of w' "resultCard" = Some (js "block") /\
    inner_of w' "complaintId" = Some (TextContent (own_property (js "id") cprops)) /\
    inner_of w' "predictedCategory" =
      Some (TextContent (js_or (own_property (js "category_display") cprops)
                           (own_property (js "predicted_category") cprops))) /\
    inner_of w' "analysisContent" =
      option_map
        (fun _ => InnerHTML (js_or (own_property (js "analysis") cprops)
                               (VStr (js "No analysis available."))))
        (document w "analysisContent") /\
    log w' = log w /\
    currentComplaint w' = currentComplaint w /\
    currentCar w' = currentCar w.
Proof.
  intros Hcomplaint Hshow Hpage. elements Hpage.
  unfold displayable in Hshow.
  apply andb_true_iff in Hshow as [ Hshow Hanalysis ].
  apply andb_true_iff in Hshow as [ Hshow Hconfidence ].
  apply andb_true_iff in Hshow as [ Hid Hcategory ].
  destruct (converts_getConfidenceColor _ Hconfidence) as [ color Hcolor ].
  destruct (converts_ToNumber _ Hconfidence) as [ percent Hpercent ].
  assert (Hget : forall w1,
    get_or (VObj cprops) (js "category_display")
      (lift (get (VObj cprops) (js "predicted_category"))) w1 =
      (Normal (js_or (own_property (js "category_display") cprops)
                 (own_property (js "predicted_category") cprops)), w1)).
  { intros w1. unfold get_or, js_or, bind, lift, ret. cbn [get].
    now destruct (truthy _). }
  assert (Hget' : forall w1,
    get_or (VObj cprops) (js "analysis") (ret (VStr (js "No analysis available."))) w1 =
      (Normal (js_or (own_property (js "analysis") cprops)
                 (VStr (js "No analysis available."))), w1)).
  { intros w1. unfold get_or, js_or, bind, lift, ret. cbn [get].
    now destruct (truthy _). }
  unfold displayComplaintResult.
  unfold bind at 1, lift at 1. cbn [get]. rewrite Hcomplaint.
  unfold bind at 1, lift at 1. cbn [get].
  unfold bind at 1, lift at 1. cbn [get].
  rewrite (bind_Normal _ _ _ _ _ (getElementById_eq _ _)). rewrite Hel.
  unfold bind at 1, lift at 1. cbn [get].
  rewrite (bind_Normal _ _ _ _ _ (assign_content_eq _ _ _ (TextContent _) _ Hid)).
  rewrite (bind_Normal _ _ _ _ _ (getElementById_eq _ _)). cbn [document set_document].
  rewrite !update_element_other by reflexivity. rewrite Hel0.
  rewrite (bind_Normal _ _ _ _ _ (Hget _)).
  rewrite (bind_Normal _ _ _ _ _ (assign_content_eq _ _ _ (TextContent _) _ Hcategory)).
  rewrite (bind_Normal _ _ _ _ _ (getElementById_eq _ _)). cbn [document set_document].
  rewrite !update_element_other by reflexivity. rewrite Hel1.
  unfold bind at 1, lift at 1. cbn [get].
  unfold bind at 1, lift at 1. rewrite Hcolor.
  unfold bind at 1, lift at 1. cbn [get].
  unfold bind at 1, lift at 1. rewrite Hpercent.
  rewrite (bind_Normal _ _ _ _ _ (assign_eq _ _ _ _ _)).
  rewrite (bind_Normal _ _ _ _ _ (getElementById_eq _ _)). cbn [document set_document].
  rewrite !update_element_other by reflexivity.
  unfold inner_of, display_of.
  destruct (document w "analysisContent") as [ analysisEl | ] eqn:Ha.
  - unfold bind at 1. rewrite (bind_Normal _ _ _ _ _ (Hget' _)). cbn beta.
    rewrite (bind_Normal _ _ _ _ _ (assign_content_eq _ _ _ (InnerHTML _) _ Hanalysis)).
    rewrite (bind_Normal _ _ _ _ _ (getElementById_eq _ _)). cbn [document set_document].
    rewrite !update_element_other by reflexivity.
    destruct (document w "analysisSection") as [ container | ] eqn:Hc;
      primitives; cbn; rewrite Hel2; cbn;
      (eexists; split; [ reflexivity | ]); cbn;
      rewrite ?Hel, ?Hel0, ?Hel1, ?Hel2, ?Ha, ?Hc; repeat split.
  - primitives. cbn. rewrite Hel2. cbn.
    eexists. split; [ reflexivity | ]. cbn.
    rewrite ?Hel, ?Hel0, ?Hel1, ?Hel2, ?Ha. repeat split.
Qed.

(** X13.  [displayComplaintResult] needs the four elements of the result
    card only.  For a complaint whose id, category, confidence and analysis
    can be converted to text, the analysis is shown when the page has a
    place for it (the analysis of the complaint, or ['No analysis
    available.'] when the complaint has none) and is skipped otherwise; the
    result card is shown in both cases, and nothing is logged: no dialog,
    no request. *)
Theorem displayComplaintResult_optional_analysis
    (props cprops : list (jsstring * value)) (w : world) :
  own_property (js "complaint") props = VObj cprops ->
  displayable cprops = true ->
  has_elements ["complaintId"; "predictedCategory"; "confidence"; "resultCard"]%string w ->
  exists w',
    displayComplaintResult (VObj props) w = (Normal tt, w') /\
    display_of w' "resultCard" = Some (js "block") /\
    inner_of w' "analysisContent" =
      option_map
        (fun _ => InnerHTML (js_or (own_property (js "analysis") cprops)
                               (VStr (js "No analysis available."))))
        (document w "analysisContent") /\
    log w' = log w.
Proof.
  intros Hcomplaint Hshow Hpage.
  destruct (displayComplaintResult_eq props cprops w Hcomplaint Hshow Hpage)
    as (w' & Hrun & Hcard & _ & _ & Hanalysis & Hlog & _).
  exists w'. repeat split; assumption.
Qed.

(** X14.  [handleComplaintSubmit], when the server accepts the complaint
    and answers with the complaint and the car under [data], stores the two
    as the current complaint and the current car, shows the result card
    with the id of the complaint, and schedules the scroll to the card; it
    shows no dialog.  This is so for a complaint whose id, category,
    confidence and analysis can be converted to text. *)
Theorem handleComplaintSubmit_success (w : world) (r : response) (body : value)
    (props cprops : list (jsstring * value)) :
  has_elements form_controls w ->
  has_elements ["loadingSpinner"; "complaintId"; "predictedCategory"; "confidence";
                "resultCard"]%string w ->
  control_value w "customerEmail" <> Some [] \/
  control_value w "customerPhone" <> Some [] ->
  network w (fetched w) = Normal r ->
  ok r = true ->
  json r = Normal body ->
  get body (js "data") = Normal (VObj props) ->
  own_property (js "complaint") props = VObj cprops ->
  displayable cprops = true ->
  exists w' formData,
    handleComplaintSubmit w = (Normal tt, w') /\
    currentComplaint w' = VObj cprops /\
    currentCar w' = own_property (js "car") props /\
    display_of w' "resultCard" = Some (js "block") /\
    inner_of w' "complaintId" = Some (TextContent (own_property (js "id") cprops)) /\
    log w' =
      log w ++ [ PreventDefault;
                 Fetch complaints_quickSubmit (submit_request formData);
                 SetTimeout ScrollResultIntoView 300 ].
Proof.
  intros Hpage Hcard Hcontact Hnet Hok Hjson Hdata Hcomplaint Hshow.
  destruct (formData_eq (add_event PreventDefault w) Hpage)
    as (name & email & phone & plate & make & model & year & mileage & text
        & crash & fire & Hemail & Hphone & _ & _ & Hform).
  change (control_value (add_event PreventDefault w))
    with (control_value w) in Hemail, Hphone.
  destruct (form_object_contact name email phone plate make model year mileage
              text crash fire) as [ Ge Gp ].
  apply has_elements_cons in Hcard as [ [spinner Hspinner] Hcard ].
  assert (R : rejection (network w (fetched w)) = None).
  { unfold rejection. now rewrite Hnet, Hjson, Hok. }
  assert (S1 : settled (network w (fetched w)) = Success body).
  { unfold settled. rewrite R, Hnet, Hjson. reflexivity. }
  unfold handleComplaintSubmit.
  unfold bind at 1, emit at 1, write at 1.
  rewrite (bind_Normal _ _ _ _ _ Hform).
  unfold bind at 1, lift at 1. rewrite Ge.
  unfold bind at 1, lift at 1. rewrite Gp.
  rewrite (contact_given w email phone Hemail Hphone Hcontact).
  rewrite (bind_Normal _ _ _ _ _
             (showLoading_eq true (add_event PreventDefault w) spinner Hspinner)).
  unfold submitComplaint.
  rewrite (bind_Normal _ _ _ _ _ (apiRequest_eq _ _ _)).
  cbn [network fetched set_document add_event]. rewrite S1.
  unfold requested. cbn [network fetched set_document add_event]. rewrite R.
  erewrite (bind_Normal (showLoading false)); cycle 1.
  { apply showLoading_eq with (spinner := with_display (js "flex") spinner).
    cbn. now rewrite Hspinner. }
  unfold bind at 1, lift at 1. rewrite Hdata.
  unfold bind at 1, lift at 1. cbn [get]. rewrite Hcomplaint.
  unfold bind at 1, write at 1.
  unfold bind at 1, lift at 1.
  unfold bind at 1, lift at 1. cbn [get].
  unfold bind at 1, write at 1.
  unfold bind at 1, lift at 1.
  match goal with
  | |- context [bind (displayComplaintResult _) _ ?w3] =>
      destruct (displayComplaintResult_eq props cprops w3 Hcomplaint Hshow)
        as (w' & Hrun & Hshown & Hid & _ & _ & Hlog & Hc & Hcar)
  end.
  { revert Hcard. unfold has_elements. rewrite !Forall_forall.
    intros H id Hin. specialize (H id Hin). cbn. unfold update_element.
    destruct (String.eqb_spec id "loadingSpinner") as [ -> | _ ];
      [ rewrite Hspinner; discriminate | exact H ]. }
  rewrite (bind_Normal _ _ _ _ _ Hrun).
  unfold emit, write.
  eexists. eexists. split; [ reflexivity | ].
  cbn. rewrite Hc, Hcar, Hlog. cbn.
  repeat split; try assumption.
  now rewrite <- !app_assoc.
Qed.

(** *** Closing the chat *)

(** X15.  [closeChat], once the user has confirmed, sends one POST without
    a body to the close address of the stored session (built from the id of
    the session, which has to convert to a string) and then tells the user
    that the session was closed successfully, whatever the server answered.
    A second [closeChat] right after it does nothing at all. *)
Theorem closeChat_once (w : world) (id : value) (url : jsstring) :
  truthy (currentChatSession w) = true ->
  get (currentChatSession w) (js "id") = Normal id ->
  chat_closeSession id = Normal url ->
  user w (asked w) = true ->
  has_elements ["loadingSpinner"; "chat"]%string w ->
  exists w',
    closeChat w = (Normal tt, w') /\
    requests (log w') =
      requests (log w)
        ++ [(url, mkRequest (Some (js "POST")) content_type_json None)] /\
    alerts (log w') = alerts (log w) ++ [js "Chat session closed successfully"] /\
    closeChat w' = (Normal tt, w').
Proof.
  intros Hsession Hid Hurl Hconfirm Hpage.
  elements Hpage. rename el into spinner, Hel into Hspinner, el0 into chat, Hel0 into Hchat.
  unfold closeChat at 1.
  unfold bind at 1, read at 1. rewrite Hsession. cbn [negb].
  unfold bind at 1, confirm at 1. rewrite Hconfirm. cbn [negb].
  erewrite (bind_Normal (showLoading true)); cycle 1.
  { apply showLoading_eq with (spinner := spinner). exact Hspinner. }
  unfold bind at 1, read at 1. cbn [currentChatSession set_document count_confirm add_event].
  unfold bind at 1, lift at 1. rewrite Hid.
  rewrite (bind_Normal _ _ _ _ _ (closeChatSession_eq _ _ _ Hurl)).
  erewrite (bind_Normal (showLoading false)); cycle 1.
  { apply showLoading_eq with (spinner := with_display (js "flex") spinner).
    rewrite document_requested. cbn. now rewrite Hspinner. }
  primitives. cbn. rewrite document_requested. cbn. rewrite Hchat. cbn.
  eexists. split; [ reflexivity | ].
  cbn. rewrite !requests_app, !alerts_app, requests_requested.
  unfold requested. cbn.
  split; [ | split ].
  - cbn. rewrite !requests_app. cbn. now rewrite !app_nil_r.
  - destruct (rejection _); cbn; rewrite !alerts_app; cbn; now rewrite !app_nil_r.
  - reflexivity.
Qed.

(** *** The address of the search *)

Lemma hex_digit_unreserved (n : N) :
  (n < 16)%N -> unreserved (hex_digit n) = true.
Proof.
  intros H. unfold hex_digit, unreserved.
  destruct (N.ltb_spec n 10) as [ L | L ].
  - assert (D : ((48 <=? 48 + n) && (48 + n <=? 57))%N = true).
    { apply andb_true_iff. split; apply N.leb_le; lia. }
    rewrite D. now rewrite !orb_true_r.
  - assert (D : ((65 <=? 55 + n) && (55 + n <=? 90))%N = true).
    { apply andb_true_iff. split; apply N.leb_le; lia. }
    now rewrite D.
Qed.

Lemma escape_url_safe (octet : N) :
  (octet < 256)%N -> forallb url_safe (escape octet) = true.
Proof.
  intros H. unfold escape, url_safe. cbn [forallb].
  rewrite !hex_digit_unreserved; [ reflexivity | | ].
  - change 15%N with (N.ones 4). rewrite N.land_ones. now apply N.mod_lt.
  - rewrite N.shiftr_div_pow2. now apply N.Div0.div_lt_upper_bound.
Qed.

Lemma low_bits (a : N) : (N.land a 63 < 64)%N.
Proof. change 63%N with (N.ones 6). rewrite N.land_ones. now apply N.mod_lt. Qed.

Lemma utf8_octets (cp : N) :
  (cp < 1114112)%N -> Forall (fun b => (b < 256)%N) (utf8 cp).
Proof.
  intros H. unfold utf8.
  destruct (N.ltb_spec cp 128); [ repeat constructor; lia | ].
  destruct (N.ltb_spec cp 2048).
  { assert (N.shiftr cp 6 < 32)%N
      by (rewrite N.shiftr_div_pow2; now apply N.Div0.div_lt_upper_bound).
    pose proof (low_bits cp). repeat constructor; lia. }
  destruct (N.ltb_spec cp 65536).
  { assert (N.shiftr cp 12 < 16)%N
      by (rewrite N.shiftr_div_pow2; now apply N.Div0.div_lt_upper_bound).
    pose proof (low_bits cp). pose proof (low_bits (N.shiftr cp 6)).
    repeat constructor; lia. }
  assert (N.shiftr cp 18 < 5)%N.
  { rewrite N.shiftr_div_pow2. apply N.Div0.div_lt_upper_bound.
    change (2 ^ 18 * 5)%N with 1310720%N. lia. }
  pose proof (low_bits cp). pose proof (low_bits (N.shiftr cp 6)).
  pose proof (low_bits (N.shiftr cp 12)).
  repeat constructor; lia.
Qed.

Lemma escaped_url_safe (cp : N) :
  (cp < 1114112)%N -> forallb url_safe (flat_map escape (utf8 cp)) = true.
Proof.
  intros H. apply forallb_forall. intros u Hu.
  apply in_flat_map in Hu as (octet & Hoctet & Hu).
  pose proof (utf8_octets cp H) as B. rewrite Forall_forall in B.
  pose proof (escape_url_safe octet (B octet Hoctet)) as E.
  rewrite forallb_forall in E. now apply E.
Qed.

Lemma encodeURIComponent_url_safe (n : nat) :
  forall s plate,
  List.length s <= n ->
  Forall is_code_unit s ->
  encodeURIComponent s = Some plate ->
  forallb url_safe plate = true.
Proof.
  induction n as [ | n IH ]; intros s plate Hn Hs He.
  - destruct s; [ | cbn in Hn; lia ]. cbn in He. now injection He as <-.
  - destruct s as [ | u rest ]; [ cbn in He; now injection He as <- | ].
    inversion Hs as [ | ? ? Hu Hrest ]; subst. unfold is_code_unit in Hu.
    cbn [List.length] in Hn. cbn [encodeURIComponent] in He.
    destruct (unreserved u) eqn:U.
    { destruct (encodeURIComponent rest) as [ t | ] eqn:E; [ | discriminate He ].
      injection He as <-. cbn [forallb]. unfold url_safe at 1. rewrite U. cbn.
      apply (IH rest t); [ lia | assumption | assumption ]. }
    destruct (_ && _); [ discriminate He | ].
    destruct ((55296 <=? u)%N && (u <=? 56319)%N) eqn:High.
    + destruct rest as [ | v rest' ]; [ discriminate He | ].
      destruct ((56320 <=? v)%N && (v <=? 57343)%N) eqn:Low; [ | discriminate He ].
      destruct (encodeURIComponent rest') as [ t | ] eqn:E; [ | discriminate He ].
      injection He as <-. rewrite forallb_app.
      apply andb_true_iff in High as [ H1 H2 ]. apply andb_true_iff in Low as [ L1 L2 ].
      apply N.leb_le in H1, H2, L1, L2.
      inversion Hrest as [ | ? ? Hv Hrest' ]; subst.
      rewrite escaped_url_safe by lia. cbn.
      apply (IH rest' t); [ cbn in Hn; lia | assumption | assumption ].
    + destruct (encodeURIComponent rest) as [ t | ] eqn:E; [ | discriminate He ].
      injection He as <-. rewrite forallb_app.
      rewrite escaped_url_safe by lia. cbn.
      apply (IH rest t); [ lia | assumption | assumption ].
Qed.

(** X16.  The address [searchCarByPlate] asks for is the lookup address
    followed by [?plate=] and the encoded plate, in which every character
    is an unreserved one or belongs to a percent escape: nothing of the
    plate can end the parameter or start another one.  A plate that cannot
    be encoded makes the function throw, before any request. *)
Theorem searchCarByPlate_url (licensePlate : jsstring) (w : world) :
  Forall is_code_unit licensePlate ->
  match encodeURIComponent licensePlate with
  | Some plate =>
      forallb url_safe plate = true /\
      requests (log (snd (searchCarByPlate licensePlate w))) =
        requests (log w) ++ [(cars_byPlate ++ js "?plate=" ++ plate, plain_request)]
  | None =>
      searchCarByPlate licensePlate w =
        (Throw (mkError "URIError" URIError_message), w)
  end.
Proof.
  intros Hs. unfold searchCarByPlate.
  destruct (encodeURIComponent licensePlate) as [ plate | ] eqn:E; [ | reflexivity ].
  split.
  - exact (encodeURIComponent_url_safe _ licensePlate plate (le_n _) Hs E).
  - rewrite apiRequest_eq. cbn [snd]. apply requests_requested.
Qed.

(** *** A search that finds the car *)

(** X17.  [searchVehicle], when the lookup of the plate gives a car and the
    second request gives its history, asks for the history of the car at
    the address built from the id of the lookup (which has to convert to a
    string); a history without complaints is shown as the card that says
    so, whatever the rest of the answer holds, and no dialog is shown. *)
Theorem searchVehicle_no_complaints (w : world) (text plate url : jsstring)
    (r r' : response) (car id : value) (history : list (jsstring * value)) :
  has_elements ["searchPlate"; "loadingSpinner"; "searchResults"]%string w ->
  control_value w "searchPlate" = Some text ->
  trim text <> [] ->
  encodeURIComponent (trim text) = Some plate ->
  network w (fetched w) = Normal r ->
  ok r = true ->
  json r = Normal car ->
  get car (js "id") = Normal id ->
  cars_history id = Normal url ->
  network w (S (fetched w)) = Normal r' ->
  ok r' = true ->
  json r' = Normal (VObj history) ->
  own_property (js "complaints") history = VArr [] ->
  exists w',
    searchVehicle w = (Normal tt, w') /\
    inner_of w' "searchResults" = Some no_complaints_card /\
    log w' =
      log w ++ [ Fetch (cars_byPlate ++ js "?plate=" ++ plate) plain_request;
                 Fetch url plain_request ].
Proof.
  intros Hpage Htext Hplate Hencode Hnet Hok Hjson Hid Hurl Hnet' Hok' Hjson' Hnone.
  elements Hpage.
  rename el into box, Hel into Hbox, el0 into spinner, Hel0 into Hspinner,
         el1 into results, Hel1 into Hresults.
  unfold control_value in Htext. rewrite Hbox in Htext. injection Htext as Htext.
  unfold searchVehicle, value_of.
  unfold bind at 1. unfold bind at 1, getElementById at 1. rewrite Hbox.
  unfold property at 1, ret at 1. rewrite Htext.
  assert (T : negb (truthy (VStr (trim text))) = false).
  { destruct (trim text); [ now elim Hplate | reflexivity ]. }
  rewrite T.
  rewrite (bind_Normal _ _ _ _ _ (showLoading_eq true w spinner Hspinner)).
  unfold searchCarByPlate. rewrite Hencode.
  rewrite (bind_Normal _ _ _ _ _ (apiRequest_eq _ _ _)).
  assert (R : rejection (network w (fetched w)) = None).
  { unfold rejection. now rewrite Hnet, Hjson, Hok. }
  assert (S1 : settled (network w (fetched w)) = Success car).
  { unfold settled. rewrite R, Hnet, Hjson. reflexivity. }
  cbn [network fetched set_document]. rewrite S1.
  unfold requested. cbn [network fetched set_document]. rewrite R.
  erewrite (bind_Normal (showLoading false)); cycle 1.
  { apply showLoading_eq with (spinner := with_display (js "flex") spinner).
    cbn. now rewrite Hspinner. }
  unfold bind at 1, lift at 1. rewrite Hid.
  rewrite (bind_Normal _ _ _ _ _ (getCarComplaintHistory_eq _ _ _ Hurl)).
  assert (R' : rejection (network w (S (fetched w))) = None).
  { unfold rejection. now rewrite Hnet', Hjson', Hok'. }
  unfold settled, requested. cbn [network fetched set_document count_fetch add_event].
  rewrite R', Hnet', Hjson'.
  unfold displaySearchResults. primitives. cbn. rewrite Hnone. cbn.
  rewrite Hresults. cbn.
  eexists. split; [ reflexivity | ].
  unfold inner_of. cbn. rewrite Hresults. cbn.
  split; [ reflexivity | ]. now rewrite <- !app_assoc.
Qed.

End Properties.

(** ** [renderMarkdown] *)

(** C5.  [renderMarkdown] is the composition of four replacements, bold
    first, then headings, then list items, then newlines; in particular it
    maps [**x**] to [<strong>x</strong>], [### Title] to [<h3>Title</h3>],
    [- item] to [<li>item</li>] and the two lines [a] and [b] to
    [a<br>b]. *)
Theorem renderMarkdown_rules :
  (forall text,
     renderMarkdown text =
       RegExp.replace Markdown.newline (js "<br>")
         (RegExp.replace Markdown.list_item (js "<li>$1</li>")
            (RegExp.replace Markdown.header (js "<h3>$1</h3>")
               (RegExp.replace Markdown.bold (js "<strong>$1</strong>") text)))) /\
  renderMarkdown (js "**x**") = js "<strong>x</strong>" /\
  renderMarkdown (js "### Title") = js "<h3>Title</h3>" /\
  renderMarkdown (js "- item") = js "<li>item</li>" /\
  renderMarkdown (js "a" ++ [10%N] ++ js "b") = js "a<br>b" /\
  renderMarkdown (js "### **T**" ++ [10%N] ++ js "- a **b**")
    = js "<h3><strong>T</strong></h3><br><li>a <strong>b</strong></li>".
Proof.
  split; [ reflexivity | ].
  repeat split; vm_compute; reflexivity.
Qed.

Lemma replace_newline_no_line_feed (found : bool) (left right : jsstring) :
  Forall (fun u => u <> 10%N)
    (RegExp.replace_from Markdown.newline (js "<br>") found 0 left right).
Proof.
  revert found left. induction right as [ | c right IH ]; intros found left.
  - cbn. rewrite andb_false_r. cbn. constructor.
  - cbn [RegExp.replace_from]. cbn [RegExp.global Markdown.newline negb].
    rewrite andb_false_r.
    unfold RegExp.match_at. cbn [RegExp.match_terms RegExp.match_term RegExp.source
      RegExp.multiline Markdown.newline RegExp.one RegExp.after RegExp.before
      RegExp.captures RegExp.atom_matches].
    destruct (N.eqb 10 c) eqn:E.
    + unfold RegExp.text_between. cbn [RegExp.before List.length].
      replace (S (List.length left) - List.length left) with 1 by lia.
      cbn [firstn rev app]. cbn [List.length].
      apply Forall_app. split; [ | apply IH ].
      vm_compute. repeat constructor; discriminate.
    + constructor; [ | apply IH ].
      intros ->. now rewrite N.eqb_refl in E.
Qed.

(** X7.  What [renderMarkdown] returns contains no line feed: every one has
    become a line break tag. *)
Theorem renderMarkdown_no_line_feed (text : jsstring) :
  Forall (fun u => u <> 10%N) (renderMarkdown text).
Proof. unfold renderMarkdown, RegExp.replace. apply replace_newline_no_line_feed. Qed.

(** *** The rules of [renderMarkdown] on a line *)

Section Rendering.
Import RegExp.

Lemma replace_from_skip r template found (s : jsstring) :
  forall left right,
  replace_from r template found (List.length s) left (s ++ right) =
    replace_from r template found 0 (rev s ++ left) right.
Proof.
  induction s as [ | c s IH ]; intros left right; [ reflexivity | ].
  cbn [List.length app replace_from rev]. rewrite IH. now rewrite <- app_assoc.
Qed.

(** Where the pattern matches at no position of [s], the text is copied. *)
Lemma replace_from_copy r template (s : jsstring) :
  forall found left right,
  (forall l1 c r1, s = l1 ++ c :: r1 ->
     match_at r (rev l1 ++ left) (c :: r1 ++ right) = None) ->
  replace_from r template found 0 left (s ++ right) =
    s ++ replace_from r template found 0 (rev s ++ left) right.
Proof.
  induction s as [ | c s IH ]; intros found left right H; [ reflexivity | ].
  cbn [app replace_from].
  pose proof (H [] c s eq_refl) as H0. cbn [rev app] in H0. rewrite H0.
  destruct (found && negb (global r)); cbn [rev]; rewrite <- app_assoc; cbn [app];
    f_equal; apply IH; intros l1 c' r1 ->;
    specialize (H (c :: l1) c' r1 eq_refl); cbn [rev] in H;
    now rewrite <- app_assoc in H.
Qed.

(** Where the pattern matches nowhere, the text is returned as it is. *)
Lemma replace_from_identity r template (s : jsstring) :
  forall found left,
  (forall l1 r1, s = l1 ++ r1 -> match_at r (rev l1 ++ left) r1 = None) ->
  replace_from r template found 0 left s = s.
Proof.
  induction s as [ | c s IH ]; intros found left H.
  - cbn. pose proof (H [] [] eq_refl) as H0. cbn [rev app] in H0. rewrite H0.
    now destruct (found && negb (global r)).
  - cbn [replace_from].
    pose proof (H [] (c :: s) eq_refl) as H0. cbn [rev app] in H0. rewrite H0.
    destruct (found && negb (global r)); f_equal; apply IH; intros l1 r1 ->;
      specialize (H (c :: l1) r1 eq_refl); cbn [rev] in H;
      now rewrite <- app_assoc in H.
Qed.

Lemma replace_from_end r template found left :
  match_at r left [] = None ->
  replace_from r template found 0 left [] = [].
Proof. intros H. cbn. rewrite H. now destruct (found && negb (global r)). Qed.

Lemma match_terms_chars m (s : jsstring) ts k :
  forall left right caps,
  match_terms m (chars s ++ ts) k (mkPosition left (s ++ right) caps) =
    match_terms m ts k (mkPosition (rev s ++ left) right caps).
Proof.
  induction s as [ | c s IH ]; intros left right caps; [ reflexivity | ].
  cbn [chars map app match_terms match_term]. unfold one at 1.
  cbn [after before captures atom_matches]. rewrite N.eqb_refl.
  fold (chars s). rewrite IH. cbn [rev]. now rewrite <- app_assoc.
Qed.

Lemma lazy_star_through a k caps (x : jsstring) :
  forall left rest,
  (forall c, In c x -> atom_matches a c = true) ->
  (forall l c r, In c x -> k (mkPosition l (c :: r) caps) = None) ->
  lazy_star a k caps left (x ++ rest) = lazy_star a k caps (rev x ++ left) rest.
Proof.
  induction x as [ | c x IH ]; intros left rest Ha Hk; [ reflexivity | ].
  cbn [app lazy_star]. rewrite (Hk left c (x ++ rest) (or_introl eq_refl)).
  rewrite (Ha c (or_introl eq_refl)).
  rewrite IH.
  - cbn [rev]. now rewrite <- app_assoc.
  - intros c' Hc'. apply Ha. now right.
  - intros l c' r Hc'. apply Hk. now right.
Qed.

Lemma lazy_star_here a k caps (left right : jsstring) q :
  k (mkPosition left right caps) = Some q ->
  lazy_star a k caps left right = Some q.
Proof. intros H. destruct right; cbn [lazy_star]; now rewrite H. Qed.

Lemma greedy_star_to_end a k caps (x : jsstring) :
  forall left q,
  (forall c, In c x -> atom_matches a c = true) ->
  k (mkPosition (rev x ++ left) [] caps) = Some q ->
  greedy_star a k caps left x = Some q.
Proof.
  induction x as [ | c x IH ]; intros left q Ha Hk; [ exact Hk | ].
  cbn [greedy_star]. rewrite (Ha c (or_introl eq_refl)).
  rewrite (IH (c :: left) q); [ reflexivity | | ].
  - intros c' Hc'. apply Ha. now right.
  - cbn [rev] in Hk. now rewrite <- app_assoc in Hk.
Qed.

Lemma plain_text_app (s t : jsstring) :
  plain_text (s ++ t) = plain_text s && plain_text t.
Proof. apply forallb_app. Qed.

Lemma plain_text_In (s : jsstring) (c : code_unit) :
  plain_text s = true -> In c s -> c <> 42%N /\ is_line_terminator c = false.
Proof.
  unfold plain_text. rewrite forallb_forall. intros H Hc.
  specialize (H c Hc). apply andb_true_iff in H as [ A B ].
  apply negb_true_iff in A, B. apply N.eqb_neq in A. now split.
Qed.

Lemma firstn_rev_app (x rest : jsstring) :
  rev (firstn (List.length (rev x ++ rest) - List.length rest) (rev x ++ rest)) = x.
Proof.
  rewrite length_app, Nat.add_sub, <- (Nat.add_0_r (List.length (rev x))).
  rewrite firstn_app_2. cbn. rewrite app_nil_r. apply rev_involutive.
Qed.


Lemma replace_from_match r template found left (m b : jsstring) q :
  found && negb (global r) = false ->
  m <> [] ->
  match_at r left (m ++ b) = Some q ->
  before q = rev m ++ left ->
  replace_from r template found 0 left (m ++ b) =
    substitution (group_count (source r)) m (captures q) template
    ++ replace_from r template true 0 (rev m ++ left) b.
Proof.
  intros Hfound Hm Hmatch Hbefore.
  destruct m as [ | c m ]; [ now elim Hm | ].
  cbn [app replace_from]. rewrite Hfound. cbn [app] in Hmatch. rewrite Hmatch.
  unfold text_between. cbn [before]. rewrite Hbefore, firstn_rev_app.
  rewrite replace_from_skip. cbn [rev]. now rewrite <- app_assoc.
Qed.

(** **** Bold *)

Lemma bold_no_match left (c : code_unit) right :
  c <> 42%N -> match_at Markdown.bold left (c :: right) = None.
Proof.
  intros H. unfold match_at, Markdown.bold. change (js "**") with [42; 42]%N.
  cbn -[N.eqb]. apply N.eqb_neq in H.
  rewrite N.eqb_sym in H. now rewrite H.
Qed.

Lemma bold_no_match_end left : match_at Markdown.bold left [] = None.
Proof. reflexivity. Qed.

Lemma bold_match left (x b : jsstring) :
  plain_text x = true ->
  match_at Markdown.bold left ((js "**" ++ x ++ js "**") ++ b) =
    Some (mkPosition (rev (js "**" ++ x ++ js "**") ++ left) b [(1, x)]).
Proof.
  intros Hx. rewrite <- !app_assoc.
  unfold match_at, Markdown.bold. cbn [source multiline].
  rewrite match_terms_chars.
  cbn [app match_terms match_term star before after captures].
  rewrite lazy_star_through.
  - apply lazy_star_here. cbn [before after captures].
    rewrite <- (app_nil_r (chars (js "**"))).
    rewrite match_terms_chars. cbn [match_terms].
    unfold text_between. cbn [before].
    rewrite firstn_rev_app.
    rewrite !rev_app_distr. now rewrite <- !app_assoc.
  - intros c Hc. cbn. destruct (plain_text_In x c Hx Hc) as [ _ -> ]. reflexivity.
  - intros l c r Hc. destruct (plain_text_In x c Hx Hc) as [ N _ ].
    change (js "**") with [42; 42]%N. cbn -[N.eqb]. apply N.eqb_neq in N. rewrite N.eqb_sym in N. now rewrite N.
Qed.

Lemma replace_bold_identity template (s : jsstring) found left :
  plain_text s = true ->
  replace_from Markdown.bold template found 0 left s = s.
Proof.
  intros Hs. apply replace_from_identity. intros l1 [ | c r1 ] ->.
  - apply bold_no_match_end.
  - apply bold_no_match.
    apply (plain_text_In (l1 ++ c :: r1) c Hs), in_elt.
Qed.

Lemma replace_bold (a x b : jsstring) :
  plain_text a = true -> plain_text x = true -> plain_text b = true ->
  replace Markdown.bold (js "<strong>$1</strong>") (a ++ js "**" ++ x ++ js "**" ++ b) =
    a ++ js "<strong>" ++ x ++ js "</strong>" ++ b.
Proof.
  intros Ha Hx Hb. unfold replace.
  rewrite replace_from_copy.
  - f_equal.
    replace (js "**" ++ x ++ js "**" ++ b) with ((js "**" ++ x ++ js "**") ++ b)
      by now rewrite <- !app_assoc.
    erewrite replace_from_match;
      [ | reflexivity | discriminate | now apply bold_match | reflexivity ].
    cbn [captures]. rewrite replace_bold_identity by assumption.
    change (substitution (group_count (source Markdown.bold))
              (js "**" ++ x ++ js "**") [(1, x)] (js "<strong>$1</strong>"))
      with (js "<strong>" ++ x ++ js "</strong>").
    now rewrite <- !app_assoc.
  - intros l1 c r1 ->. apply bold_no_match.
    apply (plain_text_In (l1 ++ c :: r1) c Ha), in_elt.
Qed.

(** **** Headings and list items *)

Lemma single_line_In (s : jsstring) (c : code_unit) :
  single_line s = true -> In c s -> is_line_terminator c = false.
Proof.
  unfold single_line. rewrite forallb_forall. intros H Hc.
  specialize (H c Hc). now apply negb_true_iff in H.
Qed.

Lemma plain_single_line (s : jsstring) : plain_text s = true -> single_line s = true.
Proof.
  unfold plain_text, single_line. rewrite !forallb_forall. intros H c Hc.
  specialize (H c Hc). now apply andb_true_iff in H.
Qed.

Lemma line_rule_no_match_inside prefix (c : code_unit) left right :
  is_line_terminator c = false ->
  match_at (line_rule prefix) (c :: left) right = None.
Proof.
  intros H. unfold match_at, line_rule.
  cbn [source multiline app match_terms match_term].
  unfold at_line_start. cbn [before]. now rewrite H.
Qed.

Lemma line_rule_no_match_start (p0 : code_unit) prefix (right : jsstring) :
  match right with c :: _ => c <> p0 | [] => True end ->
  match_at (line_rule (p0 :: prefix)) [] right = None.
Proof.
  intros H. unfold match_at, line_rule.
  cbn -[N.eqb]. destruct right as [ | c right ]; [ reflexivity | ].
  unfold one. cbn [after atom_matches].
  apply N.eqb_neq in H. rewrite N.eqb_sym in H. now rewrite H.
Qed.

Lemma line_rule_no_match_end prefix left : match_at (line_rule prefix) left [] = None.
Proof.
  unfold match_at, line_rule. cbn [source multiline app match_terms match_term].
  destruct (at_line_start true _); [ | reflexivity ].
  now destruct prefix.
Qed.

Lemma replace_line_rule_identity (p0 : code_unit) prefix template (s : jsstring) :
  single_line s = true ->
  match s with c :: _ => c <> p0 | [] => True end ->
  replace (line_rule (p0 :: prefix)) template s = s.
Proof.
  intros Hs Hstart. apply replace_from_identity. intros l1 r1 ->.
  rewrite app_nil_r. destruct (rev l1) as [ | c l ] eqn:E.
  - apply (f_equal (@rev _)) in E. rewrite rev_involutive in E. subst l1.
    now apply line_rule_no_match_start.
  - apply line_rule_no_match_inside, (single_line_In _ c Hs).
    apply in_or_app. left. apply in_rev. rewrite E. now left.
Qed.

Lemma line_rule_match prefix (t : jsstring) :
  single_line t = true -> t <> [] ->
  match_at (line_rule prefix) [] (prefix ++ t) =
    Some (mkPosition (rev (prefix ++ t) ++ []) [] [(1, t)]).
Proof.
  intros Ht Hne. destruct t as [ | c t ]; [ now elim Hne | ].
  unfold match_at, line_rule. cbn [source multiline app match_terms match_term].
  unfold at_line_start at 1. cbn [before].
  rewrite match_terms_chars. cbn [match_terms match_term].
  unfold one at 1. cbn [after before captures atom_matches].
  rewrite (single_line_In _ c Ht (or_introl eq_refl)). cbn [negb].
  unfold star. cbn [after before captures].
  apply greedy_star_to_end.
  - intros c' Hc'. cbn. now rewrite (single_line_In _ c' Ht (or_intror Hc')).
  - unfold at_line_end, text_between. cbn [after before captures].
    change (rev t ++ c :: rev prefix ++ [])
      with (rev t ++ [c] ++ rev prefix ++ []).
    rewrite (app_assoc (rev t) [c]). change (rev t ++ [c]) with (rev (c :: t)).
    rewrite firstn_rev_app, rev_app_distr. now rewrite <- app_assoc.
Qed.

Lemma replace_line_rule prefix template (t : jsstring) :
  single_line t = true -> t <> [] ->
  replace (line_rule prefix) template (prefix ++ t) =
    substitution (group_count (source (line_rule prefix))) (prefix ++ t)
      [(1, t)] template.
Proof.
  intros Ht Hne. unfold replace.
  rewrite <- (app_nil_r (prefix ++ t)) at 1.
  erewrite replace_from_match;
    [ | reflexivity | | rewrite app_nil_r; now apply line_rule_match | reflexivity ].
  - cbn [captures]. rewrite replace_from_end by apply line_rule_no_match_end.
    apply app_nil_r.
  - intros E. apply app_eq_nil in E as [ _ E ]. now elim Hne.
Qed.

Lemma newline_no_match left (s : jsstring) :
  match s with c :: _ => is_line_terminator c = false | [] => True end ->
  match_at Markdown.newline left s = None.
Proof.
  intros H. destruct s as [ | c s ]; [ reflexivity | ].
  unfold match_at. cbn -[N.eqb]. unfold one. cbn -[N.eqb].
  destruct (N.eqb_spec 10 c) as [ <- | _ ]; [ discriminate H | reflexivity ].
Qed.

Lemma replace_newline_identity template (s : jsstring) :
  single_line s = true ->
  replace Markdown.newline template s = s.
Proof.
  intros Hs. apply replace_from_identity. intros l1 r1 ->.
  apply newline_no_match. destruct r1 as [ | c r1 ]; [ exact I | ].
  apply (single_line_In _ c Hs), in_elt.
Qed.

Lemma single_line_app (s t : jsstring) :
  single_line (s ++ t) = single_line s && single_line t.
Proof. apply forallb_app. Qed.

Lemma starts_no_rule (s : jsstring) :
  starts_a_rule s = false ->
  match s with c :: _ => c <> 35%N | [] => True end /\
  match s with c :: _ => c <> 45%N | [] => True end.
Proof.
  destruct s as [ | c s ]; [ now split | ]. cbn -[N.eqb].
  intros H. apply orb_false_iff in H as [ A B ].
  apply N.eqb_neq in A, B. now split.
Qed.

(** The last three rules leave a line alone that does not start with the
    character of a heading or of a list item. *)
Lemma line_rules_identity (s : jsstring) :
  single_line s = true ->
  starts_a_rule s = false ->
  replace Markdown.newline (js "<br>")
    (replace Markdown.list_item (js "<li>$1</li>")
       (replace Markdown.header (js "<h3>$1</h3>") s)) = s.
Proof.
  intros Hs Hstart. destruct (starts_no_rule s Hstart) as [ H35 H45 ].
  change Markdown.header with (line_rule (35%N :: js "## ")).
  change Markdown.list_item with (line_rule (45%N :: js " ")).
  rewrite (replace_line_rule_identity 35%N _ _ s) by assumption.
  rewrite (replace_line_rule_identity 45%N _ _ s) by assumption.
  now apply replace_newline_identity.
Qed.

Lemma renderMarkdown_identity (text : jsstring) :
  plain_text text = true ->
  starts_a_rule text = false ->
  renderMarkdown text = text.
Proof.
  intros Hplain Hstart. unfold renderMarkdown.
  unfold replace at 4. rewrite replace_bold_identity by assumption.
  apply line_rules_identity; [ now apply plain_single_line | assumption ].
Qed.

(** X18.  [renderMarkdown] returns a text of one line as it is when the
    text has no asterisk and does not start with [#] or [-]: nothing else
    has a meaning for it, HTML markup included, which goes through
    unescaped. *)
Theorem renderMarkdown_plain_text (text : jsstring) :
  plain_text text = true ->
  starts_a_rule text = false ->
  renderMarkdown text = text.
Proof. apply renderMarkdown_identity. Qed.

(** X19.  [renderMarkdown] makes [**x**] bold wherever it stands in a line:
    with [a], [x] and [b] free of asterisks and of line terminators, and
    [a] not starting with [#] or [-], the text [a**x**b] becomes
    [a<strong>x</strong>b]. *)
Theorem renderMarkdown_bold (a x b : jsstring) :
  plain_text a = true ->
  plain_text x = true ->
  plain_text b = true ->
  starts_a_rule a = false ->
  renderMarkdown (a ++ js "**" ++ x ++ js "**" ++ b) =
    a ++ js "<strong>" ++ x ++ js "</strong>" ++ b.
Proof.
  intros Ha Hx Hb Hstart. unfold renderMarkdown.
  rewrite replace_bold by assumption.
  apply line_rules_identity.
  - rewrite !single_line_app.
    rewrite (plain_single_line a), (plain_single_line x), (plain_single_line b)
      by assumption.
    reflexivity.
  - destruct a; [ reflexivity | exact Hstart ].
Qed.

(** X20.  [renderMarkdown] turns a line that is [### ] followed by a text
    into a heading and a line that is [- ] followed by a text into a list
    item, for every text of at least one character that has no asterisk and
    no line terminator; the marker alone, followed by nothing, stays as it
    is. *)
Theorem renderMarkdown_line_rules (t : jsstring) :
  plain_text t = true ->
  t <> [] ->
  renderMarkdown (js "### " ++ t) = js "<h3>" ++ t ++ js "</h3>" /\
  renderMarkdown (js "- " ++ t) = js "<li>" ++ t ++ js "</li>" /\
  renderMarkdown (js "### ") = js "### " /\
  renderMarkdown (js "- ") = js "- ".
Proof.
  intros Ht Hne. pose proof (plain_single_line t Ht) as Hline.
  unfold renderMarkdown. repeat split; try (vm_compute; reflexivity).
  - unfold replace at 4.
    rewrite replace_bold_identity by (rewrite plain_text_app, Ht; reflexivity).
    change Markdown.header with (line_rule (js "### ")).
    rewrite replace_line_rule by assumption.
    change (substitution (group_count (source (line_rule (js "### "))))
              (js "### " ++ t) [(1, t)] (js "<h3>$1</h3>"))
      with (js "<h3>" ++ t ++ js "</h3>").
    change Markdown.list_item with (line_rule (45%N :: js " ")).
    rewrite replace_line_rule_identity;
      [ | rewrite !single_line_app, Hline; reflexivity | discriminate ].
    apply replace_newline_identity. rewrite !single_line_app, Hline. reflexivity.
  - unfold replace at 4.
    rewrite replace_bold_identity by (rewrite plain_text_app, Ht; reflexivity).
    change Markdown.header with (line_rule (35%N :: js "## ")).
    rewrite replace_line_rule_identity;
      [ | rewrite !single_line_app, Hline; reflexivity | discriminate ].
    change Markdown.list_item with (line_rule (js "- ")).
    rewrite replace_line_rule by assumption.
    change (substitution (group_count (source (line_rule (js "- "))))
              (js "- " ++ t) [(1, t)] (js "<li>$1</li>"))
      with (js "<li>" ++ t ++ js "</li>").
    apply replace_newline_identity. rewrite !single_line_app, Hline. reflexivity.
Qed.

End Rendering.

(** *** Line by line *)

Section Lines.
Import RegExp.

Lemma term_nested_ind (P : term -> Prop) :
  (forall a, P (One a)) ->
  (forall a g, P (Star a g)) ->
  (forall a g, P (Plus a g)) ->
  (forall i body, Forall P body -> P (Group i body)) ->
  P Bol -> P Eol ->
  forall t, P t.
Proof.
  intros hOne hStar hPlus hGroup hBol hEol.
  exact (fix F (t : term) : P t :=
           match t with
           | One a => hOne a
           | Star a g => hStar a g
           | Plus a g => hPlus a g
           | Group i body =>
               hGroup i body
                 ((fix G (ts : list term) : Forall P ts :=
                     match ts with
                     | [] => Forall_nil P
                     | t' :: ts' => Forall_cons t' (F t') (G ts')
                     end) body)
           | Bol => hBol
           | Eol => hEol
           end).
Qed.

Lemma one_taken a k p :
  one a k p = match taken a p with Some p1 => k p1 | None => None end.
Proof.
  unfold one, taken. destruct (after p) as [ | c r ]; [ reflexivity | ].
  now destruct (atom_matches a c).
Qed.

Lemma lazy_star_taken a k caps l r :
  lazy_star a k caps l r =
    match k (mkPosition l r caps) with
    | Some q => Some q
    | None =>
        match taken a (mkPosition l r caps) with
        | Some p1 => lazy_star a k (captures p1) (before p1) (after p1)
        | None => None
        end
    end.
Proof.
  unfold taken. destruct r as [ | c r ]; cbn [lazy_star after before captures].
  - reflexivity.
  - destruct (k _); [ reflexivity | ]. now destruct (atom_matches a c).
Qed.

Lemma greedy_star_taken a k caps l r :
  greedy_star a k caps l r =
    match taken a (mkPosition l r caps) with
    | Some p1 =>
        match greedy_star a k (captures p1) (before p1) (after p1) with
        | Some q => Some q
        | None => k (mkPosition l r caps)
        end
    | None => k (mkPosition l r caps)
    end.
Proof.
  unfold taken. destruct r as [ | c r ]; cbn [greedy_star after before captures].
  - reflexivity.
  - now destruct (atom_matches a c).
Qed.

Lemma taken_shorter a p p1 :
  taken a p = Some p1 -> List.length (after p) = S (List.length (after p1)).
Proof.
  unfold taken. destruct (after p) as [ | c r ]; [ discriminate | ].
  destruct (atom_matches a c); [ | discriminate ].
  intros E. injection E as <-. reflexivity.
Qed.

Section Related.
Variable m : bool.
Variable R : position -> position -> Prop.

Lemma star_respects a greedy k k' :
  (forall p p', R p p' -> both R (taken a p) (taken a p')) ->
  respects R k k' ->
  respects R (star a greedy k) (star a greedy k').
Proof.
  intros Ha Hk.
  assert (forall n p p', List.length (after p) <= n -> R p p' ->
            both R (star a greedy k p) (star a greedy k' p')) as H.
  { induction n as [ | n IH ]; intros [ l r c ] [ l' r' c' ] Hn HR;
      unfold star; cbn [before after captures] in *;
      pose proof (Ha _ _ HR) as Hone; pose proof (Hk _ _ HR) as Hhere;
      destruct greedy.
    all: try rewrite (greedy_star_taken a k), (greedy_star_taken a k').
    all: try rewrite (lazy_star_taken a k), (lazy_star_taken a k').
    all: destruct (taken a (mkPosition l r c)) as [ p1 | ] eqn:E1;
         destruct (taken a (mkPosition l' r' c')) as [ p1' | ] eqn:E1';
         cbn [both] in Hone; try contradiction.
    all: try (apply taken_shorter in E1; cbn [after] in E1; lia).
    all: try exact Hhere.
    all: try (destruct (k (mkPosition l r c)) as [ q | ];
              destruct (k' (mkPosition l' r' c')) as [ q' | ];
              cbn [both] in Hhere |- *; try contradiction; exact Hhere).
    - assert (both R (star a true k p1) (star a true k' p1')) as Hrest
        by (apply IH; [ apply taken_shorter in E1; cbn [after] in E1; lia | exact Hone ]).
      unfold star in Hrest.
      destruct (greedy_star a k _ _ _), (greedy_star a k' _ _ _);
        cbn [both] in Hrest |- *; try contradiction; assumption.
    - assert (both R (star a false k p1) (star a false k' p1')) as Hrest
        by (apply IH; [ apply taken_shorter in E1; cbn [after] in E1; lia | exact Hone ]).
      unfold star in Hrest.
      destruct (k (mkPosition l r c)) as [ q | ];
        destruct (k' (mkPosition l' r' c')) as [ q' | ];
        cbn [both] in Hhere |- *; try contradiction; assumption. }
  intros p p' HR. apply (H (List.length (after p))); [ lia | exact HR ].
Qed.

Lemma one_respects a k k' :
  (forall p p', R p p' -> both R (taken a p) (taken a p')) ->
  respects R k k' ->
  respects R (one a k) (one a k').
Proof.
  intros Ha Hk p p' HR. rewrite !one_taken. specialize (Ha p p' HR).
  destruct (taken a p), (taken a p'); cbn [both] in Ha |- *;
    try contradiction; [ now apply Hk | exact I ].
Qed.

Lemma match_term_respects t :
  term_respects m R t ->
  forall k k', respects R k k' ->
  respects R (match_term m t k) (match_term m t k').
Proof.
  induction t as [ a | a g | a g | i body IH | | ] using term_nested_ind;
    intros Ht k k' Hk; cbn [match_term term_respects] in *.
  - now apply one_respects.
  - now apply star_respects.
  - apply one_respects; [ exact Ht | now apply star_respects ].
  - destruct Ht as [ Hbody Hcap ]. intros p p' HR.
    assert (respects R (fun q => k (captured i p q)) (fun q => k' (captured i p' q)))
      as Hin by (intros q q' Hq; apply Hk, Hcap; assumption).
    unfold captured in Hin. revert Hin HR.
    generalize (fun q => k (mkPosition (before q) (after q)
                              ((i, text_between p q) :: captures q))).
    generalize (fun q => k' (mkPosition (before q) (after q)
                               ((i, text_between p' q) :: captures q))).
    intros c' c Hc. revert p p'. change (respects R
      ((fix sequence (ts : list term) (k0 : continuation) : continuation :=
          match ts with [] => k0 | t' :: ts' => match_term m t' (sequence ts' k0) end) body c)
      ((fix sequence (ts : list term) (k0 : continuation) : continuation :=
          match ts with [] => k0 | t' :: ts' => match_term m t' (sequence ts' k0) end) body c')).
    clear Hcap. revert c c' Hc.
    induction IH as [ | t body Ht _ IHbody ]; intros c c' Hc; [ exact Hc | ].
    destruct Hbody as [ Hhead Hbody ].
    apply Ht; [ exact Hhead | ]. now apply IHbody.
  - intros p p' HR. rewrite (Ht p p' HR). destruct (at_line_start m p'); [ now apply Hk | exact I ].
  - intros p p' HR. rewrite (Ht p p' HR). destruct (at_line_end m p'); [ now apply Hk | exact I ].
Qed.

Lemma match_terms_respects ts :
  Forall (term_respects m R) ts ->
  forall k k', respects R k k' ->
  respects R (match_terms m ts k) (match_terms m ts k').
Proof.
  induction 1 as [ | t ts Ht _ IH ]; intros k k' Hk; cbn [match_terms]; [ exact Hk | ].
  apply match_term_respects; [ exact Ht | now apply IH ].
Qed.

End Related.


(** **** A line terminator after the text *)

Lemma extended_atom left right (t0 : code_unit) b a :
  atom_matches a t0 = false ->
  forall p p', extended left right (t0 :: b) p p' ->
  both (extended left right (t0 :: b)) (taken a p) (taken a p').
Proof.
  intros Ha [ l r c ] p' [ -> [ x [ Hl Hr ] ] ]. cbn [before after captures] in *.
  unfold taken. cbn [before after captures].
  destruct r as [ | u r ]; cbn [app].
  - rewrite Ha. exact I.
  - destruct (atom_matches a u); [ | exact I ]. cbn [both].
    split; [ reflexivity | ]. cbn [before after].
    exists (x ++ [u]). rewrite rev_app_distr, <- app_assoc. cbn [rev app].
    split; [ now rewrite Hl | now rewrite Hr, <- app_assoc ].
Qed.

Lemma extended_captured left right tail i p p' q q' :
  extended left right tail p p' -> extended left right tail q q' ->
  extended left right tail (captured i p q) (captured i p' q').
Proof.
  intros [ -> _ ] [ -> Hq ]. split; [ reflexivity | exact Hq ].
Qed.

Lemma extended_start m left right tail p p' :
  extended left right tail p p' -> at_line_start m p = at_line_start m p'.
Proof. now intros [ -> _ ]. Qed.

Lemma extended_end left right (t0 : code_unit) b p p' :
  is_line_terminator t0 = true ->
  extended left right (t0 :: b) p p' -> at_line_end true p = at_line_end true p'.
Proof.
  intros Ht [ -> _ ]. unfold at_line_end. cbn [after].
  destruct (after p); cbn [app andb]; [ now rewrite Ht | reflexivity ].
Qed.

(** Before a line terminator a pattern matches as it does at the end of
    the text, when no character of it is a line terminator and its [$]
    stands for the end of a line. *)
Lemma match_at_extended r left right (t0 : code_unit) b :
  Forall (term_respects (multiline r) (extended left right (t0 :: b))) (source r) ->
  both (extended left right (t0 :: b))
    (match_at r left right) (match_at r left (right ++ t0 :: b)).
Proof.
  intros Hr. unfold match_at.
  apply (match_terms_respects _ _ _ Hr Some Some).
  - intros p p' H. exact H.
  - split; [ reflexivity | ]. now exists [].
Qed.

Lemma replace_from_line r template (t0 : code_unit) :
  (forall left right b,
     Forall (term_respects (multiline r) (extended left right (t0 :: b))) (source r)) ->
  (forall left, match_at r left [] = None) ->
  forall (a b : jsstring) skip found left,
  skip <= List.length a ->
  exists found',
    replace_from r template found skip left (a ++ t0 :: b) =
      replace_from r template found skip left a
      ++ t0 :: replace_from r template found' 0 (t0 :: rev a ++ left) b.
Proof.
  intros Hr Hend a b. induction a as [ | c a IH ]; intros skip found left Hskip.
  - destruct skip; [ | cbn in Hskip; lia ]. cbn [app rev].
    pose proof (match_at_extended r left [] t0 b (Hr _ _ _)) as H.
    rewrite Hend in H. cbn [app] in H.
    destruct (match_at r left (t0 :: b)) eqn:E; [ contradiction | ].
    exists found. cbn [replace_from]. rewrite Hend, E.
    now destruct (found && negb (global r)).
  - destruct skip as [ | n ].
    + cbn [app replace_from].
      pose proof (match_at_extended r left (c :: a) t0 b (Hr _ _ _)) as H.
      cbn [app] in H.
      destruct (found && negb (global r)).
      * destruct (IH 0 found (c :: left) (Nat.le_0_l _)) as [ found' E ].
        exists found'. rewrite E. cbn [rev app]. now rewrite <- !app_assoc.
      * destruct (match_at r left (c :: a)) as [ q | ];
          destruct (match_at r left (c :: a ++ t0 :: b)) as [ q' | ];
          cbn [both] in H; try contradiction.
        -- destruct H as [ -> [ x [ Hx Hq ] ] ].
           unfold text_between. cbn [before captures].
           rewrite Hx, firstn_rev_app.
           destruct x as [ | x0 x ].
           ++ destruct (IH 0 true (c :: left) (Nat.le_0_l _)) as [ found' E ].
              exists found'. rewrite E. cbn [rev app]. now rewrite <- !app_assoc.
           ++ assert (List.length x <= List.length a) as Hlen.
              { apply (f_equal (@List.length _)) in Hq.
                cbn [List.length app] in Hq. rewrite length_app in Hq. lia. }
              destruct (IH (List.length x) true (c :: left) Hlen) as [ found' E ].
              exists found'. rewrite E. cbn [rev app]. now rewrite <- !app_assoc.
        -- destruct (IH 0 found (c :: left) (Nat.le_0_l _)) as [ found' E ].
           exists found'. rewrite E. cbn [rev app]. now rewrite <- !app_assoc.
    + cbn [app replace_from].
      destruct (IH n found (c :: left)) as [ found' E ]; [ cbn in Hskip; lia | ].
      exists found'. rewrite E. cbn [rev]. now rewrite <- !app_assoc.
Qed.

(** **** Another text before the text *)

Lemma firstn_rebased (x y left : jsstring) :
  firstn (List.length (x ++ left) - List.length (y ++ left)) (x ++ left) =
    firstn (List.length x - List.length y) x.
Proof.
  rewrite !length_app.
  replace (List.length x + List.length left - (List.length y + List.length left))
    with (List.length x - List.length y) by lia.
  rewrite firstn_app.
  replace (List.length x - List.length y - List.length x) with 0 by lia.
  cbn. apply app_nil_r.
Qed.

Lemma rebased_text left left' p p' q q' :
  rebased left left' p p' -> rebased left left' q q' ->
  text_between p q = text_between p' q'.
Proof.
  intros [ y [ Hp [ Hp' _ ] ] ] [ x [ Hq [ Hq' _ ] ] ].
  unfold text_between. rewrite Hp, Hp', Hq, Hq'. now rewrite !firstn_rebased.
Qed.

Lemma rebased_atom left left' a p p' :
  rebased left left' p p' -> both (rebased left left') (taken a p) (taken a p').
Proof.
  intros [ x [ Hp [ Hp' [ Ha Hc ] ] ] ]. unfold taken. rewrite <- Ha, <- Hc.
  destruct (after p) as [ | u r ]; [ exact I | ].
  destruct (atom_matches a u); [ | exact I ]. cbn [both].
  exists (u :: x). cbn [before after captures app]. now rewrite Hp, Hp'.
Qed.

Lemma rebased_captured left left' i p p' q q' :
  rebased left left' p p' -> rebased left left' q q' ->
  rebased left left' (captured i p q) (captured i p' q').
Proof.
  intros Hp Hq. pose proof (rebased_text _ _ _ _ _ _ Hp Hq) as Ht.
  destruct Hq as [ x [ Hq [ Hq' [ Ha Hc ] ] ] ].
  exists x. unfold captured. cbn [before after captures].
  now rewrite Ht, Hc.
Qed.

Lemma rebased_start m left left' p p' :
  start_like m left left' ->
  rebased left left' p p' -> at_line_start m p = at_line_start m p'.
Proof.
  intros Hs [ x [ Hp [ Hp' _ ] ] ]. unfold at_line_start. rewrite Hp, Hp'.
  destruct x; [ exact Hs | reflexivity ].
Qed.

Lemma rebased_end m left left' p p' :
  rebased left left' p p' -> at_line_end m p = at_line_end m p'.
Proof.
  intros [ x [ _ [ _ [ Ha _ ] ] ] ]. unfold at_line_end. now rewrite Ha.
Qed.

(** A pattern with the flag [g] replaces in a text what it replaces in the
    same text after another one, when the two look the same to its [^]. *)
Lemma replace_from_rebased r template (I : jsstring -> jsstring -> Prop) :
  global r = true ->
  (forall left left' c, I left left' -> I (c :: left) (c :: left')) ->
  (forall left left', I left left' ->
     Forall (term_respects (multiline r) (rebased left left')) (source r)) ->
  forall (s : jsstring) skip found found' left left',
  I left left' ->
  replace_from r template found skip left s =
    replace_from r template found' skip left' s.
Proof.
  intros Hg Hnext Hr.
  assert (forall left left' s, I left left' ->
            both (fun q q' =>
                    captures q = captures q' /\
                    text_between (mkPosition left s []) q =
                      text_between (mkPosition left' s []) q')
              (match_at r left s) (match_at r left' s)) as Hmatch.
  { intros left left' s HI.
    assert (rebased left left' (mkPosition left s []) (mkPosition left' s [])) as H0
      by (exists []; repeat split).
    pose proof (match_terms_respects _ _ _ (Hr _ _ HI) Some Some
                  (fun p p' H => H) _ _ H0) as H.
    fold (match_at r left s) in H. fold (match_at r left' s) in H.
    destruct (match_at r left s), (match_at r left' s); cbn [both] in H |- *;
      try contradiction; [ | exact Logic.I ].
    split; [ now destruct H as [ x [ _ [ _ [ _ Hc ] ] ] ] | ].
    now apply (rebased_text left left'). }
  induction s as [ | c s IH ]; intros skip found found' left left' HI;
    (destruct skip as [ | n ]; cbn [replace_from]; [ | now auto ]);
    rewrite Hg; cbn [negb]; rewrite !andb_false_r.
  - specialize (Hmatch left left' [] HI).
    destruct (match_at r left []) as [ q | ], (match_at r left' []) as [ q' | ];
      cbn [both] in Hmatch; try contradiction; [ | reflexivity ].
    destruct Hmatch as [ -> -> ]. reflexivity.
  - specialize (Hmatch left left' (c :: s) HI).
    destruct (match_at r left (c :: s)) as [ q | ],
             (match_at r left' (c :: s)) as [ q' | ];
      cbn [both] in Hmatch; try contradiction.
    + destruct Hmatch as [ -> -> ]. f_equal.
      destruct (text_between _ q'); [ f_equal | ]; apply IH; now apply Hnext.
    + f_equal. apply IH. now apply Hnext.
Qed.

(** **** The three patterns of a line *)

Lemma bold_extended left right (t0 : code_unit) b :
  is_line_terminator t0 = true ->
  Forall (term_respects false (extended left right (t0 :: b))) (source Markdown.bold).
Proof.
  intros Ht.
  assert (atom_matches (Char 42%N) t0 = false) as Hstar
    by (cbn -[N.eqb]; apply N.eqb_neq; intros <-; discriminate Ht).
  assert (atom_matches Dot t0 = false) as Hdot by (cbn; now rewrite Ht).
  unfold Markdown.bold. cbn [source]. change (js "**") with [42; 42]%N.
  cbn [chars map app].
  repeat apply Forall_cons; try apply Forall_nil; cbn [term_respects];
    try (apply extended_atom; assumption).
  split; [ split; [ now apply extended_atom | exact I ] | ].
  intros p p' q q'. apply extended_captured.
Qed.

Lemma bold_rebased left left' :
  Forall (term_respects false (rebased left left')) (source Markdown.bold).
Proof.
  unfold Markdown.bold. cbn [source]. change (js "**") with [42; 42]%N.
  cbn [chars map app].
  repeat apply Forall_cons; try apply Forall_nil; cbn [term_respects];
    try (intros p p'; apply rebased_atom).
  split; [ split; [ intros p p'; apply rebased_atom | exact I ] | ].
  intros p p' q q'. apply rebased_captured.
Qed.

Lemma line_rule_extended prefix left right (t0 : code_unit) b :
  is_line_terminator t0 = true ->
  single_line prefix = true ->
  Forall (term_respects true (extended left right (t0 :: b)))
    (source (line_rule prefix)).
Proof.
  intros Ht Hp. unfold line_rule. cbn [source].
  assert (atom_matches Dot t0 = false) as Hdot by (cbn; now rewrite Ht).
  apply Forall_app. split.
  { apply Forall_cons; [ | apply Forall_nil ]. intros p p'. apply extended_start. }
  apply Forall_app. split.
  - unfold chars. apply Forall_map, Forall_forall. intros c Hc. cbn [term_respects].
    apply extended_atom. cbn -[N.eqb]. apply N.eqb_neq. intros ->.
    apply (single_line_In _ _ Hp) in Hc. congruence.
  - repeat apply Forall_cons; try apply Forall_nil; cbn [term_respects].
    + split; [ split; [ now apply extended_atom | exact I ] | ].
      intros p p' q q'. apply extended_captured.
    + intros p p'. now apply extended_end.
Qed.

Lemma line_rule_rebased prefix left left' :
  start_like true left left' ->
  Forall (term_respects true (rebased left left')) (source (line_rule prefix)).
Proof.
  intros Hs. unfold line_rule. cbn [source].
  apply Forall_app. split.
  { apply Forall_cons; [ | apply Forall_nil ]. intros p p'. now apply rebased_start. }
  apply Forall_app. split.
  - unfold chars. apply Forall_map, Forall_forall. intros c Hc p p'. apply rebased_atom.
  - repeat apply Forall_cons; try apply Forall_nil; cbn [term_respects].
    + split; [ split; [ intros p p'; apply rebased_atom | exact I ] | ].
      intros p p' q q'. apply rebased_captured.
    + intros p p'. apply rebased_end.
Qed.

(** The rule for bold text works on each line by itself. *)
Lemma replace_bold_lines template (a b : jsstring) :
  replace Markdown.bold template (a ++ 10%N :: b) =
    replace Markdown.bold template a ++ 10%N :: replace Markdown.bold template b.
Proof.
  unfold replace.
  destruct (replace_from_line Markdown.bold template 10%N
              (fun l r b => bold_extended l r 10%N b eq_refl)
              bold_no_match_end a b 0 false [] (Nat.le_0_l _)) as [ found' E ].
  etransitivity; [ exact E | ]. do 2 f_equal.
  apply (replace_from_rebased Markdown.bold template (fun _ _ => True));
    [ reflexivity | trivial | intros; apply bold_rebased | exact I ].
Qed.

(** So do the two rules for the start of a line. *)
Lemma replace_line_rule_lines prefix template (a b : jsstring) :
  single_line prefix = true ->
  replace (line_rule prefix) template (a ++ 10%N :: b) =
    replace (line_rule prefix) template a
    ++ 10%N :: replace (line_rule prefix) template b.
Proof.
  intros Hp. unfold replace.
  destruct (replace_from_line (line_rule prefix) template 10%N
              (fun l r b => line_rule_extended prefix l r 10%N b eq_refl Hp)
              (line_rule_no_match_end prefix) a b 0 false [] (Nat.le_0_l _))
    as [ found' E ].
  etransitivity; [ exact E | ]. do 2 f_equal.
  apply (replace_from_rebased (line_rule prefix) template (start_like true));
    [ reflexivity | intros; reflexivity | intros; now apply line_rule_rebased
    | reflexivity ].
Qed.

(** **** The rule for line feeds *)

Lemma replace_newline_flat_map template (s : jsstring) :
  forall found left,
  replace_from Markdown.newline template found 0 left s =
    flat_map (line_break template) s.
Proof.
  induction s as [ | c s IH ]; intros found left;
    [ now apply replace_from_end | ].
  cbn [replace_from flat_map]. unfold Markdown.newline at 1. cbn [global negb].
  rewrite andb_false_r. unfold match_at. cbn [multiline source Markdown.newline match_terms match_term].
  unfold one, line_break. cbn [after before captures atom_matches].
  rewrite (N.eqb_sym 10 c).
  destruct (N.eqb c 10) eqn:E.
  - unfold text_between. cbn [before captures List.length].
    replace (S (List.length left) - List.length left) with 1 by lia.
    cbn [firstn rev app group_count fold_right groups_of List.length].
    f_equal. apply IH.
  - cbn [app]. f_equal. apply IH.
Qed.

Lemma replace_newline_lines template (a b : jsstring) :
  replace Markdown.newline template (a ++ 10%N :: b) =
    replace Markdown.newline template a
    ++ substitution 0 [10%N] [] template
    ++ replace Markdown.newline template b.
Proof.
  unfold replace. rewrite !replace_newline_flat_map, flat_map_app. reflexivity.
Qed.

End Lines.

(** X21.  [renderMarkdown] works line by line: the text [a], a line feed
    and the text [b] become what [a] becomes, [<br>], and what [b]
    becomes, whatever [a] and [b] are. *)
Theorem renderMarkdown_line_by_line (a b : jsstring) :
  renderMarkdown (a ++ [10%N] ++ b) =
    renderMarkdown a ++ js "<br>" ++ renderMarkdown b.
Proof.
  unfold renderMarkdown. cbn [app].
  rewrite replace_bold_lines.
  change Markdown.header with (line_rule (js "### ")).
  change Markdown.list_item with (line_rule (js "- ")).
  rewrite !replace_line_rule_lines by reflexivity.
  rewrite replace_newline_lines. reflexivity.
Qed.

(* ================================================================== *)
(** * Properties of the chat *)
(* ================================================================== *)

Section ChatProperties.
Context {rt : Runtime}.

Lemma V_bind_Normal {A B} (c : V A) (k : A -> V B) s a s' :
  c s = (Normal a, s') -> V_bind c k s = k a s'.
Proof. intros H. unfold V_bind. now rewrite H. Qed.

Lemma V_bind_Throw {A B} (c : V A) (k : A -> V B) s e s' :
  c s = (Throw e, s') -> V_bind c k s = (Throw e, s').
Proof. intros H. unfold V_bind. now rewrite H. Qed.

Lemma on_world_eq {A} (c : M A) s r w :
  c (base s) = (r, w) -> on_world c s = (r, set_base w s).
Proof. intros H. unfold on_world. now rewrite H. Qed.

Lemma set_base_base s : set_base (base s) s = s.
Proof. now destruct s. Qed.

Lemma on_world_read {A} (global : world -> A) s :
  on_world (read global) s = (Normal (global (base s)), s).
Proof. unfold on_world, read. cbn. now rewrite set_base_base. Qed.

Lemma on_world_getElementById id s :
  on_world (getElementById id) s = (Normal (document (base s) id), s).
Proof. unfold on_world, getElementById. cbn. now rewrite set_base_base. Qed.


(** ** The two readers agree

    [sendChatMessage] on the chat is [sendChatMessage] on the world when
    the callback works on the world only. *)

Lemma on_world_bind {A B} (c : M A) (k : A -> M B) s :
  on_world (bind c k) s = V_bind (on_world c) (fun a => on_world (k a)) s.
Proof.
  unfold on_world, bind, V_bind. cbn [fst snd].
  destruct (c (base s)) as [ [ a | e ] w ]; reflexivity.
Qed.

Lemma V_bind_ext {A B} (c c' : V A) (k k' : A -> V B) s :
  c s = c' s -> (forall a s', k a s' = k' a s') -> V_bind c k s = V_bind c' k' s.
Proof.
  intros Hc H. unfold V_bind. rewrite Hc.
  destruct (c' s) as [ [ a | e ] s' ]; [ apply H | reflexivity ].
Qed.

Lemma read_chunks_V_on_world onChunk parts failure :
  forall d acc s,
  read_chunks_V (lifted onChunk) parts failure d acc s =
    on_world (read_chunks onChunk parts failure d acc) s.
Proof.
  induction parts as [ | value rest IH ]; intros d acc s.
  - cbn [read_chunks_V read_chunks]. rewrite on_world_bind.
    apply V_bind_ext; [ reflexivity | intros _ s' ].
    destruct failure; unfold on_world; cbn; now rewrite set_base_base.
  - cbn [read_chunks_V read_chunks].
    destruct (TextDecoder.decode d value) as [d' chunk].
    rewrite on_world_bind. apply V_bind_ext; [ reflexivity | intros _ s1 ].
    rewrite on_world_bind. apply V_bind_ext; [ | intros _ s2; apply IH ].
    destruct onChunk as [ f | ]; cbn [lifted option_map].
    + now rewrite on_world_bind.
    + unfold on_world, V_ret, ret. cbn. now rewrite set_base_base.
Qed.

Lemma on_world_try_catch {A} (body : M A) (handler : js_error -> M A) s :
  on_world (try_catch body handler) s =
    V_try_catch (on_world body) (fun e => on_world (handler e)) s.
Proof.
  unfold on_world, try_catch, V_try_catch. cbn [fst snd].
  destruct (body (base s)) as [ [ a | e ] w ]; reflexivity.
Qed.

Lemma V_try_catch_ext {A} (body body' : V A) (handler handler' : js_error -> V A) s :
  body s = body' s -> (forall e s', handler e s' = handler' e s') ->
  V_try_catch body handler s = V_try_catch body' handler' s.
Proof.
  intros Hb H. unfold V_try_catch. rewrite Hb.
  destruct (body' s) as [ [ a | e ] s' ]; [ reflexivity | apply H ].
Qed.

Lemma on_world_pure {A} (c : completion A) s : on_world (fun w => (c, w)) s = (c, s).
Proof. unfold on_world. cbn. now rewrite set_base_base. Qed.

Lemma sendChatMessage_V_on_world sessionId message onChunk s :
  sendChatMessage_V sessionId message (lifted onChunk) s =
    on_world (sendChatMessage sessionId message onChunk) s.
Proof.
  unfold sendChatMessage_V, sendChatMessage. rewrite on_world_bind.
  apply V_bind_ext; [ symmetry; apply on_world_pure | intros url s0 ].
  rewrite on_world_try_catch.
  apply V_try_catch_ext.
  - rewrite on_world_bind. apply V_bind_ext; [ reflexivity | intros response s1 ].
    rewrite on_world_bind. apply V_bind_ext.
    { destruct (negb (ok response)); [ | symmetry; apply on_world_pure ].
      rewrite on_world_bind.
      apply V_bind_ext; [ symmetry; apply on_world_pure | ].
      intros error s2. symmetry. apply on_world_pure. }
    intros _ s2. rewrite on_world_bind. apply V_bind_ext.
    { destruct (stream response); symmetry; apply on_world_pure. }
    intros reader s3. rewrite on_world_bind. apply V_bind_ext.
    { apply read_chunks_V_on_world. }
    intros text s4. symmetry. apply on_world_pure.
  - intros e s1. rewrite on_world_bind. apply V_bind_ext; [ reflexivity | ].
    intros _ s2. symmetry. apply on_world_pure.
Qed.

(** Unfolds the primitive computations, on the chat and on the world. *)
Ltac chat_primitives :=
  unfold V_bind, V_ret, V_throw, V_lift, V_read, V_write, on_world, detached,
    createElement, scroll_to_bottom, clear, set_innerHTML, remove_message;
  unfold bind, read, write, confirm, alert, emit, getElementById, property,
    assign, lift, ret.

(** Names the elements that [has_elements] promises. *)
Ltac page_elements H :=
  repeat (let e := fresh "el" in
          let He := fresh "Hel" in
          apply has_elements_cons in H as [ [e He] H ]);
  clear H.

(** ** Sending a message *)

(** X22.  [sendMessage] has nothing to send when the input is empty or
    blank, or when no session is stored.  With a blank input it does
    nothing: no request, no message on the page, no dialog, and the input
    keeps its content; so does [handleKeyPress] then, whatever the key.
    With a text but without a stored session it only tells the user that
    there is no active session: no request is made, nothing is added to the
    messages, and what was typed stays in the input. *)
Theorem sendMessage_nothing_to_send (s : chat) (text : jsstring) :
  control_value (base s) "messageInput" = Some text ->
  (trim text = [] ->
   sendMessage s = (Normal tt, s) /\
   forall key, handleKeyPress key s = (Normal tt, s)) /\
  (trim text <> [] ->
   truthy (currentChatSession (base s)) = false ->
   sendMessage s =
     (Normal tt, set_base (add_event (Alert (js "No active chat session")) (base s)) s)).
Proof.
  unfold control_value. intros H.
  destruct (document (base s) "messageInput") as [ box | ] eqn:Hbox; [ | discriminate H ].
  injection H as H. split.
  - intros T.
    assert (E : sendMessage s = (Normal tt, s)).
    { unfold sendMessage. chat_primitives. cbn.
      rewrite Hbox. cbn. rewrite H, T. cbn. now rewrite !set_base_base. }
    split; [ exact E | ].
    intros key. unfold handleKeyPress, detached.
    destruct (is_string key (js "Enter")); [ now rewrite E | reflexivity ].
  - intros T Hsession.
    unfold sendMessage. chat_primitives. cbn.
    rewrite Hbox. cbn. rewrite H.
    destruct (trim text) as [ | c t ]; [ now elim T | ].
    cbn. rewrite Hsession. cbn. now rewrite !set_base_base.
Qed.

(** ** Starting the chat *)

(** X23.  [startChat] without a current complaint only tells the user that
    no complaint is selected; with one, it asks for a session for the id of
    that complaint, and when that request fails it tells the user the
    error text and leaves the stored session, the chat panel and the
    messages as they were. *)
Theorem startChat_needs_session (s : chat) :
  (truthy (currentComplaint (base s)) = false ->
   startChat s =
     (Normal tt, set_base (add_event (Alert (js "No complaint selected")) (base s)) s)) /\
  (truthy (currentComplaint (base s)) = true ->
   has_elements ["loadingSpinner"]%string (base s) ->
   fails (network (base s) (fetched (base s))) = true ->
   exists s' id error,
     startChat s = (Normal tt, s') /\
     get (currentComplaint (base s)) (js "id") = Normal id /\
     settled (network (base s) (fetched (base s))) = Failure error /\
     requests (log (base s')) =
       requests (log (base s)) ++ [(chat_createSession, session_request id)] /\
     alerts (log (base s')) =
       alerts (log (base s)) ++ [js "Error starting chat: " ++ error] /\
     currentChatSession (base s') = currentChatSession (base s) /\
     document (base s') "chat" = document (base s) "chat" /\
     messages s' = messages s).
Proof.
  split.
  - intros H. unfold startChat. chat_primitives. cbn. rewrite H. cbn.
    now rewrite set_base_base.
  - intros Hcomplaint Hpage Hfails. page_elements Hpage.
    rename el into spinner, Hel into Hspinner.
    destruct (get_truthy _ (js "id") Hcomplaint) as [id Hid].
    apply fails_rejection in Hfails as [ e He ].
    unfold startChat.
    rewrite (V_bind_Normal _ _ _ _ _ (on_world_read _ _)), Hcomplaint. cbn [negb].
    rewrite (V_bind_Normal _ _ _ _ _
               (on_world_eq _ _ _ _ (showLoading_eq true (base s) spinner Hspinner))).
    rewrite (V_bind_Normal _ _ _ _ _ (on_world_read _ _)).
    unfold V_bind at 1, V_lift at 1. cbn [base set_base currentComplaint set_document].
    rewrite Hid.
    unfold createChatSession.
    rewrite (V_bind_Normal _ _ _ _ _ (on_world_eq _ _ _ _ (apiRequest_eq _ _ _))).
    cbn [base set_base network fetched set_document].
    unfold settled at 1. rewrite He.
    erewrite V_bind_Normal; cycle 1.
    { apply on_world_eq.
      apply showLoading_eq with (spinner := with_display (js "flex") spinner).
      cbn [base set_base]. rewrite document_requested. cbn. now rewrite Hspinner. }
    unfold on_world, alert, emit, write. cbn [fst snd base set_base].
    eexists. exists id, (error_message e). split; [ reflexivity | ].
    split; [ reflexivity | ]. split; [ unfold settled; now rewrite He | ].
    cbn. rewrite !requests_app, !alerts_app, requests_requested.
    unfold requested. cbn. rewrite He. cbn.
    rewrite !alerts_app. cbn. rewrite !app_nil_r.
    repeat split.
Qed.


(** ** Messages on the page *)

Lemma is_string_eq (v : value) (s : jsstring) : is_string v s = true -> v = VStr s.
Proof.
  destruct v; cbn; try discriminate. intros H. now apply jsstring_eqb_eq in H as ->.
Qed.

Lemma appendMessage_eq (role text : value) (el : element) (m : message_element) s :
  document (base s) "chatMessages" = Some el ->
  shown role text = Some m ->
  appendMessage role text s = (Normal (created s), appended m s).
Proof.
  intros Hel Hm. unfold appendMessage.
  rewrite (V_bind_Normal _ _ _ _ _ (on_world_getElementById _ _)), Hel.
  unfold V_bind at 1, createElement at 1.
  unfold V_bind at 1, V_lift at 1.
  unfold shown in Hm.
  destruct (ToString role) as [ role' | e ] eqn:Hrole; [ | discriminate Hm ].
  destruct (is_string role (js "assistant")) eqn:R.
  - destruct text; try discriminate Hm. injection Hm as <-.
    apply is_string_eq in R as ->. cbn in Hrole. injection Hrole as <-.
    reflexivity.
  - unfold V_bind at 2, V_lift at 1.
    destruct (ToString text) as [ text' | e ]; [ | discriminate Hm ].
    injection Hm as <-. reflexivity.
Qed.

(** When [appendMessage] throws, all it has done is to create elements
    that are not on the page. *)
Lemma appendMessage_throws (role text : value) s :
  document (base s) "chatMessages" = None \/ shown role text = None ->
  exists e, appendMessage role text s = (Throw e, count_created s).
Proof.
  intros H. unfold appendMessage.
  rewrite (V_bind_Normal _ _ _ _ _ (on_world_getElementById _ _)).
  unfold V_bind at 1, createElement at 1.
  unfold V_bind at 1, V_lift at 1.
  unfold shown in H.
  destruct (ToString role) as [ role' | e ] eqn:Hrole; [ | eexists; reflexivity ].
  destruct (is_string role (js "assistant")) eqn:R.
  - destruct text; try (eexists; reflexivity).
    destruct H as [ H | H ]; [ | discriminate H ].
    rewrite H. eexists. reflexivity.
  - unfold V_bind at 2, V_lift at 1.
    destruct (ToString text) as [ text' | e ]; [ | eexists; reflexivity ].
    destruct H as [ H | H ]; [ | discriminate H ].
    rewrite H. eexists. reflexivity.
Qed.

(** X24.  [appendMessage] shows the text of every role but the assistant
    as text, whatever it holds, once the role and the text can be converted
    to strings; the class of the message is [message] followed by the
    role.  The text of the assistant goes to the page as HTML, and markup
    in it reaches the page as it is: this is so for every text of one line
    without asterisks that does not start with [#] or [-]. *)
Theorem appendMessage_markup (role text : value) (s : chat) :
  has_elements ["chatMessages"]%string (base s) ->
  (forall role',
     is_string role (js "assistant") = false ->
     ToString role = Normal role' ->
     converts text = true ->
     exists m,
       appendMessage role text s = (Normal (created s), appended m s) /\
       className m = js "message " ++ role' /\
       textDiv m = TextContent text) /\
  (forall t,
     role = VStr (js "assistant") -> text = VStr t ->
     plain_text t = true -> starts_a_rule t = false ->
     exists m,
       appendMessage role text s = (Normal (created s), appended m s) /\
       textDiv m = InnerHTML (VStr t)).
Proof.
  intros Hpage. page_elements Hpage. split.
  - intros role' R Hrole Htext. eexists. split; [ | split ].
    + apply (appendMessage_eq _ _ el _ _ Hel). unfold shown.
      rewrite Hrole, R. unfold converts in Htext.
      destruct (ToString text); [ reflexivity | discriminate Htext ].
    + reflexivity.
    + reflexivity.
  - intros t -> -> Hplain Hstart. eexists. split.
    + apply (appendMessage_eq _ _ el _ _ Hel). reflexivity.
    + cbn. now rewrite renderMarkdown_identity.
Qed.

Lemma forEach_message_eq (items : list value) (ms : list message_element) :
  map message_shown items = map Some ms ->
  forall s el,
  document (base s) "chatMessages" = Some el ->
  forEach_message items s = (Normal tt, fold_left (fun s m => appended m s) ms s).
Proof.
  revert ms. induction items as [ | item items IH ]; intros [ | m ms ] H s el Hel;
    try discriminate H; [ reflexivity | ].
  cbn [map] in H. injection H as Hm H.
  cbn [forEach_message fold_left].
  unfold message_shown in Hm. destruct item; try discriminate Hm.
  unfold V_bind at 1, V_lift at 1. cbn [get].
  unfold V_bind at 1, V_lift at 1.
  rewrite (V_bind_Normal _ _ _ _ _ (appendMessage_eq _ _ el _ _ Hel Hm)).
  now apply (IH ms H _ el).
Qed.

Lemma messages_appended (ms : list message_element) :
  forall s,
  let s' := fold_left (fun s m => appended m s) ms s in
  base s' = base s /\
  in_view s' = in_view s /\
  fullResponse s' = fullResponse s /\
  created s' = List.length ms + created s /\
  messages s' = messages s ++ combine (seq (created s) (List.length ms)) ms /\
  (ms <> [] -> scrolled s' = messages s').
Proof.
  induction ms as [ | m ms IH ]; intros s; cbn [fold_left].
  - cbn. rewrite app_nil_r. repeat split. intros H. now elim H.
  - destruct (IH (appended m s)) as (B & V' & F & C & M' & Sc). cbn zeta.
    rewrite B, V', F, C, M'. cbn [appended base in_view fullResponse created messages
      List.length seq combine].
    repeat split.
    + lia.
    + now rewrite <- app_assoc.
    + intros _. destruct ms as [ | m' ms ]; [ cbn; now rewrite app_nil_r | ].
      rewrite Sc by discriminate. rewrite M'. cbn [appended created messages].
      now rewrite <- app_assoc.
Qed.

Lemma map_fst_combine {A B} (l : list A) (l' : list B) :
  List.length l = List.length l' -> map fst (combine l l') = l.
Proof.
  revert l'. induction l as [ | a l IH ]; intros [ | b l' ] H; try discriminate H;
    [ reflexivity | ].
  cbn. f_equal. apply IH. now injection H.
Qed.

Lemma map_snd_combine {A B} (l : list A) (l' : list B) :
  List.length l = List.length l' -> map snd (combine l l') = l'.
Proof.
  revert l'. induction l as [ | a l IH ]; intros [ | b l' ] H; try discriminate H;
    [ reflexivity | ].
  cbn. f_equal. apply IH. now injection H.
Qed.

Lemma displayMessages_eq (items : list value) (ms : list message_element) s el :
  document (base s) "chatMessages" = Some el ->
  map message_shown items = map Some ms ->
  exists s',
    displayMessages (VArr items) s = (Normal tt, s') /\
    messages s' = combine (seq (created s) (List.length ms)) ms /\
    at_bottom s' /\
    created s' = List.length ms + created s /\
    in_view s' = in_view s /\
    fullResponse s' = fullResponse s /\
    base s' =
      set_document
        (update_element "chatMessages" (with_inner (InnerHTML (VStr [])))
           (document (base s))) (base s).
Proof.
  intros Hel Hms. unfold displayMessages.
  rewrite (V_bind_Normal _ _ _ _ _ (on_world_getElementById _ _)), Hel.
  unfold clear. unfold V_bind at 1. unfold V_bind at 1.
  unfold on_world at 1, assign at 1, V_write at 1. cbn [fst snd].
  erewrite V_bind_Normal; cycle 1.
  { eapply forEach_message_eq; [ exact Hms | ].
    cbn. unfold update_element. cbn. rewrite Hel. reflexivity. }
  match goal with
  | |- context [fold_left _ ms ?s1] =>
      destruct (messages_appended ms s1) as (B & V' & F & C & M' & Sc)
  end.
  cbn [scroll_to_bottom]. unfold V_write.
  eexists. split; [ reflexivity | ].
  unfold at_bottom. cbn [messages scrolled created in_view fullResponse base set_scrolled].
  rewrite M', C, V', F, B. cbn. repeat split.
Qed.

(** X25.  [displayMessages] replaces the messages on the page by those it
    is given, when each of them can be shown (it is an object whose role
    converts to a string and whose text is a string for the assistant,
    convertible to one otherwise): one message each, in the same order,
    the messages that were there before gone, and the view scrolled to the
    end.  The new messages are elements of their own: their numbers are
    the next ones of the counter, one after the other, so that they differ
    from each other and from every element created before. *)
Theorem displayMessages_replaces (items : list value) (ms : list message_element)
    (s : chat) :
  has_elements ["chatMessages"]%string (base s) ->
  map message_shown items = map Some ms ->
  exists s',
    displayMessages (VArr items) s = (Normal tt, s') /\
    messages s' = combine (seq (created s) (List.length items)) ms /\
    created s' = created s + List.length items /\
    numbered s' /\
    at_bottom s' /\
    log (base s') = log (base s).
Proof.
  intros Hpage Hms. page_elements Hpage.
  assert (Hlen : List.length ms = List.length items).
  { apply (f_equal (@List.length _)) in Hms. now rewrite !length_map in Hms. }
  destruct (displayMessages_eq items ms s el Hel Hms)
    as (s' & Hrun & Hm & Hb & Hc & _ & _ & Hw).
  exists s'. split; [ exact Hrun | ]. unfold numbered. rewrite Hm, Hw, Hc, Hlen.
  repeat split; try assumption.
  - lia.
  - apply Forall_forall. intros [n m] Hin. apply in_combine_l in Hin.
    apply in_seq in Hin. cbn. lia.
Qed.

(** ** Loading the messages of the session *)

Lemma loadChatMessages_run s id url :
  truthy (currentChatSession (base s)) = true ->
  get (currentChatSession (base s)) (js "id") = Normal id ->
  chat_sessionDetail id = Normal url ->
  loadChatMessages s =
    match settled (network (base s) (fetched (base s))) with
    | Success data => V_bind (V_lift (get data (js "messages"))) displayMessages
    | Failure _ => V_ret tt
    end (set_base (requested url plain_request (base s)) s).
Proof.
  intros Hsession Hid Hurl. unfold loadChatMessages.
  rewrite (V_bind_Normal _ _ _ _ _ (on_world_read _ _)), Hsession. cbn [negb].
  rewrite (V_bind_Normal _ _ _ _ _ (on_world_read _ _)).
  unfold V_bind at 1, V_lift at 1. rewrite Hid.
  rewrite (V_bind_Normal _ _ _ _ _
             (on_world_eq _ _ _ _ (getChatSession_eq _ _ _ Hurl))).
  reflexivity.
Qed.

(** With an id that cannot be converted, [loadChatMessages] throws before
    its request. *)
Lemma loadChatMessages_unconvertible s id e :
  truthy (currentChatSession (base s)) = true ->
  get (currentChatSession (base s)) (js "id") = Normal id ->
  chat_sessionDetail id = Throw e ->
  loadChatMessages s = (Throw e, s).
Proof.
  intros Hsession Hid Hurl. unfold loadChatMessages.
  rewrite (V_bind_Normal _ _ _ _ _ (on_world_read _ _)), Hsession. cbn [negb].
  rewrite (V_bind_Normal _ _ _ _ _ (on_world_read _ _)).
  unfold V_bind at 1, V_lift at 1. rewrite Hid.
  unfold V_bind, on_world, getChatSession, bind, lift. rewrite Hurl.
  cbn [fst snd]. now rewrite set_base_base.
Qed.

(** X26.  [loadChatMessages] does nothing without a stored session.  With
    one whose id can be put into an address, it asks for the session at
    that address; when that request fails it tells the user nothing and
    leaves the page as it was, the error being on the console only; when it
    succeeds, the messages of the session replace those on the page, one
    element each and with numbers not used before.  With an id that cannot
    be converted it throws before any request. *)
Theorem loadChatMessages_shows (s : chat) :
  (truthy (currentChatSession (base s)) = false ->
   loadChatMessages s = (Normal tt, s)) /\
  (truthy (currentChatSession (base s)) = true ->
   exists id,
     get (currentChatSession (base s)) (js "id") = Normal id /\
     (forall e, chat_sessionDetail id = Throw e -> loadChatMessages s = (Throw e, s)) /\
     (forall url,
        chat_sessionDetail id = Normal url ->
        fails (network (base s) (fetched (base s))) = true ->
        exists s',
          loadChatMessages s = (Normal tt, s') /\
          requests (log (base s')) = requests (log (base s)) ++ [(url, plain_request)] /\
          alerts (log (base s')) = alerts (log (base s)) /\
          document (base s') = document (base s) /\
          messages s' = messages s) /\
     (forall url r data items ms,
        chat_sessionDetail id = Normal url ->
        network (base s) (fetched (base s)) = Normal r ->
        ok r = true ->
        json r = Normal data ->
        get data (js "messages") = Normal (VArr items) ->
        map message_shown items = map Some ms ->
        has_elements ["chatMessages"]%string (base s) ->
        exists s',
          loadChatMessages s = (Normal tt, s') /\
          requests (log (base s')) = requests (log (base s)) ++ [(url, plain_request)] /\
          messages s' = combine (seq (created s) (List.length items)) ms /\
          created s' = created s + List.length items /\
          at_bottom s')).
Proof.
  split.
  - intros H. unfold loadChatMessages.
    rewrite (V_bind_Normal _ _ _ _ _ (on_world_read _ _)), H. reflexivity.
  - intros Hsession.
    destruct (get_truthy _ (js "id") Hsession) as [id Hid].
    exists id. split; [ exact Hid | ].
    split; [ | split ].
    + intros e Hurl. now apply (loadChatMessages_unconvertible s id e).
    + intros url Hurl Hfails. apply fails_rejection in Hfails as [ e He ].
      rewrite (loadChatMessages_run s id url Hsession Hid Hurl).
      unfold settled. rewrite He. unfold V_ret.
      eexists. split; [ reflexivity | ].
      cbn [base set_base messages]. rewrite requests_requested, document_requested.
      repeat split. unfold requested. rewrite He. cbn.
      rewrite !alerts_app. cbn. now rewrite !app_nil_r.
    + intros url r data items ms Hurl Hnet Hok Hjson Hmessages Hms Hpage.
      page_elements Hpage.
      assert (R : rejection (network (base s) (fetched (base s))) = None).
      { unfold rejection. now rewrite Hnet, Hjson, Hok. }
      rewrite (loadChatMessages_run s id url Hsession Hid Hurl).
      unfold settled. rewrite R, Hnet, Hjson.
      unfold V_bind at 1, V_lift at 1. rewrite Hmessages.
      assert (Hlen : List.length ms = List.length items).
      { apply (f_equal (@List.length _)) in Hms. now rewrite !length_map in Hms. }
      match goal with
      | |- context [displayMessages _ ?s1] =>
          destruct (displayMessages_eq items ms s1 el)
            as (s' & Hrun & Hm & Hb & Hc & _ & _ & Hw);
            [ cbn [base set_base]; now rewrite document_requested | exact Hms | ]
      end.
      exists s'. split; [ exact Hrun | ]. rewrite Hm, Hc, Hw, Hlen.
      cbn [base set_base log set_document created].
      rewrite requests_requested.
      repeat split; try assumption. lia.
Qed.

(** ** Computations that change the messages only *)

Lemma same_page_refl id w : same_page_but id w w.
Proof. repeat split; auto. Qed.

Lemma same_page_trans id w1 w2 w3 :
  same_page_but id w1 w2 -> same_page_but id w2 w3 -> same_page_but id w1 w3.
Proof.
  intros (A1 & A2 & A3 & A4 & A5 & A6) (B1 & B2 & B3 & B4 & B5 & B6).
  repeat split; try congruence.
  - intros id' H. now rewrite B5, A5.
  - intros H. now apply A6, B6.
  - intros H. now apply B6, A6.
Qed.

Lemma only_messages_ret {A} (a : A) : only_messages (V_ret a).
Proof. intros s. split; [ apply same_page_refl | reflexivity ]. Qed.

Lemma only_messages_throw {A} (e : js_error) : only_messages (@V_throw A e).
Proof. intros s. split; [ apply same_page_refl | reflexivity ]. Qed.

Lemma only_messages_lift {A} (c : completion A) : only_messages (V_lift c).
Proof. intros s. split; [ apply same_page_refl | reflexivity ]. Qed.

Lemma only_messages_bind {A B} (c : V A) (k : A -> V B) :
  only_messages c -> (forall a, only_messages (k a)) -> only_messages (V_bind c k).
Proof.
  intros Hc Hk s. unfold V_bind. specialize (Hc s).
  destruct (c s) as [ [ a | e ] s1 ]; cbn [snd] in *; [ | exact Hc ].
  destruct Hc as [ W1 V1 ]. destruct (Hk a s1) as [ W2 V2 ].
  split; [ exact (same_page_trans _ _ _ _ W1 W2) | congruence ].
Qed.

Lemma only_messages_reads {A} (c : M A) : reads_only c -> only_messages (on_world c).
Proof.
  intros H s. unfold on_world. cbn. rewrite H.
  split; [ apply same_page_refl | reflexivity ].
Qed.

Lemma only_messages_write (change : chat -> chat) :
  (forall s, base (change s) = base s /\ in_view (change s) = in_view s) ->
  only_messages (V_write change).
Proof.
  intros H s. cbn. destruct (H s) as [ -> -> ].
  split; [ apply same_page_refl | reflexivity ].
Qed.

Lemma only_messages_detached {A} (c : V A) : only_messages c -> only_messages (detached c).
Proof. intros H s. exact (H s). Qed.

Lemma only_messages_clear el : only_messages (clear el).
Proof.
  unfold clear. apply only_messages_bind; [ | intros _; now apply only_messages_write ].
  intros s. destruct el as [ x | ]; cbn; [ | split; [ apply same_page_refl | reflexivity ] ].
  split; [ | reflexivity ]. repeat split; cbn.
  - intros id' H. unfold update_element.
    destruct (String.eqb_spec id' "chatMessages"); [ contradiction | reflexivity ].
  - unfold update_element. cbn. now destruct (document (base s) "chatMessages").
  - unfold update_element. cbn. now intros ->.
Qed.

Lemma only_messages_scroll el : only_messages (scroll_to_bottom el).
Proof.
  destruct el; cbn; [ now apply only_messages_write | apply only_messages_throw ].
Qed.

Lemma only_messages_appendMessage role text : only_messages (appendMessage role text).
Proof.
  unfold appendMessage.
  apply only_messages_bind;
    [ apply only_messages_reads; intros w; reflexivity | intros chatMessages ].
  apply only_messages_bind; [ intros s; split; [ apply same_page_refl | reflexivity ] | intros n ].
  apply only_messages_bind; [ apply only_messages_lift | intros role' ].
  apply only_messages_bind.
  { destruct (is_string role (js "assistant"));
      (apply only_messages_bind; [ apply only_messages_lift | intros; apply only_messages_ret ]). }
  intros textDiv.
  apply only_messages_bind.
  { destruct chatMessages; [ now apply only_messages_write | apply only_messages_throw ]. }
  intros _. apply only_messages_bind; [ apply only_messages_scroll | ].
  intros _. apply only_messages_ret.
Qed.

Lemma only_messages_forEach items : only_messages (forEach_message items).
Proof.
  induction items as [ | item items IH ]; cbn [forEach_message];
    [ apply only_messages_ret | ].
  apply only_messages_bind; [ apply only_messages_lift | intros role ].
  apply only_messages_bind; [ apply only_messages_lift | intros text ].
  apply only_messages_bind; [ apply only_messages_appendMessage | intros _; exact IH ].
Qed.

Lemma only_messages_displayMessages messages : only_messages (displayMessages messages).
Proof.
  unfold displayMessages.
  apply only_messages_bind;
    [ apply only_messages_reads; intros w; reflexivity | intros chatMessages ].
  apply only_messages_bind; [ apply only_messages_clear | intros _ ].
  apply only_messages_bind; [ | intros _; apply only_messages_scroll ].
  destruct messages; try apply only_messages_throw. apply only_messages_forEach.
Qed.

(** [loadChatMessages], whatever the answer to its request: it changes the
    messages only, and makes at most the one request. *)
Lemma loadChatMessages_frame s :
  same_page_but "chatMessages" (base s) (base (snd (loadChatMessages s))) /\
  in_view (snd (loadChatMessages s)) = in_view s.
Proof.
  destruct (truthy (currentChatSession (base s))) eqn:Hsession; cycle 1.
  { unfold loadChatMessages.
    rewrite (V_bind_Normal _ _ _ _ _ (on_world_read _ _)), Hsession.
    split; [ apply same_page_refl | reflexivity ]. }
  destruct (get_truthy _ (js "id") Hsession) as [id Hid].
  destruct (chat_sessionDetail id) as [ url | e ] eqn:Hurl; cycle 1.
  { rewrite (loadChatMessages_unconvertible s id e Hsession Hid Hurl).
    split; [ apply same_page_refl | reflexivity ]. }
  rewrite (loadChatMessages_run s id url Hsession Hid Hurl).
  assert (Q : same_page_but "chatMessages" (base s)
                (requested url plain_request (base s))).
  { unfold requested. destruct (rejection _); repeat split; cbn;
      rewrite ?alerts_app; cbn; now rewrite ?app_nil_r. }
  match goal with
  | |- context [?rest (set_base ?w1 s)] =>
      assert (K : only_messages rest); [ | destruct (K (set_base w1 s)) as [ W1 V1 ] ]
  end.
  { destruct (settled _); [ | apply only_messages_ret ].
    apply only_messages_bind; [ apply only_messages_lift | intros messages ].
    apply only_messages_displayMessages. }
  cbn [base set_base in_view] in W1, V1.
  split; [ exact (same_page_trans _ _ _ _ Q W1) | exact V1 ].
Qed.

(** ** The call that [startChat] does not await

    [loadChatMessages] and [scrollToSection] work on different parts of the
    state: which of the two comes first makes no difference. *)

Lemma ignores_view_ret {A} (a : A) : ignores_view (V_ret a).
Proof. intros v s. reflexivity. Qed.

Lemma ignores_view_throw {A} (e : js_error) : ignores_view (@V_throw A e).
Proof. intros v s. reflexivity. Qed.

Lemma ignores_view_lift {A} (c : completion A) : ignores_view (V_lift c).
Proof. intros v s. reflexivity. Qed.

Lemma ignores_view_on_world {A} (c : M A) : ignores_view (on_world c).
Proof. intros v s. reflexivity. Qed.

Lemma ignores_view_bind {A B} (c : V A) (k : A -> V B) :
  ignores_view c -> (forall a, ignores_view (k a)) -> ignores_view (V_bind c k).
Proof.
  intros Hc Hk v s. unfold V_bind. rewrite Hc.
  destruct (c s) as [ [ a | e ] s1 ]; cbn [fst snd]; [ apply Hk | reflexivity ].
Qed.

Lemma ignores_view_write (change : chat -> chat) :
  (forall v s, change (set_in_view v s) = set_in_view v (change s)) ->
  ignores_view (V_write change).
Proof. intros H v s. unfold V_write. cbn. now rewrite H. Qed.

Lemma ignores_view_scroll el : ignores_view (scroll_to_bottom el).
Proof.
  destruct el; cbn; [ now apply ignores_view_write | apply ignores_view_throw ].
Qed.

Lemma ignores_view_appendMessage role text : ignores_view (appendMessage role text).
Proof.
  unfold appendMessage.
  apply ignores_view_bind; [ apply ignores_view_on_world | intros chatMessages ].
  apply ignores_view_bind; [ intros v s; reflexivity | intros n ].
  apply ignores_view_bind; [ apply ignores_view_lift | intros role' ].
  apply ignores_view_bind.
  { destruct (is_string role (js "assistant"));
      (apply ignores_view_bind; [ apply ignores_view_lift | intros; apply ignores_view_ret ]). }
  intros textDiv.
  apply ignores_view_bind.
  { destruct chatMessages; [ now apply ignores_view_write | apply ignores_view_throw ]. }
  intros _. apply ignores_view_bind; [ apply ignores_view_scroll | ].
  intros _. apply ignores_view_ret.
Qed.

Lemma ignores_view_forEach items : ignores_view (forEach_message items).
Proof.
  induction items as [ | item items IH ]; cbn [forEach_message];
    [ apply ignores_view_ret | ].
  apply ignores_view_bind; [ apply ignores_view_lift | intros role ].
  apply ignores_view_bind; [ apply ignores_view_lift | intros text ].
  apply ignores_view_bind; [ apply ignores_view_appendMessage | intros _; exact IH ].
Qed.

Lemma ignores_view_displayMessages messages : ignores_view (displayMessages messages).
Proof.
  unfold displayMessages, clear.
  apply ignores_view_bind; [ apply ignores_view_on_world | intros chatMessages ].
  apply ignores_view_bind.
  { apply ignores_view_bind; [ apply ignores_view_on_world | intros _ ].
    now apply ignores_view_write. }
  intros _. apply ignores_view_bind; [ | intros _; apply ignores_view_scroll ].
  destruct messages; try apply ignores_view_throw. apply ignores_view_forEach.
Qed.

Lemma ignores_view_loadChatMessages : ignores_view loadChatMessages.
Proof.
  unfold loadChatMessages.
  apply ignores_view_bind; [ apply ignores_view_on_world | intros session ].
  destruct (negb (truthy session)); [ apply ignores_view_ret | ].
  apply ignores_view_bind; [ apply ignores_view_on_world | intros session' ].
  apply ignores_view_bind; [ apply ignores_view_lift | intros id ].
  apply ignores_view_bind; [ apply ignores_view_on_world | intros result ].
  destruct result; [ | apply ignores_view_ret ].
  apply ignores_view_bind; [ apply ignores_view_lift | intros messages ].
  apply ignores_view_displayMessages.
Qed.

Lemma scrollToSection_eq id s :
  scrollToSection id s =
    (Normal tt,
     match document (base s) id with
     | Some _ => set_in_view (Some id) s
     | None => s
     end).
Proof.
  unfold scrollToSection.
  rewrite (V_bind_Normal _ _ _ _ _ (on_world_getElementById _ _)).
  now destruct (document (base s) id).
Qed.

Lemma startChat_order s :
  V_bind (detached loadChatMessages) (fun _ => scrollToSection "chat") s =
  V_bind (scrollToSection "chat") (fun _ => detached loadChatMessages) s.
Proof.
  unfold V_bind, detached. rewrite !scrollToSection_eq.
  destruct (loadChatMessages_frame s) as [ (_ & _ & _ & _ & Hdoc & _) _ ].
  rewrite (Hdoc "chat"%string) by discriminate.
  destruct (document (base s) "chat"); [ | reflexivity ].
  now rewrite ignores_view_loadChatMessages.
Qed.

(** ** Starting the chat, continued *)

Lemma displayChatInterface_eq s (name plate : value) (name' plate' : jsstring) :
  has_elements ["chat"; "chatCarInfo"; "chatComplaintCategory"; "chatMessages"]%string
    (base s) ->
  get (currentCar (base s)) (js "display_name") = Normal name ->
  ToString name = Normal name' ->
  get (currentCar (base s)) (js "license_plate") = Normal plate ->
  ToString plate = Normal plate' ->
  truthy (currentComplaint (base s)) = true ->
  converts (category_of (currentComplaint (base s))) = true ->
  exists s',
    displayChatInterface s = (Normal tt, s') /\
    display_of (base s') "chat" = Some (js "block") /\
    inner_of (base s') "chatCarInfo" =
      Some (TextContent (VStr (name' ++ js " (" ++ plate' ++ js ")"))) /\
    inner_of (base s') "chatComplaintCategory" =
      Some (TextContent (category_of (currentComplaint (base s)))) /\
    inner_of (base s') "chatMessages" = Some (InnerHTML (VStr [])) /\
    messages s' = [] /\
    in_view s' = in_view s /\
    currentChatSession (base s') = currentChatSession (base s) /\
    currentComplaint (base s') = currentComplaint (base s) /\
    log (base s') = log (base s) /\
    fetched (base s') = fetched (base s) /\
    network (base s') = network (base s) /\
    document (base s') "loadingSpinner" = document (base s) "loadingSpinner".
Proof.
  intros Hpage Hname Hname' Hplate Hplate' Hcomplaint Hcategory. page_elements Hpage.
  apply converts_ToString in Hcategory as [ category Hcategory ].
  unfold displayChatInterface, get_or, inner_of, display_of, assign_content.
  chat_primitives.
  cbn. rewrite Hel. cbn. rewrite Hname. cbn. rewrite Hname'. cbn.
  rewrite Hplate. cbn. rewrite Hplate'. cbn.
  rewrite Hel0. cbn. rewrite Hel1. cbn.
  destruct (currentComplaint (base s)) as [ | | flag | n | text | items | props ] eqn:C;
    try discriminate Hcomplaint; cbn [get category_of] in *.
  5: { unfold js_or in *.
       destruct (truthy (own_property (js "category_display") props)) eqn:T;
         cbn; rewrite ?C; cbn; rewrite ?T, Hcategory; cbn; rewrite Hel2; cbn;
         (eexists; split; [ reflexivity | ]);
         cbn; rewrite ?Hel, ?Hel0, ?Hel1, ?Hel2, ?C; repeat split. }
  all: cbn; rewrite ?C; cbn; rewrite Hel2; cbn; (eexists; split; [ reflexivity | ]);
    cbn; rewrite ?Hel, ?Hel0, ?Hel1, ?Hel2, ?C; repeat split.
Qed.

Lemma has_elements_besides (ids : list string) (id : string) (w w' : world) :
  (forall id', id' <> id -> document w' id' = document w id') ->
  ~ In id ids ->
  has_elements ids w -> has_elements ids w'.
Proof.
  unfold has_elements. rewrite !Forall_forall. intros Hdoc Hid H id' Hin.
  rewrite Hdoc; [ now apply H | ]. intros ->. contradiction.
Qed.

(** [startChat] up to the answer of the server: the spinner was shown and
    hidden again, and the request made. *)
Lemma startChat_run s id spinner :
  truthy (currentComplaint (base s)) = true ->
  get (currentComplaint (base s)) (js "id") = Normal id ->
  document (base s) "loadingSpinner" = Some spinner ->
  startChat s =
    match settled (network (base s) (fetched (base s))) with
    | Success data =>
        V_bind (on_world (write (set_currentChatSession data))) (fun _ =>
        V_bind displayChatInterface (fun _ =>
        V_bind (detached loadChatMessages) (fun _ => scrollToSection "chat")))
    | Failure error => on_world (alert (js "Error starting chat: " ++ error))
    end
      (set_base
         (set_document
            (update_element "loadingSpinner" (with_display (js "none"))
               (update_element "loadingSpinner" (with_display (js "flex"))
                  (document (base s))))
            (requested chat_createSession (session_request id) (base s))) s).
Proof.
  intros Hcomplaint Hid Hspinner. unfold startChat.
  rewrite (V_bind_Normal _ _ _ _ _ (on_world_read _ _)), Hcomplaint. cbn [negb].
  rewrite (V_bind_Normal _ _ _ _ _
             (on_world_eq _ _ _ _ (showLoading_eq true (base s) spinner Hspinner))).
  rewrite (V_bind_Normal _ _ _ _ _ (on_world_read _ _)).
  unfold V_bind at 1, V_lift at 1. cbn [base set_base currentComplaint set_document].
  rewrite Hid.
  unfold createChatSession.
  rewrite (V_bind_Normal _ _ _ _ _ (on_world_eq _ _ _ _ (apiRequest_eq _ _ _))).
  cbn [base set_base network fetched set_document].
  erewrite V_bind_Normal; cycle 1.
  { apply on_world_eq.
    apply showLoading_eq with (spinner := with_display (js "flex") spinner).
    cbn [base set_base]. rewrite document_requested. cbn. now rewrite Hspinner. }
  cbn [base set_base set_document]. rewrite document_requested.
  unfold requested. cbn [set_document document network fetched log
    currentComplaint currentChatSession currentCar user asked count_fetch add_event].
  destruct (rejection _); reflexivity.
Qed.

(** X27.  [startChat], when the server gives a session, stores it, shows
    the chat panel with the car and the category of the complaint, and
    scrolls to the panel; no dialog is shown.  This is so for a car whose
    name and plate, and a complaint whose category, can be converted to
    text.  It returns normally whatever happens to the messages of the
    session, which it asks for without waiting: a failure of that request
    or of the rendering goes unnoticed. *)
Theorem startChat_success (s : chat) (r : response) (data name plate : value)
    (name' plate' : jsstring) :
  truthy (currentComplaint (base s)) = true ->
  get (currentCar (base s)) (js "display_name") = Normal name ->
  ToString name = Normal name' ->
  get (currentCar (base s)) (js "license_plate") = Normal plate ->
  ToString plate = Normal plate' ->
  converts (category_of (currentComplaint (base s))) = true ->
  has_elements ["loadingSpinner"; "chat"; "chatCarInfo"; "chatComplaintCategory";
                "chatMessages"]%string (base s) ->
  network (base s) (fetched (base s)) = Normal r ->
  ok r = true ->
  json r = Normal data ->
  exists s',
    startChat s = (Normal tt, s') /\
    currentChatSession (base s') = data /\
    display_of (base s') "chat" = Some (js "block") /\
    display_of (base s') "loadingSpinner" = Some (js "none") /\
    inner_of (base s') "chatCarInfo" =
      Some (TextContent (VStr (name' ++ js " (" ++ plate' ++ js ")"))) /\
    inner_of (base s') "chatComplaintCategory" =
      Some (TextContent (category_of (currentComplaint (base s)))) /\
    in_view s' = Some "chat"%string /\
    alerts (log (base s')) = alerts (log (base s)).
Proof.
  intros Hcomplaint Hname Hname' Hplate Hplate' Hcategory Hpage Hnet Hok Hjson.
  apply has_elements_cons in Hpage as [ [spinner Hspinner] Hpage ].
  destruct (get_truthy _ (js "id") Hcomplaint) as [id Hid].
  assert (R : rejection (network (base s) (fetched (base s))) = None).
  { unfold rejection. now rewrite Hnet, Hjson, Hok. }
  rewrite (startChat_run s id spinner Hcomplaint Hid Hspinner).
  unfold settled, requested. rewrite R, Hnet, Hjson.
  unfold V_bind at 1, on_world at 1, write at 1. cbn [fst snd base set_base].
  match goal with
  | |- context [V_bind displayChatInterface _ ?s2] =>
      destruct (displayChatInterface_eq s2 name plate name' plate')
        as (s3 & Hrun & Hchat & Hinfo & Hshown & _ & _ & Hview & Hsession
            & _ & Hlog & _ & _ & Hspin); cbn [base set_base currentCar currentComplaint
              set_currentChatSession set_document count_fetch add_event];
        [ | assumption | assumption | assumption | assumption | assumption
          | assumption | ]
  end.
  { refine (has_elements_besides _ "loadingSpinner" (base s) _ _ _ Hpage).
    - intros id' H. cbn. unfold update_element.
      destruct (String.eqb_spec id' "loadingSpinner"); [ contradiction | reflexivity ].
    - cbn. intuition discriminate. }
  cbn [base set_base currentCar currentComplaint
         set_currentChatSession set_document count_fetch add_event] in Hshown.
  rewrite (V_bind_Normal _ _ _ _ _ Hrun).
  unfold V_bind at 1, detached at 1.
  destruct (loadChatMessages_frame s3) as [ (_ & Hsession' & _ & Halerts & Hdoc & _) Hview' ].
  unfold scrollToSection.
  rewrite (V_bind_Normal _ _ _ _ _ (on_world_getElementById _ _)).
  rewrite (Hdoc "chat"%string) by discriminate.
  unfold display_of in Hchat.
  destruct (document (base s3) "chat") as [ chat | ] eqn:Hel; [ | discriminate Hchat ].
  unfold V_write. eexists. split; [ reflexivity | ].
  unfold display_of, inner_of in *. cbn [base set_in_view in_view].
  rewrite Hsession', Hsession, Halerts, Hlog, !Hdoc, Hel, Hspin by discriminate.
  cbn. rewrite Hspinner. cbn.
  rewrite !alerts_app. cbn. rewrite !app_nil_r.
  repeat split; assumption.
Qed.

(** X28.  [startChat] with a complaint but without a car (the current car
    is [null] or [undefined]) breaks off half way: the session the server
    gave is stored and the chat panel is shown, then reading the name of
    the car throws.  The messages of the session are not asked for, and the
    view does not scroll to the panel. *)
Theorem startChat_without_car (s : chat) (r : response) (data : value) (e : js_error) :
  truthy (currentComplaint (base s)) = true ->
  get (currentCar (base s)) (js "display_name") = Throw e ->
  has_elements ["loadingSpinner"; "chat"]%string (base s) ->
  network (base s) (fetched (base s)) = Normal r ->
  ok r = true ->
  json r = Normal data ->
  exists s',
    startChat s = (Throw e, s') /\
    currentChatSession (base s') = data /\
    display_of (base s') "chat" = Some (js "block") /\
    fetched (base s') = S (fetched (base s)) /\
    messages s' = messages s /\
    in_view s' = in_view s.
Proof.
  intros Hcomplaint Hcar Hpage Hnet Hok Hjson. page_elements Hpage.
  rename el into spinner, Hel into Hspinner, el0 into chat, Hel0 into Hchat.
  destruct (get_truthy _ (js "id") Hcomplaint) as [id Hid].
  assert (R : rejection (network (base s) (fetched (base s))) = None).
  { unfold rejection. now rewrite Hnet, Hjson, Hok. }
  rewrite (startChat_run s id spinner Hcomplaint Hid Hspinner).
  unfold settled, requested. rewrite R, Hnet, Hjson.
  unfold displayChatInterface, display_of. chat_primitives. cbn.
  rewrite Hchat. cbn. rewrite Hcar. cbn.
  eexists. split; [ reflexivity | ]. cbn. rewrite Hchat. repeat split.
Qed.

(** ** Sending a message, continued *)

Lemma with_innerHTML_twice ai h1 h2 ms :
  with_innerHTML ai h2 (with_innerHTML ai h1 ms) = with_innerHTML ai h2 ms.
Proof.
  unfold with_innerHTML. rewrite map_map. apply map_ext. intros [n m]. cbn.
  destruct (Nat.eqb n ai) eqn:E; cbn; now rewrite E.
Qed.

Lemma without_with_innerHTML ai h ms :
  without ai (with_innerHTML ai h ms) = without ai ms.
Proof.
  unfold without, with_innerHTML. induction ms as [ | [n m] ms IH ]; [ reflexivity | ].
  cbn. destruct (Nat.eqb n ai) eqn:E; cbn; rewrite E; cbn; now rewrite IH.
Qed.

Lemma with_innerHTML_others ai h ms :
  Forall (fun m => fst m <> ai) ms -> with_innerHTML ai h ms = ms.
Proof.
  unfold with_innerHTML. induction 1 as [ | [n m] ms Hn _ IH ]; [ reflexivity | ].
  cbn in *. apply Nat.eqb_neq in Hn. now rewrite Hn, IH.
Qed.

Lemma without_others ai ms :
  Forall (fun m => fst m <> ai) ms -> without ai ms = ms.
Proof.
  unfold without. induction 1 as [ | [n m] ms Hn _ IH ]; [ reflexivity | ].
  cbn in *. apply Nat.eqb_neq in Hn. now rewrite Hn, IH.
Qed.

Lemma during_stream_refl ai s : during_stream ai s s.
Proof. repeat split. Qed.

Lemma during_stream_trans ai s1 s2 s3 :
  during_stream ai s1 s2 -> during_stream ai s2 s3 -> during_stream ai s1 s3.
Proof.
  intros (A1 & A2 & A3 & A4 & A5 & A6 & A7 & A8) (B1 & B2 & B3 & B4 & B5 & B6 & B7 & B8).
  repeat split; congruence.
Qed.

Lemma streaming_callback_eq ai chunk s el :
  document (base s) "chatMessages" = Some el ->
  streaming_callback ai chunk s =
    (Normal tt,
     mkChat (base s)
       (with_innerHTML ai (renderMarkdown (fullResponse s ++ chunk)) (messages s))
       (created s)
       (with_innerHTML ai (renderMarkdown (fullResponse s ++ chunk)) (messages s))
       (in_view s) (fullResponse s ++ chunk)).
Proof.
  intros Hel. unfold streaming_callback.
  unfold V_bind at 1, V_write at 1. unfold V_bind at 1, V_read at 1.
  unfold V_bind at 1, set_innerHTML at 1, V_write at 1.
  rewrite (V_bind_Normal _ _ _ _ _ (on_world_getElementById _ _)).
  cbn [base set_messages set_fullResponse]. rewrite Hel. reflexivity.
Qed.

Lemma on_world_emit e s :
  on_world (emit e) s = (Normal tt, set_base (add_event e (base s)) s).
Proof. reflexivity. Qed.

Lemma during_stream_read ai e s :
  requests [e] = [] -> alerts [e] = [] ->
  during_stream ai s (set_base (add_event e (base s)) s).
Proof.
  intros R A. repeat split; cbn; rewrite ?requests_app, ?alerts_app, ?R, ?A;
    now rewrite ?app_nil_r.
Qed.

(** The loop of [sendChatMessage] with the callback of [sendMessage]. *)
Lemma read_chunks_V_streams ai parts failure :
  forall d acc s el,
  document (base s) "chatMessages" = Some el ->
  exists r s',
    read_chunks_V (Some (streaming_callback ai)) parts failure d acc s = (r, s') /\
    during_stream ai s s' /\
    match failure with
    | Some e => r = Throw e
    | None =>
        r = Normal (acc ++ List.concat (decoded d parts)) /\
        fullResponse s' = fullResponse s ++ List.concat (decoded d parts) /\
        (parts = [] -> messages s' = messages s /\ scrolled s' = scrolled s) /\
        (parts <> [] ->
         messages s' = with_innerHTML ai (renderMarkdown (fullResponse s')) (messages s) /\
         scrolled s' = messages s')
    end.
Proof.
  induction parts as [ | value rest IH ]; intros d acc s el Hel.
  - cbn [read_chunks_V decoded List.concat].
    rewrite (V_bind_Normal _ _ _ _ _ (on_world_emit _ _)).
    destruct failure as [ e | ]; eexists; eexists;
      (split; [ reflexivity | ]);
      (split; [ now apply during_stream_read | ]); [ reflexivity | ].
    rewrite !app_nil_r. cbn.
    split; [ reflexivity | ]. split; [ reflexivity | ].
    split; [ split; reflexivity | intros Hne; now elim Hne ].
  - cbn [read_chunks_V decoded].
    destruct (TextDecoder.decode d value) as [d' chunk].
    rewrite (V_bind_Normal _ _ _ _ _ (on_world_emit _ _)).
    unfold V_bind at 1.
    rewrite (V_bind_Normal _ _ _ _ _ (on_world_emit _ _)).
    erewrite streaming_callback_eq by exact Hel.
    match goal with
    | |- context [read_chunks_V _ rest failure d' _ ?s3] =>
        destruct (IH d' (acc ++ chunk) s3 el Hel) as (r & s' & Hrun & Hframe & Hres);
          assert (Hstep : during_stream ai s s3)
    end.
    { repeat split; cbn; rewrite ?requests_app, ?alerts_app; cbn;
        rewrite ?app_nil_r; try reflexivity.
      apply without_with_innerHTML. }
    exists r, s'. split; [ exact Hrun | ].
    split; [ exact (during_stream_trans _ _ _ _ Hstep Hframe) | ].
    destruct failure as [ e | ]; [ exact Hres | ].
    destruct Hres as (-> & Hfull & Hnone & Hsome).
    cbn [fullResponse messages scrolled List.concat] in *.
    rewrite Hfull, <- !app_assoc.
    split; [ reflexivity | ]. split; [ reflexivity | ].
    split; [ discriminate | intros _ ].
    destruct rest as [ | value' rest ].
    + destruct (Hnone eq_refl) as [ -> -> ]. cbn. now rewrite !app_nil_r.
    + destruct Hsome as [ -> -> ]; [ discriminate | ].
      rewrite with_innerHTML_twice, Hfull. now rewrite <- !app_assoc.
Qed.

Lemma on_world_fetch url init s :
  on_world (fetch url init) s =
    (network (base s) (fetched (base s)),
     set_base (count_fetch (add_event (Fetch url init) (base s))) s).
Proof. reflexivity. Qed.

Lemma during_stream_console ai s s1 e :
  during_stream ai s s1 ->
  during_stream ai s (set_base (add_event (ConsoleError (js "API Error:") e) (base s1)) s1).
Proof.
  intros H. apply (during_stream_trans _ _ _ _ H).
  now apply during_stream_read.
Qed.

(** [sendChatMessage] with the callback of [sendMessage]: once the request
    is made, the answer goes into the one message. *)
Lemma sendChatMessage_V_streams ai sessionId url message s el :
  chat_sendMessage sessionId = Normal url ->
  document (base s) "chatMessages" = Some el ->
  exists r s',
    sendChatMessage_V sessionId message (Some (streaming_callback ai)) s
      = (Normal r, s') /\
    during_stream ai
      (set_base
         (count_fetch
            (add_event (Fetch url (message_request message))
               (base s))) s) s' /\
    (stream_fails (network (base s) (fetched (base s))) = true -> success r = false) /\
    (forall r0 parts,
       network (base s) (fetched (base s)) = Normal r0 ->
       ok r0 = true ->
       stream r0 = Some (mkStream parts None) ->
       r = Success (ai_response (List.concat (decoded TextDecoder.fresh parts))) /\
       fullResponse s' =
         fullResponse s ++ List.concat (decoded TextDecoder.fresh parts) /\
       (parts = [] -> messages s' = messages s /\ scrolled s' = scrolled s) /\
       (parts <> [] ->
        messages s' = with_innerHTML ai (renderMarkdown (fullResponse s')) (messages s) /\
        scrolled s' = messages s')).
Proof.
  intros Hurl Hel. unfold sendChatMessage_V.
  unfold V_bind at 1, V_lift at 1. rewrite Hurl.
  unfold V_try_catch. fold (message_request message).
  unfold V_bind at 1. rewrite on_world_fetch.
  set (s1 := set_base (count_fetch (add_event _ (base s))) s).
  unfold stream_fails.
  assert (Failed : forall e s2,
    during_stream ai s1 s2 ->
    exists r s',
      V_bind (on_world (console_error (js "API Error:") e))
        (fun _ => V_ret (Failure (error_message e))) s2 = (Normal r, s') /\
      during_stream ai s1 s' /\ success r = false).
  { intros e s2 H. eexists. eexists. split; [ reflexivity | ].
    split; [ now apply during_stream_console | reflexivity ]. }
  destruct (network (base s) (fetched (base s))) as [ r0 | e ].
  - unfold V_bind at 1.
    destruct (ok r0) eqn:Hok; cbn [negb].
    + unfold V_ret at 1. unfold V_bind at 1.
      destruct (stream r0) as [ [ parts fl ] | ] eqn:Hstream.
      * unfold V_ret at 1. cbn [chunks failure]. unfold V_bind at 1.
        destruct (read_chunks_V_streams ai parts fl TextDecoder.fresh [] s1 el Hel)
          as (r & s2 & Hrun & Hframe & Hres).
        rewrite Hrun. destruct fl as [ e | ].
        -- subst r. destruct (Failed e s2 Hframe) as (r & s' & Hrun' & Hframe' & Hr).
           exists r, s'. split; [ exact Hrun' | ]. split; [ exact Hframe' | ].
           split; [ intros _; exact Hr | ].
           intros r1 parts' E _ E'. injection E as <-. rewrite Hstream in E'.
           discriminate E'.
        -- destruct Hres as (-> & Hfull & Hnone & Hsome).
           eexists. eexists. split; [ reflexivity | ]. split; [ exact Hframe | ].
           split; [ discriminate | ].
           intros r1 parts' E _ E'. injection E as <-. rewrite Hstream in E'.
           injection E' as <-. repeat split; try assumption.
           ++ now apply Hnone.
           ++ now apply Hnone.
           ++ now apply Hsome.
           ++ now apply Hsome.
      * destruct (Failed (mkError "TypeError" (TypeError_property (js "getReader"))) s1
                    (during_stream_refl _ _)) as (r & s' & Hrun' & Hframe' & Hr).
        exists r, s'. split; [ exact Hrun' | ]. split; [ exact Hframe' | ].
        split; [ intros _; exact Hr | ].
        intros r1 parts' E _ E'. injection E as <-. rewrite Hstream in E'.
        discriminate E'.
    + unfold V_bind at 1, V_lift at 1, V_throw at 1. cbn [new_Error ToString and_then].
      destruct (Failed (mkError "Error" (js "API request failed")) s1
                  (during_stream_refl _ _)) as (r & s' & Hrun' & Hframe' & Hr).
      exists r, s'. split; [ exact Hrun' | ]. split; [ exact Hframe' | ].
      split; [ intros _; exact Hr | ].
      intros r1 parts' E E'. injection E as <-. congruence.
  - destruct (Failed e s1 (during_stream_refl _ _)) as (r & s' & Hrun' & Hframe' & Hr).
    exists r, s'. split; [ exact Hrun' | ]. split; [ exact Hframe' | ].
    split; [ intros _; exact Hr | ]. discriminate.
Qed.

Lemma on_world_ret {A} (a : A) s : on_world (ret a) s = (Normal a, s).
Proof. unfold on_world, ret. cbn. now rewrite set_base_base. Qed.

Lemma without_app ai ms ms' : without ai (ms ++ ms') = without ai ms ++ without ai ms'.
Proof. apply filter_app. Qed.

Lemma with_innerHTML_app ai h ms ms' :
  with_innerHTML ai h (ms ++ ms') = with_innerHTML ai h ms ++ with_innerHTML ai h ms'.
Proof. apply map_app. Qed.

Lemma numbered_others s n :
  numbered s -> created s <= n -> Forall (fun m => fst m <> n) (messages s).
Proof.
  unfold numbered. intros H Hn. eapply Forall_impl; [ | exact H ].
  intros m Hm. cbn in Hm. lia.
Qed.

(** [sendMessage] with a message to send and a session to send it to.  [r]
    is the result of [sendChatMessage] and [s2] the chat when it returns. *)
Lemma sendMessage_eq s (text url : jsstring) (id : value) :
  control_value (base s) "messageInput" = Some text ->
  trim text <> [] ->
  truthy (currentChatSession (base s)) = true ->
  get (currentChatSession (base s)) (js "id") = Normal id ->
  chat_sendMessage id = Normal url ->
  has_elements ["chatMessages"]%string (base s) ->
  numbered s ->
  exists r s2 s',
    sendChatMessage_V id (VStr (trim text)) (Some (streaming_callback (S (created s))))
      (sending (trim text) s) = (Normal r, s2) /\
    sendMessage s = (Normal tt, s') /\
    control_value (base s') "messageInput" = Some [] /\
    alerts (log (base s')) = alerts (log (base s)) /\
    requests (log (base s')) =
      requests (log (base s))
        ++ [(url, message_request (VStr (trim text)))] /\
    if success r then
      messages s' = messages s2 /\ scrolled s' = scrolled s2 /\
      created s' = S (S (created s))
    else
      messages s' =
        messages s ++ [ (created s, user_message (trim text));
                        (S (S (created s)), error_message_shown) ] /\
      scrolled s' = messages s' /\
      created s' = S (S (S (created s))).
Proof.
  unfold control_value. intros Htext Hmessage Hsession Hid Hurl Hpage Hnumbered.
  destruct (document (base s) "messageInput") as [ box | ] eqn:Hbox; [ | discriminate Htext ].
  injection Htext as Htext. page_elements Hpage.
  assert (Hel0 : document (base (sending (trim text) s)) "chatMessages" = Some el).
  { cbn. exact Hel. }
  destruct (sendChatMessage_V_streams (S (created s)) id url (VStr (trim text))
              (sending (trim text) s) el Hurl Hel0)
    as (r & s2 & Hrun & Hframe & _).
  destruct Hframe as (Hdoc & _ & Halerts & Hrequests & _ & Hcreated & _ & Hothers).
  exists r, s2.
  assert (Hstart : sendMessage s =
    V_bind (sendChatMessage_V id (VStr (trim text))
              (Some (streaming_callback (S (created s)))))
      (fun result =>
         V_bind
           (V_bind (on_world (getElementById "typingIndicator"))
              (fun indicator =>
                 match indicator with
                 | Some _ => on_world (remove "typingIndicator")
                 | None => V_ret tt
                 end))
           (fun _ =>
              if negb (success result) then
                V_bind (remove_message (S (created s))) (fun _ =>
                V_bind (appendMessage (VStr (js "system"))
                          (VStr (js "Error: Could not get response from AI mechanic.")))
                  (fun _ => V_ret tt))
              else V_ret tt))
      (sending (trim text) s)).
  { unfold sendMessage.
    rewrite (V_bind_Normal _ _ _ _ _ (on_world_getElementById _ _)), Hbox.
    unfold property. rewrite (V_bind_Normal _ _ _ _ _ (on_world_ret _ _)), Htext.
    destruct (trim text) as [ | c t ] eqn:T; [ now elim Hmessage | ].
    cbn [truthy negb].
    rewrite (V_bind_Normal _ _ _ _ _ (on_world_read _ _)), Hsession. cbn [negb].
    rewrite (V_bind_Normal _ _ _ _ _ (on_world_eq _ _ _ _ (assign_eq _ _ _ _ _))).
    erewrite V_bind_Normal; cycle 1.
    { apply appendMessage_eq with (el := el); [ exact Hel | reflexivity ]. }
    erewrite V_bind_Normal; cycle 1.
    { apply appendMessage_eq with (el := el); [ exact Hel | reflexivity ]. }
    unfold V_bind at 1, V_write at 1.
    rewrite (V_bind_Normal _ _ _ _ _ (on_world_read _ _)).
    unfold V_bind at 1, V_lift at 1.
    cbn [base set_base appended set_fullResponse currentChatSession set_document created].
    rewrite Hid. reflexivity. }
  rewrite Hstart. rewrite (V_bind_Normal _ _ _ _ _ Hrun). clear Hstart.
  cbn [base set_base sending set_fullResponse appended created messages document
       set_document log count_fetch add_event] in Hdoc, Halerts, Hrequests, Hcreated,
       Hothers.
  assert (Hkept : without (S (created s)) (messages s2) =
                    messages s ++ [(created s, user_message (trim text))]).
  { rewrite Hothers, !without_app.
    rewrite without_others by (apply numbered_others; [ assumption | lia ]).
    unfold without. cbn [filter fst].
    rewrite Nat.eqb_refl. replace (Nat.eqb (created s) (S (created s))) with false
      by (symmetry; apply Nat.eqb_neq; lia).
    cbn. now rewrite app_nil_r. }
  assert (Hindicator : exists s3,
    V_bind (on_world (getElementById "typingIndicator"))
      (fun indicator =>
         match indicator with
         | Some _ => on_world (remove "typingIndicator")
         | None => V_ret tt
         end) s2 = (Normal tt, s3) /\
    messages s3 = messages s2 /\ scrolled s3 = scrolled s2 /\
    created s3 = created s2 /\ log (base s3) = log (base s2) /\
    document (base s3) "chatMessages" = document (base s2) "chatMessages" /\
    document (base s3) "messageInput" = document (base s2) "messageInput").
  { rewrite (V_bind_Normal _ _ _ _ _ (on_world_getElementById _ _)).
    destruct (document (base s2) "typingIndicator");
      eexists; (split; [ reflexivity | ]); repeat split. }
  destruct Hindicator as (s3 & Hrun3 & Hm3 & Hs3 & Hc3 & Hl3 & Hd3 & Hi3).
  rewrite (V_bind_Normal _ _ _ _ _ Hrun3).
  assert (Hinput : control_value (base s3) "messageInput" = Some []).
  { unfold control_value. rewrite Hi3, Hdoc. unfold update_element. cbn.
    now rewrite Hbox. }
  assert (Hlog : alerts (log (base s3)) = alerts (log (base s)) /\
                 requests (log (base s3)) =
                   requests (log (base s))
                     ++ [(url, message_request (VStr (trim text)))]).
  { rewrite Hl3, Halerts, Hrequests, alerts_app, requests_app. cbn.
    now rewrite app_nil_r. }
  destruct Hlog as [ Ha Hr ].
  destruct (success r); cbn [negb].
  - exists s3. unfold V_ret. split; [ exact Hrun | ]. split; [ reflexivity | ].
    split; [ exact Hinput | ]. split; [ exact Ha | ]. split; [ exact Hr | ].
    split; [ assumption | ]. split; [ assumption | congruence ].
  - unfold V_bind at 1, remove_message at 1, V_write at 1.
    erewrite V_bind_Normal; cycle 1.
    { apply appendMessage_eq with (el := el); [ | reflexivity ].
      cbn [base set_messages]. rewrite Hd3, Hdoc. unfold update_element. cbn.
      exact Hel. }
    unfold V_ret. eexists. split; [ exact Hrun | ]. split; [ reflexivity | ].
    cbn [base set_messages appended messages scrolled created].
    rewrite Hm3, Hc3, Hcreated, Hkept, <- app_assoc.
    split; [ exact Hinput | ]. split; [ exact Ha | ]. split; [ exact Hr | ].
    repeat split.
Qed.

(** X29.  [sendMessage], when the address of the request can be built
    from the id of the session and the answer streams in to its end, leaves
    two new messages at the end of the page: what the user typed, trimmed
    and shown as text, and the answer of the assistant, rendered from the
    whole text that the bytes of the stream decode to.  The input is empty,
    the view is scrolled to the end, and no dialog was shown.  Pressing
    Enter does the same. *)
Theorem sendMessage_streams (s : chat) (text url : jsstring) (id : value)
    (r : response) (parts : list (list Byte.byte)) :
  control_value (base s) "messageInput" = Some text ->
  trim text <> [] ->
  truthy (currentChatSession (base s)) = true ->
  get (currentChatSession (base s)) (js "id") = Normal id ->
  chat_sendMessage id = Normal url ->
  has_elements ["chatMessages"]%string (base s) ->
  numbered s ->
  network (base s) (fetched (base s)) = Normal r ->
  ok r = true ->
  stream r = Some (mkStream parts None) ->
  exists s',
    sendMessage s = (Normal tt, s') /\
    handleKeyPress (VStr (js "Enter")) s = (Normal tt, s') /\
    requests (log (base s')) =
      requests (log (base s))
        ++ [(url, message_request (VStr (trim text)))] /\
    messages s' =
      messages s
        ++ [ (created s, user_message (trim text));
             (S (created s),
              assistant_message
                (renderMarkdown
                   (snd (TextDecoder.decode TextDecoder.fresh (List.concat parts))))) ] /\
    at_bottom s' /\
    numbered s' /\
    control_value (base s') "messageInput" = Some [] /\
    alerts (log (base s')) = alerts (log (base s)).
Proof.
  intros Htext Hmessage Hsession Hid Hurl Hpage Hnumbered Hnet Hok Hstream.
  destruct (sendMessage_eq s text url id Htext Hmessage Hsession Hid Hurl Hpage Hnumbered)
    as (r0 & s2 & s' & Hrun & Hsend & Hinput & Halerts & Hrequests & Hresult).
  page_elements Hpage.
  destruct (sendChatMessage_V_streams (S (created s)) id url (VStr (trim text))
              (sending (trim text) s) el Hurl Hel)
    as (r1 & s2' & Hrun' & _ & _ & Hdone).
  rewrite Hrun in Hrun'. injection Hrun' as <- <-.
  destruct (Hdone r parts Hnet Hok Hstream) as (-> & Hfull & Hnone & Hsome).
  cbn [success] in Hresult. destruct Hresult as (Hm & Hs & Hc).
  rewrite decoded_concat in Hfull. cbn [sending set_fullResponse fullResponse app] in Hfull.
  assert (Hshown :
    messages s2 =
      messages s
        ++ [ (created s, user_message (trim text));
             (S (created s),
              assistant_message
                (renderMarkdown
                   (snd (TextDecoder.decode TextDecoder.fresh (List.concat parts))))) ]
    /\ scrolled s2 = messages s2).
  { destruct parts as [ | value rest ].
    - destruct (Hnone eq_refl) as [ -> -> ]. cbn. rewrite <- app_assoc. now split.
    - destruct Hsome as [ E -> ]; [ discriminate | ]. split; [ | reflexivity ].
      rewrite E, Hfull.
      cbn [sending set_fullResponse appended messages set_base created].
      rewrite !with_innerHTML_app.
      rewrite with_innerHTML_others by (apply numbered_others; [ assumption | lia ]).
      unfold with_innerHTML. cbn [map fst snd].
      rewrite Nat.eqb_refl.
      replace (Nat.eqb (created s) (S (created s))) with false
        by (symmetry; apply Nat.eqb_neq; lia).
      now rewrite <- app_assoc. }
  destruct Hshown as [ Hshown Hbottom ].
  exists s'. split; [ exact Hsend | ].
  split.
  { unfold handleKeyPress, detached.
    replace (is_string (VStr (js "Enter")) (js "Enter")) with true by reflexivity.
    now rewrite Hsend. }
  split; [ exact Hrequests | ].
  split; [ now rewrite Hm | ].
  split; [ unfold at_bottom; now rewrite Hs, Hm | ].
  split; [ | split; assumption ].
  unfold numbered. rewrite Hm, Hshown, Hc. apply Forall_app. split.
  - eapply Forall_impl; [ | exact Hnumbered ]. intros m K. cbn in K. lia.
  - repeat constructor; cbn; lia.
Qed.

(** X30.  [sendMessage], when its request is made (the address can be
    built from the id of the session) and the answer does not come ([fetch]
    rejects, the status is not successful, the response has no body, or the
    stream breaks, also after a part of the answer was shown), takes the
    message of the assistant off the page again and puts a message of the
    system in its place, which says that no response could be had.  What
    the user typed stays on the page, the input is empty, and no dialog is
    shown. *)
Theorem sendMessage_rolls_back (s : chat) (text url : jsstring) (id : value) :
  control_value (base s) "messageInput" = Some text ->
  trim text <> [] ->
  truthy (currentChatSession (base s)) = true ->
  get (currentChatSession (base s)) (js "id") = Normal id ->
  chat_sendMessage id = Normal url ->
  has_elements ["chatMessages"]%string (base s) ->
  numbered s ->
  stream_fails (network (base s) (fetched (base s))) = true ->
  exists s',
    sendMessage s = (Normal tt, s') /\
    messages s' =
      messages s ++ [ (created s, user_message (trim text));
                      (S (S (created s)), error_message_shown) ] /\
    at_bottom s' /\
    numbered s' /\
    control_value (base s') "messageInput" = Some [] /\
    alerts (log (base s')) = alerts (log (base s)).
Proof.
  intros Htext Hmessage Hsession Hid Hurl Hpage Hnumbered Hfails.
  destruct (sendMessage_eq s text url id Htext Hmessage Hsession Hid Hurl Hpage Hnumbered)
    as (r0 & s2 & s' & Hrun & Hsend & Hinput & Halerts & Hrequests & Hresult).
  page_elements Hpage.
  destruct (sendChatMessage_V_streams (S (created s)) id url (VStr (trim text))
              (sending (trim text) s) el Hurl Hel)
    as (r1 & s2' & Hrun' & _ & Hfailed & _).
  rewrite Hrun in Hrun'. injection Hrun' as <- <-.
  rewrite (Hfailed Hfails) in Hresult. destruct Hresult as (Hm & Hs & Hc).
  exists s'. split; [ exact Hsend | ]. split; [ exact Hm | ].
  split; [ exact Hs | ]. split; [ | split; assumption ].
  unfold numbered. rewrite Hm, Hc. apply Forall_app. split.
  - eapply Forall_impl; [ | exact Hnumbered ]. intros m K. cbn in K. lia.
  - repeat constructor; cbn; lia.
Qed.

End ChatProperties.

(* ================================================================== *)
(** * The statements on examples *)
(* ================================================================== *)

Section Examples.
Import Demo.
#[local] Existing Instance engine.

(** A status 400 whose body carries a message. *)
Lemma apiRequest_error_text_example :
  let w := start blank VNull
             (server (Normal (bad_request
                        (VObj [(js "message", VStr (js "Plate is required"))])))
                offline) true in
  fst (apiRequest (js "/api/v1/cars/") None w)
    = Normal (Failure (js "Plate is required")).
Proof.
  intros w.
  refine (proj1 (proj2
    (apiRequest_error_text (js "/api/v1/cars/") None w
       (bad_request (VObj [(js "message", VStr (js "Plate is required"))]))
       (VObj [(js "message", VStr (js "Plate is required"))])
       (VStr (js "Plate is required"))
       eq_refl eq_refl eq_refl eq_refl)) (js "Plate is required") eq_refl _).
  discriminate.
Defined.

(** C3 as it was stated fails on a body whose message is the empty string:
    the body contains a [message], and the error text is not that message
    but the fallback. *)
Lemma apiRequest_empty_message :
  own_property (js "message") [(js "message", VStr [])] = VStr [] /\
  ok (bad_request (VObj [(js "message", VStr [])])) = false /\
  fst (apiRequest (js "/api/v1/cars/") None
         (start blank VNull
            (server (Normal (bad_request (VObj [(js "message", VStr [])]))) offline)
            true))
    = Normal (Failure (js "API request failed")) /\
  js "API request failed" <> [].
Proof.
  repeat split; try reflexivity. discriminate.
Qed.

(** A body whose message cannot be converted to a string: the error text
    is that of the TypeError, neither the message nor the fallback. *)
Lemma apiRequest_unconvertible_message :
  fst (apiRequest (js "/api/v1/cars/") None
         (start blank VNull
            (server
               (Normal (bad_request
                  (VObj [(js "message", VObj [(js "toString", VNum (number_of_Z 1))])])))
               offline)
            true))
    = Normal (Failure (js "Cannot convert object to primitive value")).
Proof.
  reflexivity.
Qed.

(** A request while the network is down. *)
Lemma apiRequest_never_throws_example :
  fst (apiRequest (js "/api/v1/cars/") None (start blank VNull (server offline offline) true))
    = Normal (Failure (js "Failed to fetch")).
Proof.
  exact (proj1 (proj2
    (apiRequest_never_throws (js "/api/v1/cars/") None
       (start blank VNull (server offline offline) true)))
    (mkError "TypeError" (js "Failed to fetch")) eq_refl).
Defined.






(** Discharges [has_elements] on a page that is given in full. *)
Ltac on_page := repeat constructor; discriminate.

(** Closing session 7 while the network is down. *)
Lemma closeChat_resets_example :
  exists w',
    closeChat (start blank session_7 (server offline offline) true) = (Normal tt, w') /\
    currentChatSession w' = VNull /\
    display_of w' "chat" = Some (js "none").
Proof.
  apply (closeChat_resets (rt := engine) (start blank session_7 (server offline offline) true)
           (VNum (number_of_Z 7)) (js "/api/v1/chat/sessions/7/close/"));
    [ reflexivity | reflexivity | reflexivity | reflexivity | on_page ].
Defined.

(** C6 as it was stated fails on a session whose id cannot be put into the
    address of the request: a session is stored and the user confirms, and
    [closeChat] throws while it builds the address.  No request is made,
    the session stays stored, the panel stays shown, and the spinner stays
    on. *)
Lemma closeChat_unconvertible_id :
  truthy session_odd = true /\
  user (start blank session_odd (server offline offline) true) 0 = true /\
  exists w',
    closeChat (start blank session_odd (server offline offline) true)
      = (Throw (mkError "TypeError" (js "Cannot convert object to primitive value")),
         w') /\
    currentChatSession w' = session_odd /\
    display_of w' "chat" = Some (js "block") /\
    display_of w' "loadingSpinner" = Some (js "flex") /\
    requests (log w') = [].
Proof.
  split; [ reflexivity | ]. split; [ reflexivity | ].
  eexists. split; [ reflexivity | ]. repeat split.
Qed.

(** A confidence of 0.7. *)
Lemma getConfidenceColor_tiers_example :
  number_ge lit_0_7 lit_0_6 = true /\
  number_lt lit_0_7 lit_0_8 = true /\
  getConfidenceColor (VNum lit_0_7) = Normal amber.
Proof.
  split; [ reflexivity | split; [ reflexivity | ] ].
  exact (proj1 (proj2 (getConfidenceColor_tiers lit_0_7)) eq_refl eq_refl).
Defined.

(** Submitting the empty form, and a form with an email address. *)
Lemma handleComplaintSubmit_requires_contact_example :
  (exists w',
     handleComplaintSubmit (start blank VNull (server offline offline) true)
       = (Normal tt, w') /\
     log w' = [ PreventDefault;
                Alert (js "Please provide at least an email or phone number.") ] /\
     fetched w' = 0) /\
  (exists email phone,
     control_value
       (start (index_html (js "ada@example.org") [] [] [] []) VNull
          (server offline offline) true) "customerEmail" = Some email /\
     control_value
       (start (index_html (js "ada@example.org") [] [] [] []) VNull
          (server offline offline) true) "customerPhone" = Some phone /\
     (email <> [] \/ phone <> [])).
Proof.
  split.
  - apply (proj1 (handleComplaintSubmit_requires_contact
                    (start blank VNull (server offline offline) true)
                    ltac:(on_page)));
      reflexivity.
  - apply (proj2 (handleComplaintSubmit_requires_contact
                    (start (index_html (js "ada@example.org") [] [] [] []) VNull
                       (server offline offline) true)
                    ltac:(on_page))).
    vm_compute. discriminate.
Defined.

(** A form with a phone number, the year 2015 and the mileage [n/a]. *)
Lemma handleComplaintSubmit_numbers_example :
  exists formData,
    requests
      (log (snd (handleComplaintSubmit
                   (start (index_html [] (js "555 0100") (js "2015") (js "n/a") [])
                      VNull (server offline offline) true))))
      = [(complaints_quickSubmit, submit_request formData)] /\
    get formData (js "car_year") = Normal (VNum (number_of_Z 2015)) /\
    get formData (js "car_mileage") = Normal (VNum (S754_zero false)).
Proof.
  destruct (handleComplaintSubmit_numbers
              (start (index_html [] (js "555 0100") (js "2015") (js "n/a") [])
                 VNull (server offline offline) true)
              (js "2015") (js "n/a")
              ltac:(on_page) ltac:(on_page) eq_refl eq_refl
              ltac:(right; discriminate))
    as (formData & Hsent & Hyear & Hmileage & _).
  exists formData. split; [ exact Hsent | ]. split; [ exact Hyear | exact Hmileage ].
Defined.

(** C9 as it was stated fails on the year [0]: the text parses as an
    integer, zero, and the year is sent as unset. *)
Lemma handleComplaintSubmit_year_zero :
  parseInt (js "0") = S754_zero false /\
  exists formData,
    requests
      (log (snd (handleComplaintSubmit
                   (start (index_html [] (js "555 0100") (js "0") (js "0") [])
                      VNull (server offline offline) true))))
      = [(complaints_quickSubmit, submit_request formData)] /\
    get formData (js "car_year") = Normal VUndefined.
Proof.
  split; [ reflexivity | ].
  eexists. split; [ vm_compute; reflexivity | reflexivity ].
Qed.

(** A search for a car whose history the server refuses to give. *)
Lemma searchVehicle_swallows_history_failure_example :
  exists w' e,
    searchVehicle
      (start (index_html [] [] [] [] (js " abc 1 ")) VNull
         (server (json_response 200 car_3)
                 (json_response 500 (VObj [(js "message", VStr (js "database is down"))])))
         true)
      = (Normal tt, w') /\
    document w' "searchResults" = blank "searchResults" /\
    alerts (log w') = [] /\
    log w' =
      [ Fetch (js "/api/v1/cars/by_license_plate/?plate=abc%201") plain_request;
        Fetch (js "/api/v1/cars/3/complaint_history/") plain_request;
        ConsoleError (js "API Error:") e ].
Proof.
  exact (searchVehicle_swallows_history_failure (rt := engine)
           (start (index_html [] [] [] [] (js " abc 1 ")) VNull
              (server (json_response 200 car_3)
                 (json_response 500 (VObj [(js "message", VStr (js "database is down"))])))
              true)
           (js " abc 1 ") (js "abc%201") (js "/api/v1/cars/3/complaint_history/")
           (mkResponse 200 (Normal car_3) (Some (mkStream [] None)))
           car_3 (VNum (number_of_Z 3))
           ltac:(on_page) eq_refl ltac:(discriminate) eq_refl eq_refl eq_refl eq_refl
           eq_refl eq_refl eq_refl).
Defined.

(** The same answer cut in other places. *)
Lemma sendChatMessage_chunking_example :
  fst (sendChatMessage (VNum (number_of_Z 7)) (VStr (js "hi")) None
         (start blank session_7 (server (Normal (streamed cafe None)) offline) true))
    = Normal (Success (ai_response (js "caf" ++ [233; 33]%N))).
Proof.
  exact (sendChatMessage_chunking (rt := engine) (VNum (number_of_Z 7)) (VStr (js "hi"))
           (js "/api/v1/chat/sessions/7/send_message/") None
           (start blank session_7 (server (Normal (streamed cafe None)) offline) true)
           (streamed cafe None) cafe eq_refl eq_refl eq_refl eq_refl
           (fun f H => match H with end)).
Defined.

(** A caller that gives no headers, and one that sends plain text. *)
Lemma finalOptions_headers_example :
  headers (finalOptions (mkOptions (Some (js "POST")) None None))
    = [(js "Content-Type", js "application/json")] /\
  header (js "Content-Type")
    (headers (finalOptions
       (mkOptions (Some (js "POST")) (Some [(js "Content-Type", js "text/plain")]) None)))
    = Some (js "text/plain").
Proof.
  split.
  - exact (proj1 (finalOptions_headers (mkOptions (Some (js "POST")) None None)) eq_refl).
  - refine (proj2 (finalOptions_headers
              (mkOptions (Some (js "POST")) (Some [(js "Content-Type", js "text/plain")])
                 None))
              [(js "Content-Type", js "text/plain")] (js "Content-Type") eq_refl _).
    repeat constructor. intros [].
Defined.

(** A search with a box that holds only spaces. *)
Lemma searchVehicle_requires_plate_example :
  searchVehicle (start (index_html [] [] [] [] (js "   ")) VNull (server offline offline) true)
    = (Normal tt,
       add_event (Alert (js "Please enter a license plate number"))
         (start (index_html [] [] [] [] (js "   ")) VNull (server offline offline) true)).
Proof.
  exact (searchVehicle_requires_plate
           (start (index_html [] [] [] [] (js "   ")) VNull (server offline offline) true)
           (js "   ") eq_refl eq_refl).
Defined.

(** A search for a plate the server does not know. *)
Lemma searchVehicle_not_found_example :
  exists w',
    searchVehicle
      (start (index_html [] [] [] [] (js "XYZ")) VNull
         (server (json_response 404 (VObj [(js "detail", VStr (js "Not found."))])) offline)
         true)
      = (Normal tt, w') /\
    option_map inner (document w' "searchResults") =
      Some (InnerHTML (VStr (jsq
        "<div class=`search-card`><p>No vehicle found with this license plate.</p></div>"))) /\
    alerts (log w') = [].
Proof.
  exact (searchVehicle_not_found
           (start (index_html [] [] [] [] (js "XYZ")) VNull
              (server (json_response 404 (VObj [(js "detail", VStr (js "Not found."))]))
                 offline) true)
           (js "XYZ") (js "XYZ") ltac:(on_page) eq_refl ltac:(discriminate) eq_refl eq_refl).
Defined.

(** A submission while the network is down. *)
Lemma handleComplaintSubmit_failure_example :
  exists w' error,
    handleComplaintSubmit
      (start (index_html (js "ada@example.org") [] [] [] []) VNull
         (server offline offline) true)
      = (Normal tt, w') /\
    settled offline = Failure error /\
    alerts (log w') = [] ++ [js "Error submitting complaint: " ++ error].
Proof.
  exact (handleComplaintSubmit_failure
           (start (index_html (js "ada@example.org") [] [] [] []) VNull
              (server offline offline) true)
           ltac:(on_page) ltac:(on_page) ltac:(left; discriminate) eq_refl).
Defined.

End Examples.

(* ================================================================== *)
(** * The further statements on examples *)
(* ================================================================== *)

Section FurtherExamples.
Import Demo ChatDemo.
#[local] Existing Instance engine.

(** Discharges [has_elements] on a page that is given in full. *)
Ltac present := repeat constructor; discriminate.

(** A search for a plate that is half an emoji. *)
Lemma searchVehicle_malformed_plate_example :
  exists w',
    searchVehicle
      (start (index_html [] [] [] [] [55357%N]) VNull (server offline offline) true)
      = (Throw (mkError "URIError" (js "URI malformed")), w') /\
    display_of w' "loadingSpinner" = Some (js "flex") /\
    log w' = [] /\
    fetched w' = 0.
Proof.
  exact (searchVehicle_malformed_plate
           (start (index_html [] [] [] [] [55357%N]) VNull (server offline offline) true)
           [55357%N] ltac:(present) eq_refl eq_refl).
Defined.

(** A submission that the server answers with [null]: showing the answer
    throws, and the spinner is hidden all the same. *)
Lemma spinner_hidden_after_request_example :
  (exists e w',
     handleComplaintSubmit
       (start (index_html (js "ada@example.org") [] [] [] []) VNull
          (server (json_response 200 VNull) offline) true) = (Throw e, w')) /\
  display_of
    (snd (handleComplaintSubmit
            (start (index_html (js "ada@example.org") [] [] [] []) VNull
               (server (json_response 200 VNull) offline) true)))
    "loadingSpinner" = Some (js "none").
Proof.
  split; [ eexists; eexists; reflexivity | ].
  exact (proj1 (spinner_hidden_after_request
                  (start (index_html (js "ada@example.org") [] [] [] []) VNull
                     (server (json_response 200 VNull) offline) true)
                  ltac:(present))
           ltac:(present) ltac:(left; discriminate)).
Defined.

(** The result of a submission on a page without a place for the analysis. *)
Lemma displayComplaintResult_optional_analysis_example :
  exists w',
    displayComplaintResult (VObj [(js "complaint", complaint_12); (js "car", panda)])
      (start card_only VNull (server offline offline) true) = (Normal tt, w') /\
    display_of w' "resultCard" = Some (js "block") /\
    inner_of w' "analysisContent" = None /\
    log w' = [].
Proof.
  exact (displayComplaintResult_optional_analysis
           [(js "complaint", complaint_12); (js "car", panda)]
           [ (js "id", VNum (number_of_Z 12));
             (js "predicted_category", VStr (js "Brakes")) ]
           (start card_only VNull (server offline offline) true)
           eq_refl eq_refl ltac:(present)).
Defined.

(** A submission that the server accepts. *)
Lemma handleComplaintSubmit_success_example :
  exists w' formData,
    handleComplaintSubmit
      (start (index_html (js "ada@example.org") [] [] [] []) VNull
         (server (json_response 201 accepted) offline) true) = (Normal tt, w') /\
    currentComplaint w' = complaint_12 /\
    currentCar w' = panda /\
    display_of w' "resultCard" = Some (js "block") /\
    inner_of w' "complaintId" = Some (TextContent (VNum (number_of_Z 12))) /\
    log w' =
      [ PreventDefault;
        Fetch (js "/api/v1/complaints/quick-submit/") (submit_request formData);
        SetTimeout ScrollResultIntoView 300 ].
Proof.
  exact (handleComplaintSubmit_success
           (start (index_html (js "ada@example.org") [] [] [] []) VNull
              (server (json_response 201 accepted) offline) true)
           (mkResponse 201 (Normal accepted) (Some (mkStream [] None)))
           accepted
           [(js "complaint", complaint_12); (js "car", panda)]
           [ (js "id", VNum (number_of_Z 12));
             (js "predicted_category", VStr (js "Brakes")) ]
           ltac:(present) ltac:(present) ltac:(left; discriminate)
           eq_refl eq_refl eq_refl eq_refl eq_refl eq_refl).
Defined.

(** Closing session 7 while the network is down, twice. *)
Lemma closeChat_once_example :
  exists w',
    closeChat (start blank session_7 (server offline offline) true) = (Normal tt, w') /\
    requests (log w') =
      [] ++ [(js "/api/v1/chat/sessions/7/close/",
              mkRequest (Some (js "POST")) content_type_json None)] /\
    alerts (log w') = [] ++ [js "Chat session closed successfully"] /\
    closeChat w' = (Normal tt, w').
Proof.
  exact (closeChat_once (rt := engine) (start blank session_7 (server offline offline) true)
           (VNum (number_of_Z 7)) (js "/api/v1/chat/sessions/7/close/")
           eq_refl eq_refl eq_refl eq_refl ltac:(present)).
Defined.

(** A plate that holds the separators of a query. *)
Lemma searchCarByPlate_url_example :
  forallb url_safe (js "a%26b%3Dc") = true /\
  requests
    (log (snd (searchCarByPlate (js "a&b=c")
                 (start blank VNull (server offline offline) true))))
    = [] ++ [(cars_byPlate ++ js "?plate=" ++ js "a%26b%3Dc", plain_request)].
Proof.
  refine (searchCarByPlate_url (js "a&b=c")
            (start blank VNull (server offline offline) true) _).
  repeat constructor.
Defined.

(** A search for a car that has no complaints. *)
Lemma searchVehicle_no_complaints_example :
  exists w',
    searchVehicle
      (start (index_html [] [] [] [] (js "ABC 123")) VNull
         (server (json_response 200 car_3)
                 (json_response 200 (VObj [(js "car", car_3); (js "complaints", VArr [])])))
         true)
      = (Normal tt, w') /\
    inner_of w' "searchResults" = Some no_complaints_card /\
    log w' =
      [] ++ [ Fetch (cars_byPlate ++ js "?plate=" ++ js "ABC%20123") plain_request;
              Fetch (js "/api/v1/cars/3/complaint_history/") plain_request ].
Proof.
  exact (searchVehicle_no_complaints (rt := engine)
           (start (index_html [] [] [] [] (js "ABC 123")) VNull
              (server (json_response 200 car_3)
                 (json_response 200 (VObj [(js "car", car_3); (js "complaints", VArr [])])))
              true)
           (js "ABC 123") (js "ABC%20123") (js "/api/v1/cars/3/complaint_history/")
           (mkResponse 200 (Normal car_3) (Some (mkStream [] None)))
           (mkResponse 200
              (Normal (VObj [(js "car", car_3); (js "complaints", VArr [])]))
              (Some (mkStream [] None)))
           car_3 (VNum (number_of_Z 3))
           [(js "car", car_3); (js "complaints", VArr [])]
           ltac:(present) eq_refl ltac:(discriminate) eq_refl eq_refl eq_refl eq_refl
           eq_refl eq_refl eq_refl eq_refl eq_refl eq_refl).
Defined.

(** Markup goes through. *)
Lemma renderMarkdown_plain_text_example :
  renderMarkdown (js "<img src=x onerror=alert(1)>") = js "<img src=x onerror=alert(1)>".
Proof.
  exact (renderMarkdown_plain_text (js "<img src=x onerror=alert(1)>") eq_refl eq_refl).
Defined.

(** Bold in the middle of a line. *)
Lemma renderMarkdown_bold_example :
  renderMarkdown (js "Check the " ++ js "**" ++ js "brake pads" ++ js "**" ++ js " first.")
    = js "Check the " ++ js "<strong>" ++ js "brake pads" ++ js "</strong>" ++ js " first.".
Proof.
  exact (renderMarkdown_bold (js "Check the ") (js "brake pads") (js " first.")
           eq_refl eq_refl eq_refl eq_refl).
Defined.

(** A heading and a list item. *)
Lemma renderMarkdown_line_rules_example :
  renderMarkdown (js "### " ++ js "Brakes") = js "<h3>" ++ js "Brakes" ++ js "</h3>" /\
  renderMarkdown (js "- " ++ js "Brakes") = js "<li>" ++ js "Brakes" ++ js "</li>".
Proof.
  destruct (renderMarkdown_line_rules (js "Brakes") eq_refl ltac:(discriminate))
    as (H3 & Li & _).
  split; assumption.
Defined.

(** ** The chat *)

(** A blank input, and the Enter key on it. *)
Lemma sendMessage_nothing_to_send_example :
  (sendMessage
     (chatting (chat_html (js "  ")) complaint_12 session_7 panda (server offline offline))
     = (Normal tt,
        chatting (chat_html (js "  ")) complaint_12 session_7 panda (server offline offline)) /\
   handleKeyPress (VStr (js "Enter"))
     (chatting (chat_html (js "  ")) complaint_12 session_7 panda (server offline offline))
     = (Normal tt,
        chatting (chat_html (js "  ")) complaint_12 session_7 panda (server offline offline))) /\
  sendMessage
    (chatting (chat_html (js "hi")) complaint_12 VNull panda (server offline offline))
    = (Normal tt,
       set_base
         (add_event (Alert (js "No active chat session"))
            (base (chatting (chat_html (js "hi")) complaint_12 VNull panda
                     (server offline offline))))
         (chatting (chat_html (js "hi")) complaint_12 VNull panda
            (server offline offline))).
Proof.
  split.
  - destruct (sendMessage_nothing_to_send
                (chatting (chat_html (js "  ")) complaint_12 session_7 panda
                   (server offline offline))
                (js "  ") eq_refl) as [ Hblank _ ].
    destruct (Hblank eq_refl) as [ H K ].
    split; [ exact H | exact (K (VStr (js "Enter"))) ].
  - exact (proj2 (sendMessage_nothing_to_send
                    (chatting (chat_html (js "hi")) complaint_12 VNull panda
                       (server offline offline))
                    (js "hi") eq_refl) ltac:(discriminate) eq_refl).
Defined.

(** Starting the chat while the network is down. *)
Lemma startChat_needs_session_example :
  exists s' id error,
    startChat
      (chatting (chat_html []) complaint_12 VNull panda (server offline offline))
      = (Normal tt, s') /\
    get complaint_12 (js "id") = Normal id /\
    settled offline = Failure error /\
    requests (log (base s')) = [] ++ [(chat_createSession, session_request id)] /\
    alerts (log (base s')) = [] ++ [js "Error starting chat: " ++ error] /\
    currentChatSession (base s') = VNull /\
    document (base s') "chat" = chat_html [] "chat" /\
    messages s' = [].
Proof.
  exact (proj2 (startChat_needs_session
                  (chatting (chat_html []) complaint_12 VNull panda
                     (server offline offline)))
           eq_refl ltac:(present) eq_refl).
Defined.

(** A message of the user that holds markup. *)
Lemma appendMessage_markup_example :
  exists m,
    appendMessage (VStr (js "user")) (VStr (js "<b>hi</b>"))
      (chatting (chat_html []) complaint_12 session_7 panda (server offline offline))
      = (Normal 0,
         appended m
           (chatting (chat_html []) complaint_12 session_7 panda
              (server offline offline))) /\
    className m = js "message " ++ js "user" /\
    textDiv m = TextContent (VStr (js "<b>hi</b>")).
Proof.
  exact (proj1 (appendMessage_markup (rt := engine) (VStr (js "user")) (VStr (js "<b>hi</b>"))
                  (chatting (chat_html []) complaint_12 session_7 panda
                     (server offline offline))
                  ltac:(present))
           (js "user") eq_refl eq_refl eq_refl).
Defined.

(** The two messages of a stored session. *)
Lemma displayMessages_replaces_example :
  exists s',
    displayMessages (VArr history)
      (chatting (chat_html []) complaint_12 session_7 panda (server offline offline))
      = (Normal tt, s') /\
    messages s' =
      [ (0, user_message (js "It squeals."));
        (1, assistant_message (js "<strong>Pads</strong>")) ] /\
    created s' = 2 /\
    numbered s' /\
    at_bottom s' /\
    log (base s') = [].
Proof.
  exact (displayMessages_replaces (rt := engine) history
           [ user_message (js "It squeals.");
             assistant_message (js "<strong>Pads</strong>") ]
           (chatting (chat_html []) complaint_12 session_7 panda
              (server offline offline))
           ltac:(present) ltac:(vm_compute; reflexivity)).
Defined.

(** Loading the messages of session 7, which has the two messages. *)
Lemma loadChatMessages_shows_example :
  exists s',
    loadChatMessages
      (chatting (chat_html []) complaint_12 session_7 panda
         (server (json_response 200
                    (VObj [(js "id", VNum (number_of_Z 7)); (js "messages", VArr history)]))
                 offline))
      = (Normal tt, s') /\
    requests (log (base s')) =
      [] ++ [(js "/api/v1/chat/sessions/7/", plain_request)] /\
    messages s' =
      [ (0, user_message (js "It squeals."));
        (1, assistant_message (js "<strong>Pads</strong>")) ] /\
    created s' = 2 /\
    at_bottom s'.
Proof.
  destruct (proj2 (loadChatMessages_shows (rt := engine)
                     (chatting (chat_html []) complaint_12 session_7 panda
                        (server (json_response 200
                                   (VObj [ (js "id", VNum (number_of_Z 7));
                                           (js "messages", VArr history) ]))
                                offline)))
              eq_refl) as (id & Hid & _ & _ & Hshows).
  injection Hid as <-.
  exact (Hshows (js "/api/v1/chat/sessions/7/") _ _ history
           [ user_message (js "It squeals.");
             assistant_message (js "<strong>Pads</strong>") ]
           eq_refl eq_refl eq_refl eq_refl eq_refl ltac:(vm_compute; reflexivity)
           ltac:(present)).
Defined.

(** Starting the chat on complaint 12. *)
Lemma startChat_success_example :
  exists s',
    startChat
      (chatting (chat_html []) complaint_12 VNull panda
         (server (json_response 201 session_7) offline))
      = (Normal tt, s') /\
    currentChatSession (base s') = session_7 /\
    display_of (base s') "chat" = Some (js "block") /\
    display_of (base s') "loadingSpinner" = Some (js "none") /\
    inner_of (base s') "chatCarInfo" =
      Some (TextContent (VStr (js "Fiat Panda" ++ js " (" ++ js "ABC 123" ++ js ")"))) /\
    inner_of (base s') "chatComplaintCategory" = Some (TextContent (VStr (js "Brakes"))) /\
    in_view s' = Some "chat"%string /\
    alerts (log (base s')) = [].
Proof.
  exact (startChat_success (rt := engine)
           (chatting (chat_html []) complaint_12 VNull panda
              (server (json_response 201 session_7) offline))
           (mkResponse 201 (Normal session_7) (Some (mkStream [] None)))
           session_7 (VStr (js "Fiat Panda")) (VStr (js "ABC 123"))
           (js "Fiat Panda") (js "ABC 123")
           eq_refl eq_refl eq_refl eq_refl eq_refl eq_refl ltac:(present)
           eq_refl eq_refl eq_refl).
Defined.

(** Starting the chat when no car was stored with the complaint. *)
Lemma startChat_without_car_example :
  exists s',
    startChat
      (chatting (chat_html []) complaint_12 VNull VUndefined
         (server (json_response 201 session_7) offline))
      = (Throw (mkError "TypeError" (TypeError_property (js "display_name"))), s') /\
    currentChatSession (base s') = session_7 /\
    display_of (base s') "chat" = Some (js "block") /\
    fetched (base s') = 1 /\
    messages s' = [] /\
    in_view s' = None.
Proof.
  exact (startChat_without_car
           (chatting (chat_html []) complaint_12 VNull VUndefined
              (server (json_response 201 session_7) offline))
           (mkResponse 201 (Normal session_7) (Some (mkStream [] None)))
           session_7 (mkError "TypeError" (TypeError_property (js "display_name")))
           eq_refl eq_refl ltac:(present) eq_refl eq_refl eq_refl).
Defined.

(** A message that is answered in two chunks. *)
Lemma sendMessage_streams_example :
  exists s',
    sendMessage
      (chatting (chat_html (js " hi ")) complaint_12 session_7 panda
         (server (Normal (streamed cafe None)) offline))
      = (Normal tt, s') /\
    handleKeyPress (VStr (js "Enter"))
      (chatting (chat_html (js " hi ")) complaint_12 session_7 panda
         (server (Normal (streamed cafe None)) offline))
      = (Normal tt, s') /\
    requests (log (base s')) =
      [] ++ [(js "/api/v1/chat/sessions/7/send_message/",
              message_request (VStr (js "hi")))] /\
    messages s' =
      [] ++ [ (0, user_message (js "hi"));
              (1, assistant_message (js "caf" ++ [233; 33]%N)) ] /\
    at_bottom s' /\
    numbered s' /\
    control_value (base s') "messageInput" = Some [] /\
    alerts (log (base s')) = [].
Proof.
  exact (sendMessage_streams (rt := engine)
           (chatting (chat_html (js " hi ")) complaint_12 session_7 panda
              (server (Normal (streamed cafe None)) offline))
           (js " hi ") (js "/api/v1/chat/sessions/7/send_message/")
           (VNum (number_of_Z 7)) (streamed cafe None) cafe
           eq_refl ltac:(discriminate) eq_refl eq_refl eq_refl ltac:(present)
           ltac:(constructor) eq_refl eq_refl eq_refl).
Defined.

(** A message whose answer breaks off after two chunks. *)
Lemma sendMessage_rolls_back_example :
  exists s',
    sendMessage
      (chatting (chat_html (js " hi ")) complaint_12 session_7 panda
         (server (Normal (streamed cafe (Some connection_lost))) offline))
      = (Normal tt, s') /\
    messages s' =
      [] ++ [ (0, user_message (js "hi")); (2, error_message_shown) ] /\
    at_bottom s' /\
    numbered s' /\
    control_value (base s') "messageInput" = Some [] /\
    alerts (log (base s')) = [].
Proof.
  exact (sendMessage_rolls_back (rt := engine)
           (chatting (chat_html (js " hi ")) complaint_12 session_7 panda
              (server (Normal (streamed cafe (Some connection_lost))) offline))
           (js " hi ") (js "/api/v1/chat/sessions/7/send_message/")
           (VNum (number_of_Z 7))
           eq_refl ltac:(discriminate) eq_refl eq_refl eq_refl ltac:(present)
           ltac:(constructor) eq_refl).
Defined.

End FurtherExamples.
